(** * luv_tls_conn.c: the TLS connection harness of luvit

    A shallow embedding of [src/luv_tls_conn.c].  The file drives an OpenSSL
    engine through two memory BIOs; OpenSSL itself is not part of the file,
    so it enters the development as an interface ([OpenSSL]) whose
    constants and functions are the ones the C file names.  Every C
    function of the file that matters below is a Rocq definition of the
    same name, written in a small state/abort monad over [tls_conn_t]. *)

From Stdlib Require Import ZArith List Strings.String Strings.Ascii Strings.Byte Bool Lia.
From stdpp Require Import base list.
Import ListNotations.
Local Open Scope Z_scope.

Abbreviation byte := Byte.byte.

(** ** Lua values pushed on the stack by the C functions *)

Inductive lua_value : Type :=
| LNil
| LBoolean (b : bool)
| LNumber (n : Z)
| LString (s : list byte).

(** [lua_pushstring] of a C string literal. *)
Definition LStr (s : string) : lua_value := LString (list_byte_of_string s).

(** [lua_toboolean]: everything but [nil] and [false] is true. *)
Definition lua_toboolean (v : lua_value) : bool :=
  match v with
  | LNil | LBoolean false => false
  | _ => true
  end.

(** ** The verification error codes named by the switch of
    [tls_conn_verify_error], in the order of its case labels *)

Inductive x509_v_err : Type :=
| UNABLE_TO_GET_ISSUER_CERT
| UNABLE_TO_GET_CRL
| UNABLE_TO_DECRYPT_CERT_SIGNATURE
| UNABLE_TO_DECRYPT_CRL_SIGNATURE
| UNABLE_TO_DECODE_ISSUER_PUBLIC_KEY
| CERT_SIGNATURE_FAILURE
| CRL_SIGNATURE_FAILURE
| CERT_NOT_YET_VALID
| CERT_HAS_EXPIRED
| CRL_NOT_YET_VALID
| CRL_HAS_EXPIRED
| ERROR_IN_CERT_NOT_BEFORE_FIELD
| ERROR_IN_CERT_NOT_AFTER_FIELD
| ERROR_IN_CRL_LAST_UPDATE_FIELD
| ERROR_IN_CRL_NEXT_UPDATE_FIELD
| OUT_OF_MEM
| DEPTH_ZERO_SELF_SIGNED_CERT
| SELF_SIGNED_CERT_IN_CHAIN
| UNABLE_TO_GET_ISSUER_CERT_LOCALLY
| UNABLE_TO_VERIFY_LEAF_SIGNATURE
| CERT_CHAIN_TOO_LONG
| CERT_REVOKED
| INVALID_CA
| PATH_LENGTH_EXCEEDED
| INVALID_PURPOSE
| CERT_UNTRUSTED
| CERT_REJECTED.

(** The case labels, top to bottom. *)
Definition verify_cases : list x509_v_err :=
  [ UNABLE_TO_GET_ISSUER_CERT; UNABLE_TO_GET_CRL;
    UNABLE_TO_DECRYPT_CERT_SIGNATURE; UNABLE_TO_DECRYPT_CRL_SIGNATURE;
    UNABLE_TO_DECODE_ISSUER_PUBLIC_KEY; CERT_SIGNATURE_FAILURE;
    CRL_SIGNATURE_FAILURE; CERT_NOT_YET_VALID; CERT_HAS_EXPIRED;
    CRL_NOT_YET_VALID; CRL_HAS_EXPIRED; ERROR_IN_CERT_NOT_BEFORE_FIELD;
    ERROR_IN_CERT_NOT_AFTER_FIELD; ERROR_IN_CRL_LAST_UPDATE_FIELD;
    ERROR_IN_CRL_NEXT_UPDATE_FIELD; OUT_OF_MEM; DEPTH_ZERO_SELF_SIGNED_CERT;
    SELF_SIGNED_CERT_IN_CHAIN; UNABLE_TO_GET_ISSUER_CERT_LOCALLY;
    UNABLE_TO_VERIFY_LEAF_SIGNATURE; CERT_CHAIN_TOO_LONG; CERT_REVOKED;
    INVALID_CA; PATH_LENGTH_EXCEEDED; INVALID_PURPOSE; CERT_UNTRUSTED;
    CERT_REJECTED ].

(** The string each case pushes. *)
Definition verify_name (c : x509_v_err) : string :=
  match c with
  | UNABLE_TO_GET_ISSUER_CERT => "UNABLE_TO_GET_ISSUER_CERT"
  | UNABLE_TO_GET_CRL => "UNABLE_TO_GET_CRL"
  | UNABLE_TO_DECRYPT_CERT_SIGNATURE => "UNABLE_TO_DECRYPT_CERT_SIGNATURE"
  | UNABLE_TO_DECRYPT_CRL_SIGNATURE => "UNABLE_TO_DECRYPT_CRL_SIGNATURE"
  | UNABLE_TO_DECODE_ISSUER_PUBLIC_KEY => "UNABLE_TO_DECODE_ISSUER_PUBLIC_KEY"
  | CERT_SIGNATURE_FAILURE => "CERT_SIGNATURE_FAILURE"
  | CRL_SIGNATURE_FAILURE => "CRL_SIGNATURE_FAILURE"
  | CERT_NOT_YET_VALID => "CERT_NOT_YET_VALID"
  | CERT_HAS_EXPIRED => "CERT_HAS_EXPIRED"
  | CRL_NOT_YET_VALID => "CRL_NOT_YET_VALID"
  | CRL_HAS_EXPIRED => "CRL_HAS_EXPIRED"
  | ERROR_IN_CERT_NOT_BEFORE_FIELD => "ERROR_IN_CERT_NOT_BEFORE_FIELD"
  | ERROR_IN_CERT_NOT_AFTER_FIELD => "ERROR_IN_CERT_NOT_AFTER_FIELD"
  | ERROR_IN_CRL_LAST_UPDATE_FIELD => "ERROR_IN_CRL_LAST_UPDATE_FIELD"
  | ERROR_IN_CRL_NEXT_UPDATE_FIELD => "ERROR_IN_CRL_NEXT_UPDATE_FIELD"
  | OUT_OF_MEM => "OUT_OF_MEM"
  | DEPTH_ZERO_SELF_SIGNED_CERT => "DEPTH_ZERO_SELF_SIGNED_CERT"
  | SELF_SIGNED_CERT_IN_CHAIN => "SELF_SIGNED_CERT_IN_CHAIN"
  | UNABLE_TO_GET_ISSUER_CERT_LOCALLY => "UNABLE_TO_GET_ISSUER_CERT_LOCALLY"
  | UNABLE_TO_VERIFY_LEAF_SIGNATURE => "UNABLE_TO_VERIFY_LEAF_SIGNATURE"
  | CERT_CHAIN_TOO_LONG => "CERT_CHAIN_TOO_LONG"
  | CERT_REVOKED => "CERT_REVOKED"
  | INVALID_CA => "INVALID_CA"
  | PATH_LENGTH_EXCEEDED => "PATH_LENGTH_EXCEEDED"
  | INVALID_PURPOSE => "INVALID_PURPOSE"
  | CERT_UNTRUSTED => "CERT_UNTRUSTED"
  | CERT_REJECTED => "CERT_REJECTED"
  end.

(** ** The OpenSSL interface the file is compiled against

    Types, header constants and functions that [luv_tls_conn.c] uses and
    that live in OpenSSL.  Their values and behaviour are parameters: the
    harness is verified for every library that fills the interface.

    An [SSL] handle reads from and writes to the two BIOs it was given by
    [SSL_set_bio]; the connection struct holds pointers to the same two
    BIOs.  The sharing is made explicit: every engine step receives the
    handle together with the read BIO and the write BIO and returns all
    three. *)

Class OpenSSL : Type := {
  SSL : Type;
  BIO : Type;
  SSL_CTX : Type;
  X509 : Type;
  X509_STORE_CTX : Type;

  (* openssl/ssl.h *)
  SSL_ERROR_NONE : Z;
  SSL_ERROR_SSL : Z;
  SSL_ERROR_WANT_READ : Z;
  SSL_ERROR_WANT_WRITE : Z;
  SSL_ERROR_SYSCALL : Z;
  SSL_VERIFY_NONE : Z;
  SSL_VERIFY_PEER : Z;
  SSL_VERIFY_FAIL_IF_NO_PEER_CERT : Z;
  SSL_MODE_RELEASE_BUFFERS : Z;

  (* openssl/x509_vfy.h, openssl/evp.h *)
  X509_V_OK : Z;
  X509_V_ERR : x509_v_err -> Z;
  EVP_MAX_MD_SIZE : nat;

  (* object creation and configuration *)
  BIO_new_mem : BIO;                     (* BIO_new(BIO_s_mem()) *)
  SSL_new : SSL_CTX -> SSL;
  SSL_get_mode : SSL -> Z;
  SSL_set_mode : SSL -> Z -> SSL;
  SSL_set_verify : SSL -> Z -> (Z -> X509_STORE_CTX -> Z) -> SSL;
  SSL_set_accept_state : SSL -> SSL;
  SSL_set_connect_state : SSL -> SSL;

  (* handshake and record layer *)
  SSL_is_init_finished : SSL -> bool;
  SSL_accept : SSL -> BIO -> BIO -> Z * (SSL * BIO * BIO);
  SSL_connect : SSL -> BIO -> BIO -> Z * (SSL * BIO * BIO);
  SSL_read : SSL -> BIO -> BIO -> Z -> (Z * list byte) * (SSL * BIO * BIO);
  SSL_write : SSL -> BIO -> BIO -> list byte -> Z -> Z * (SSL * BIO * BIO);
  SSL_shutdown : SSL -> BIO -> BIO -> Z * (SSL * BIO * BIO);
  SSL_get_error : SSL -> Z -> Z;

  (* memory BIOs *)
  BIO_write : BIO -> list byte -> Z -> Z * BIO;
  BIO_read : BIO -> Z -> (Z * list byte) * BIO;
  BIO_pending : BIO -> Z;
  BIO_should_retry : BIO -> bool;
  BIO_should_write : BIO -> bool;
  BIO_should_read : BIO -> bool;

  (* certificates *)
  SSL_get_peer_certificate : SSL -> option X509;
  SSL_get_verify_result : SSL -> Z;
  X509_verify_cert_error_string : Z -> string;
  X509_digest_sha1 : X509 -> option (list byte)  (* X509_digest(_, EVP_sha1(), md, &md_size) *)
}.

(** ** Outcomes: a C function returns, or an [assert] aborts the process *)

Inductive outcome (A : Type) : Type :=
| Returned (a : A)
| Aborted.
Arguments Returned {A} a.
Arguments Aborted {A}.

(** [size_t] to [int], as in [BIO_write(bio, data, len)] with [size_t len]. *)
Definition int_of_size_t (n : Z) : Z :=
  let m := n mod 2 ^ 32 in
  if m <? 2 ^ 31 then m else m - 2 ^ 32.

(** ** The fingerprint block of [tls_conn_get_peer_certificate]

    [md] holds the [md_size] digest bytes that [X509_digest] stored;
    [fingerprint] is the local [char] array, whose cells are indeterminate
    until written. *)

(** [const char hex[] = "0123456789ABCDEF"] *)
Definition hex : list byte := list_byte_of_string "0123456789ABCDEF".

(** An [unsigned char] as an integer. *)
Definition uchar (b : byte) : Z := Z.of_N (Byte.to_N b).

(** One round of the [for] loop, at index [i]. *)
Definition fingerprint_round (md : list byte) (fingerprint : list byte)
    (i : nat) : list byte :=
  let b := uchar (nth i md x00) in
  let fingerprint :=
    <[(3 * i)%nat := nth (Z.to_nat (Z.shiftr (Z.land b 0xf0) 4)) hex x00]>
      fingerprint in
  let fingerprint :=
    <[(3 * i + 1)%nat := nth (Z.to_nat (Z.land b 0x0f)) hex x00]>
      fingerprint in
  <[(3 * i + 2)%nat := x3a]> fingerprint.      (* ':' *)

(** What [lua_pushstring] reads from a [char] array: the bytes before the
    first NUL. *)
Fixpoint c_string (buf : list byte) : list byte :=
  match buf with
  | [] => []
  | c :: rest => if Byte.eqb c x00 then [] else c :: c_string rest
  end.

(** The loop, the terminator, and the string pushed under the key
    ["fingerprint"]. *)
Definition fingerprint (md : list byte) (uninit : list byte) : list byte :=
  let md_size := length md in
  let buf := fold_left (fingerprint_round md) (seq 0 md_size) uninit in
  let buf :=
    if (0 <? md_size)%nat then <[(3 * (md_size - 1) + 2)%nat := x00]> buf
    else <[0%nat := x00]> buf in
  c_string buf.

(** The spec's wording of the same string, for comparison: uppercase hex
    pairs joined by colons. *)
Definition hex_digit (d : N) : byte :=
  match Byte.of_N (if (d <? 10)%N then 48 + d else 55 + d)%N with
  | Some c => c
  | None => x00
  end.

Definition hex_pair (b : byte) : list byte :=
  [hex_digit (Byte.to_N b / 16)%N; hex_digit (Byte.to_N b mod 16)%N].

Fixpoint join_colon (pairs : list (list byte)) : list byte :=
  match pairs with
  | [] => []
  | [p] => p
  | p :: rest => p ++ x3a :: join_colon rest
  end.

Definition fingerprint_spec (md : list byte) : list byte :=
  join_colon (map hex_pair md).

(** What the loop has written after its rounds: three cells for each
    digest byte. *)
Definition rendered (md : list byte) : list byte :=
  flat_map (fun b => hex_pair b ++ [x3a]) md.

Section Conn.
Context {lib : OpenSSL}.

(** [true] when the file is compiled with [-DNDEBUG], which turns [assert]
    into nothing. *)
Variable NDEBUG : bool.

(** The connection struct.  [ssl] is the live handle: the model covers a
    connection between [newCONN] and [close]. *)
Record tls_conn_t : Type := mk_tls_conn {
  bio_read : BIO;
  bio_write : BIO;
  ssl : SSL;
  is_server : bool;
  error : Z
}.

(** Calls into the library that create, configure, step or free something;
    the functions log them so that theorems can speak about what was and
    was not invoked.  Calls that only look ([SSL_is_init_finished],
    [SSL_get_error], [BIO_pending], [BIO_should_retry] and the like) are not
    logged. *)
Inductive engine_call : Type :=
| Call_BIO_new
| Call_ERR_print_errors
| Call_BIO_free
| Call_SSL_new
| Call_SSL_set_bio
| Call_SSL_set_mode (mode : Z)
| Call_SSL_set_verify (mode : Z) (cb : Z -> X509_STORE_CTX -> Z)
| Call_SSL_set_accept_state
| Call_SSL_set_connect_state
| Call_SSL_accept
| Call_SSL_connect
| Call_SSL_read (num : Z)
| Call_SSL_write (data : list byte) (num : Z)
| Call_SSL_shutdown
| Call_BIO_write_bio_read (data : list byte) (len : Z)
| Call_BIO_read_bio_write (len : Z).

(** *** The monad: connection state, engine-call log, abort *)

Definition M (A : Type) : Type :=
  tls_conn_t -> outcome (A * tls_conn_t * list engine_call).

Definition ret {A} (a : A) : M A := fun tc => Returned (a, tc, []).

Definition bind {A B} (m : M A) (k : A -> M B) : M B :=
  fun tc =>
    match m tc with
    | Aborted => Aborted
    | Returned (a, tc1, l1) =>
        match k a tc1 with
        | Aborted => Aborted
        | Returned (b, tc2, l2) => Returned (b, tc2, l1 ++ l2)
        end
    end.

Notation "'let*' x ':=' m 'in' k" := (bind m (fun x => k))
  (at level 10, x pattern, m at level 100, k at level 200).

Definition gets {A} (f : tls_conn_t -> A) : M A :=
  fun tc => Returned (f tc, tc, []).

(** [tc->error = rv] *)
Definition set_error (rv : Z) : M unit :=
  fun tc => Returned (tt, mk_tls_conn (bio_read tc) (bio_write tc) (ssl tc)
                            (is_server tc) rv, []).

Definition lift {A} (o : outcome A) : M A :=
  fun tc => match o with
            | Returned a => Returned (a, tc, [])
            | Aborted => Aborted
            end.

(** A function that does not receive the connection, with the calls it
    made. *)
Definition lift_calls {A} (o : outcome (A * list engine_call)) : M A :=
  fun tc => match o with
            | Returned (a, l) => Returned (a, tc, l)
            | Aborted => Aborted
            end.

(** [assert(b)] *)
Definition assert (b : bool) : outcome unit :=
  if NDEBUG || b then Returned tt else Aborted.

(** An engine step on the handle and its two BIOs. *)
Definition ssl_call {A} (c : engine_call)
    (f : SSL -> BIO -> BIO -> A * (SSL * BIO * BIO)) : M A :=
  fun tc =>
    let '(a, (s, r, w)) := f (ssl tc) (bio_read tc) (bio_write tc) in
    Returned (a, mk_tls_conn r w s (is_server tc) (error tc), [c]).

(** [BIO_write(tc->bio_read, data, len)] *)
Definition bio_read_write (data : list byte) (len : Z) : M Z :=
  fun tc =>
    let '(rv, r) := BIO_write (bio_read tc) data len in
    Returned (rv, mk_tls_conn r (bio_write tc) (ssl tc) (is_server tc)
                    (error tc), [Call_BIO_write_bio_read data len]).

(** [BIO_read(tc->bio_write, pool, len)]: the status and the bytes stored in
    [pool]. *)
Definition bio_write_read (len : Z) : M (Z * list byte) :=
  fun tc =>
    let '(res, w) := BIO_read (bio_write tc) len in
    Returned (res, mk_tls_conn (bio_read tc) w (ssl tc) (is_server tc)
                     (error tc), [Call_BIO_read_bio_write len]).

(** *** Creation *)

Definition tls_conn_verify_cb (preverify_ok : Z) (ctx : X509_STORE_CTX) : Z := 1.

(** [newCONN]: stack slot 1 holds the secure context, slots 2 to 4 the three
    flags.  [SSL_set_app_data] stores a back pointer that the file never
    reads; [SSL_set_bio] is the sharing described at [OpenSSL]. *)
Definition newCONN (ctx : SSL_CTX) (arg2 arg3 arg4 : lua_value)
    : tls_conn_t * list engine_call :=
  let is_server := lua_toboolean arg2 in
  let is_request_cert := lua_toboolean arg3 in
  let is_reject_unauthorized := lua_toboolean arg4 in
  let s := SSL_new ctx in
  let verify_mode :=
    if is_server then
      if negb is_request_cert then SSL_VERIFY_NONE
      else
        if is_reject_unauthorized
        then Z.lor SSL_VERIFY_PEER SSL_VERIFY_FAIL_IF_NO_PEER_CERT
        else SSL_VERIFY_PEER
    else SSL_VERIFY_NONE in
  let mode := Z.lor (SSL_get_mode s) SSL_MODE_RELEASE_BUFFERS in
  let s := SSL_set_mode s mode in
  let s := SSL_set_verify s verify_mode tls_conn_verify_cb in
  let s := if is_server then SSL_set_accept_state s
           else SSL_set_connect_state s in
  (mk_tls_conn BIO_new_mem BIO_new_mem s is_server 0,
   [Call_BIO_new; Call_BIO_new; Call_SSL_new; Call_SSL_set_bio;
    Call_SSL_set_mode mode;
    Call_SSL_set_verify verify_mode tls_conn_verify_cb;
    if is_server then Call_SSL_set_accept_state
    else Call_SSL_set_connect_state]).

(** *** The two error classifiers *)

(** The calls of the fatal branch of [tls_handle_ssl_error_x]: a memory
    BIO of its own, the error queue printed into it, the BIO freed.
    [BIO_new] cannot fail in the interface, so the block that the [if]
    guards runs. *)
Definition error_dump : list engine_call :=
  [Call_BIO_new; Call_ERR_print_errors; Call_BIO_free].

(** [tls_handle_ssl_error_x]: the status it returns and the calls it makes.
    Nothing of the fatal branch reaches the connection, which the function
    does not even receive. *)
Definition tls_handle_ssl_error_x (s : SSL) (rv : Z)
    : outcome (Z * list engine_call) :=
  if 0 <=? rv then Returned (rv, [])
  else
    let err := SSL_get_error s rv in
    if err =? SSL_ERROR_NONE then Returned (0, [])
    else if err =? SSL_ERROR_WANT_WRITE then Returned (0, [])
    else if err =? SSL_ERROR_WANT_READ then Returned (0, [])
    else
      match assert ((err =? SSL_ERROR_SSL) || (err =? SSL_ERROR_SYSCALL)) with
      | Aborted => Aborted
      | Returned _ => Returned (rv, error_dump)
      end.

Definition tls_handle_ssl_error (rv : Z) : M Z :=
  let* s := gets ssl in lift_calls (tls_handle_ssl_error_x s rv).

(** [tls_handle_bio_error_x]; [bio] is the BIO the status came from. *)
Definition tls_handle_bio_error_x (bio : BIO) (rv : Z) : M Z :=
  if 0 <=? rv then ret rv
  else
    let retry := BIO_should_retry bio in
    if BIO_should_write bio then ret 0
    else if BIO_should_read bio then ret 0
    else
      let* _ := lift (assert ((rv =? SSL_ERROR_SSL) || (rv =? SSL_ERROR_SYSCALL))) in
      let* _ := set_error rv in
      ret rv.

(** *** The methods *)

(** The handshake step of the connection's role. *)
Definition handshake_call : M Z :=
  let* server := gets is_server in
  if server then ssl_call Call_SSL_accept SSL_accept
  else ssl_call Call_SSL_connect SSL_connect.

Definition tls_conn_start : M (list lua_value) :=
  let* s := gets ssl in
  if negb (SSL_is_init_finished s) then
    let* rv := handshake_call in
    let* _ := tls_handle_ssl_error rv in
    ret [LNumber rv]
  else ret [LNumber 0].

Definition tls_conn_enc_in (data : list byte) : M (list lua_value) :=
  let len := Z.of_nat (length data) in
  let* bytes_written := bio_read_write data (int_of_size_t len) in
  let* bio := gets bio_read in
  let* _ := tls_handle_bio_error_x bio bytes_written in
  ret [LNumber bytes_written].

(** [lua_pushlstring(L, pool, n)] when [n > 0], the empty string otherwise.
    [pool] stands for the bytes the engine stored at the front of the local
    array; a read that answers [n > 0] has stored [n] bytes. *)
Definition push_pool (pool : list byte) (n : Z) : lua_value :=
  if 0 <? n then LString (firstn (Z.to_nat n) pool) else LString [].

Definition tls_conn_enc_out : M (list lua_value) :=
  let* (bytes_read, pool) := bio_write_read 4096 in
  let* bio := gets bio_write in
  let* _ := tls_handle_bio_error_x bio bytes_read in
  ret [LNumber bytes_read; push_pool pool bytes_read].

Definition tls_conn_enc_pending : M (list lua_value) :=
  let* bio := gets bio_write in ret [LNumber (BIO_pending bio)].

Definition tls_conn_clear_out : M (list lua_value) :=
  let* s := gets ssl in
  let* early :=
    (if negb (SSL_is_init_finished s) then
       let* rv := handshake_call in
       let* _ := tls_handle_ssl_error rv in
       ret (if rv <? 0 then Some rv else None)
     else ret None) in
  match early with
  | Some rv => ret [LNumber rv]
  | None =>
      let* (bytes_read, pool) :=
        ssl_call (Call_SSL_read 4096)
                 (fun s r w => SSL_read s r w 4096) in
      let* _ := tls_handle_ssl_error bytes_read in
      ret [LNumber bytes_read; push_pool pool bytes_read]
  end.

Definition tls_conn_clear_in (data : list byte) : M (list lua_value) :=
  let len := int_of_size_t (Z.of_nat (length data)) in
  let* s := gets ssl in
  let* early :=
    (if negb (SSL_is_init_finished s) then
       let* rv := handshake_call in
       let* _ := tls_handle_ssl_error rv in
       ret (if rv <? 0 then Some rv else None)
     else ret None) in
  match early with
  | Some rv => ret [LNumber rv]
  | None =>
      let* bytes_written :=
        ssl_call (Call_SSL_write data len)
                 (fun s r w => SSL_write s r w data len) in
      let* _ := tls_handle_ssl_error bytes_written in
      ret [LNumber bytes_written]
  end.

Definition tls_conn_clear_pending : M (list lua_value) :=
  let* bio := gets bio_read in ret [LNumber (BIO_pending bio)].

Definition tls_conn_shutdown : M (list lua_value) :=
  let* rv := ssl_call Call_SSL_shutdown SSL_shutdown in
  ret [LNumber rv].

Definition tls_conn_get_error : M (list lua_value) :=
  let* e := gets error in
  ret [if e =? 0 then LNil else LNumber e].

Definition tls_conn_clear_error : M (list lua_value) :=
  let* _ := set_error 0 in ret [].

Definition tls_conn_verify_error : M (list lua_value) :=
  let* s := gets ssl in
  match SSL_get_peer_certificate s with
  | None => ret [LStr "Unable to get peer certificate"]
  | Some peer_cert =>
      let verify := SSL_get_verify_result s in
      if verify =? X509_V_OK then ret [LNil]
      else
        match find (fun c => verify =? X509_V_ERR c) verify_cases with
        | Some c => ret [LStr (verify_name c)]
        | None => ret [LStr (X509_verify_cert_error_string verify)]
        end
  end.

Definition tls_conn_is_init_finished : M (list lua_value) :=
  let* s := gets ssl in ret [LBoolean (SSL_is_init_finished s)].

(** The method table [tls_conn_lib]: the twelve entries that work on the
    live handle and the two buffers.  The other four ([close], [__gc],
    [getPeerCertificate], [getCurrentCipher]) look at [tc->ssl] first or set
    it to [NULL]; they are modelled below, on the userdata over its whole
    life. *)
Inductive method : Type :=
| encIn (data : list byte)
| encOut
| encPending
| getError
| clearError
| clearOut
| clearIn (data : list byte)
| clearPending
| isInitFinished
| shutdown
| start
| verifyError.

Definition tls_conn_lib (m : method) : M (list lua_value) :=
  match m with
  | encIn data => tls_conn_enc_in data
  | encOut => tls_conn_enc_out
  | encPending => tls_conn_enc_pending
  | getError => tls_conn_get_error
  | clearError => tls_conn_clear_error
  | clearOut => tls_conn_clear_out
  | clearIn data => tls_conn_clear_in data
  | clearPending => tls_conn_clear_pending
  | isInitFinished => tls_conn_is_init_finished
  | shutdown => tls_conn_shutdown
  | start => tls_conn_start
  | verifyError => tls_conn_verify_error
  end.

(** A script of method calls on one connection, in order; the results of
    every call and the engine calls of all of them. *)
Fixpoint run (ms : list method) : M (list (list lua_value)) :=
  match ms with
  | [] => ret []
  | m :: ms' =>
      let* r := tls_conn_lib m in
      let* rs := run ms' in
      ret (r :: rs)
  end.

(** The fingerprint entry that [tls_conn_get_peer_certificate] adds to its
    table: present when [X509_digest] succeeds.  [uninit] is what the
    [EVP_MAX_MD_SIZE * 3] cells of the array hold on entry. *)
Definition tls_conn_get_peer_certificate_fingerprint (peer_cert : X509)
    (uninit : list byte) : option (lua_value * lua_value) :=
  match X509_digest_sha1 peer_cert with
  | Some md => Some (LStr "fingerprint", LString (fingerprint md uninit))
  | None => None
  end.

End Conn.

Arguments tls_conn_t {lib}.
Arguments mk_tls_conn {lib}.

(** ** A concrete library, to run the harness

    Header constants take the values of OpenSSL 1.0.x. *)

Definition openssl_X509_V_ERR (c : x509_v_err) : Z :=
  match c with
  | UNABLE_TO_GET_ISSUER_CERT => 2
  | UNABLE_TO_GET_CRL => 3
  | UNABLE_TO_DECRYPT_CERT_SIGNATURE => 4
  | UNABLE_TO_DECRYPT_CRL_SIGNATURE => 5
  | UNABLE_TO_DECODE_ISSUER_PUBLIC_KEY => 6
  | CERT_SIGNATURE_FAILURE => 7
  | CRL_SIGNATURE_FAILURE => 8
  | CERT_NOT_YET_VALID => 9
  | CERT_HAS_EXPIRED => 10
  | CRL_NOT_YET_VALID => 11
  | CRL_HAS_EXPIRED => 12
  | ERROR_IN_CERT_NOT_BEFORE_FIELD => 13
  | ERROR_IN_CERT_NOT_AFTER_FIELD => 14
  | ERROR_IN_CRL_LAST_UPDATE_FIELD => 15
  | ERROR_IN_CRL_NEXT_UPDATE_FIELD => 16
  | OUT_OF_MEM => 17
  | DEPTH_ZERO_SELF_SIGNED_CERT => 18
  | SELF_SIGNED_CERT_IN_CHAIN => 19
  | UNABLE_TO_GET_ISSUER_CERT_LOCALLY => 20
  | UNABLE_TO_VERIFY_LEAF_SIGNATURE => 21
  | CERT_CHAIN_TOO_LONG => 22
  | CERT_REVOKED => 23
  | INVALID_CA => 24
  | PATH_LENGTH_EXCEEDED => 25
  | INVALID_PURPOSE => 26
  | CERT_UNTRUSTED => 27
  | CERT_REJECTED => 28
  end.

(** Modelled from the spec: the in-memory FIFO byte buffer of the buffer
    pair (section 3: unbounded, byte-oriented; append on feed, remove up to
    a maximum from the front on drain, a count of what is queued).  It
    stands for OpenSSL's memory BIO, which is not in the source file; as
    there, a read of an empty buffer answers -1 and marks the BIO
    "retry, should read". *)
Record mem_bio : Type := mk_mem_bio {
  mem_data : list byte;
  mem_should_read : bool
}.

Definition mem_new : mem_bio := mk_mem_bio [] false.

Definition mem_write (b : mem_bio) (data : list byte) (len : Z) : Z * mem_bio :=
  let chunk := firstn (Z.to_nat len) data in
  (Z.of_nat (length chunk), mk_mem_bio (mem_data b ++ chunk) false).

Definition mem_read (b : mem_bio) (len : Z) : (Z * list byte) * mem_bio :=
  match mem_data b with
  | [] => ((-1, []), mk_mem_bio [] true)
  | _ =>
      let out := firstn (Z.to_nat len) (mem_data b) in
      ((Z.of_nat (length out), out),
       mk_mem_bio (skipn (Z.to_nat len) (mem_data b)) false)
  end.

Definition mem_pending (b : mem_bio) : Z := Z.of_nat (length (mem_data b)).

(** A toy engine with a one-byte handshake and a null cipher.  A peer
    certificate is known by its SHA-1 digest; the context says what the
    peer will present and how verification will end. *)
Record toy_x509 : Type := mk_toy_x509 { x509_sha1 : list byte }.

Record toy_ctx : Type := mk_toy_ctx {
  ctx_peer_cert : option toy_x509;
  ctx_verify_result : Z
}.

Record toy_ssl : Type := mk_toy_ssl {
  toy_ctx_of : toy_ctx;
  toy_mode : Z;
  toy_verify_mode : Z;
  toy_accept_state : bool;
  toy_hello_sent : bool;
  toy_finished : bool;
  toy_err : Z                     (* what SSL_get_error will answer *)
}.

Definition toy_with_err (s : toy_ssl) (e : Z) : toy_ssl :=
  mk_toy_ssl (toy_ctx_of s) (toy_mode s) (toy_verify_mode s)
             (toy_accept_state s) (toy_hello_sent s) (toy_finished s) e.

(** One handshake step.  Nothing to read: send the hello once and ask for
    input.  A handshake record (0x16) completes the handshake; an alert
    (0x15) ends it in a controlled way, status 0; anything else is a
    protocol error. *)
Definition toy_handshake (s : toy_ssl) (r w : mem_bio)
    : Z * (toy_ssl * mem_bio * mem_bio) :=
  let w' := if toy_hello_sent s then w
            else mk_mem_bio (mem_data w ++ [x16]) (mem_should_read w) in
  let sent := mk_toy_ssl (toy_ctx_of s) (toy_mode s) (toy_verify_mode s)
                         (toy_accept_state s) true in
  match mem_data r with
  | [] => (-1, (sent false 2, mk_mem_bio [] true, w'))
  | c :: rest =>
      if Byte.eqb c x16 then (1, (sent true 0, mk_mem_bio rest false, w'))
      else if Byte.eqb c x15 then (0, (sent false 6, mk_mem_bio rest false, w'))
      else (-1, (sent false 1, mk_mem_bio rest false, w'))
  end.

Definition toy_read (s : toy_ssl) (r w : mem_bio) (num : Z)
    : (Z * list byte) * (toy_ssl * mem_bio * mem_bio) :=
  if toy_finished s then
    let '(res, r') := mem_read r num in
    (res, (toy_with_err s (if fst res <? 0 then 2 else 0), r', w))
  else ((-1, []), (toy_with_err s 1, r, w)).

Definition toy_write (s : toy_ssl) (r w : mem_bio) (data : list byte) (num : Z)
    : Z * (toy_ssl * mem_bio * mem_bio) :=
  if toy_finished s then
    let '(rv, w') := mem_write w data num in
    (rv, (toy_with_err s 0, r, w'))
  else (-1, (toy_with_err s 1, r, w)).

Definition toy_openssl : OpenSSL := {|
  SSL := toy_ssl;
  BIO := mem_bio;
  SSL_CTX := toy_ctx;
  X509 := toy_x509;
  X509_STORE_CTX := unit;
  SSL_ERROR_NONE := 0;
  SSL_ERROR_SSL := 1;
  SSL_ERROR_WANT_READ := 2;
  SSL_ERROR_WANT_WRITE := 3;
  SSL_ERROR_SYSCALL := 5;
  SSL_VERIFY_NONE := 0;
  SSL_VERIFY_PEER := 1;
  SSL_VERIFY_FAIL_IF_NO_PEER_CERT := 2;
  SSL_MODE_RELEASE_BUFFERS := 16;
  X509_V_OK := 0;
  X509_V_ERR := openssl_X509_V_ERR;
  EVP_MAX_MD_SIZE := 64;
  BIO_new_mem := mem_new;
  SSL_new := fun ctx => mk_toy_ssl ctx 0 0 false false false 0;
  SSL_get_mode := toy_mode;
  SSL_set_mode := fun s m =>
    mk_toy_ssl (toy_ctx_of s) m (toy_verify_mode s) (toy_accept_state s)
               (toy_hello_sent s) (toy_finished s) (toy_err s);
  SSL_set_verify := fun s m _ =>
    mk_toy_ssl (toy_ctx_of s) (toy_mode s) m (toy_accept_state s)
               (toy_hello_sent s) (toy_finished s) (toy_err s);
  SSL_set_accept_state := fun s =>
    mk_toy_ssl (toy_ctx_of s) (toy_mode s) (toy_verify_mode s) true
               (toy_hello_sent s) (toy_finished s) (toy_err s);
  SSL_set_connect_state := fun s =>
    mk_toy_ssl (toy_ctx_of s) (toy_mode s) (toy_verify_mode s) false
               (toy_hello_sent s) (toy_finished s) (toy_err s);
  SSL_is_init_finished := toy_finished;
  SSL_accept := toy_handshake;
  SSL_connect := toy_handshake;
  SSL_read := toy_read;
  SSL_write := toy_write;
  SSL_shutdown := fun s r w => (1, (s, r, mk_mem_bio (mem_data w ++ [x15]) (mem_should_read w)));
  SSL_get_error := fun s _ => toy_err s;
  BIO_write := mem_write;
  BIO_read := mem_read;
  BIO_pending := mem_pending;
  BIO_should_retry := mem_should_read;
  BIO_should_write := fun _ => false;
  BIO_should_read := mem_should_read;
  SSL_get_peer_certificate := fun s =>
    if toy_finished s then ctx_peer_cert (toy_ctx_of s) else None;
  SSL_get_verify_result := fun s => ctx_verify_result (toy_ctx_of s);
  X509_verify_cert_error_string := fun _ => "error number"%string;
  X509_digest_sha1 := fun c => Some (x509_sha1 c)
|}.

(** Connections of the toy library used as concrete inputs. *)

(** A fresh client: [create(ctx, false)]. *)
Definition toy_client : tls_conn_t (lib := toy_openssl) :=
  fst (newCONN (lib := toy_openssl) (mk_toy_ctx None 0)
         (LBoolean false) LNil LNil).

(** A fresh server that requests a certificate. *)
Definition toy_server : tls_conn_t (lib := toy_openssl) :=
  fst (newCONN (lib := toy_openssl) (mk_toy_ctx None 0)
         (LBoolean true) (LBoolean true) LNil).

(** The client after the peer's bytes [bytes] arrived in the read BIO. *)
Definition toy_client_fed (bytes : list byte) : tls_conn_t (lib := toy_openssl) :=
  mk_tls_conn (lib := toy_openssl) (mk_mem_bio bytes false) mem_new
    (ssl toy_client) false 0.

(** A client whose handshake is complete, with [out] waiting in the write
    BIO and a peer certificate whose verification ended with [verify]. *)
Definition toy_established (out : list byte) (peer : option toy_x509)
    (verify : Z) : tls_conn_t (lib := toy_openssl) :=
  mk_tls_conn (lib := toy_openssl) mem_new (mk_mem_bio out false)
    (mk_toy_ssl (mk_toy_ctx peer verify) 16 0 false true true 0) false 0.

(** A connection that already holds an error code. *)
Definition toy_failed : tls_conn_t (lib := toy_openssl) :=
  mk_tls_conn (lib := toy_openssl) (mk_mem_bio [x16] false) mem_new
    (ssl toy_client) false (-1).

(** A peer certificate known by a three-byte digest. *)
Definition toy_cert : toy_x509 := mk_toy_x509 [x00; xab; x1f].

(** ** Predicates used by the statements *)

Section Statements.
Context {lib : OpenSSL}.
Variable NDEBUG : bool.

(** [m] relates the connection before, the connection after and the log of
    every run that returns. *)
Definition keeps {A} (R : tls_conn_t -> tls_conn_t -> list engine_call -> Prop)
    (m : M A) : Prop :=
  forall tc a tc' l, m tc = Returned (a, tc', l) -> R tc tc' l.

(** The engine marks a negative handshake or record status as a retry. *)
Definition ssl_transient (s : SSL) (rv : Z) : Prop :=
  rv < 0 /\
  (SSL_get_error s rv = SSL_ERROR_WANT_READ \/
   SSL_get_error s rv = SSL_ERROR_WANT_WRITE).

(** A negative handshake or record status that is no retry. *)
Definition ssl_fatal (s : SSL) (rv : Z) : Prop :=
  rv < 0 /\
  SSL_get_error s rv <> SSL_ERROR_NONE /\
  SSL_get_error s rv <> SSL_ERROR_WANT_READ /\
  SSL_get_error s rv <> SSL_ERROR_WANT_WRITE.

(** The same two notions for a buffer status. *)
Definition bio_transient (bio : BIO) (rv : Z) : Prop :=
  rv < 0 /\ (BIO_should_write bio = true \/ BIO_should_read bio = true).

Definition bio_fatal (bio : BIO) (rv : Z) : Prop :=
  rv < 0 /\ BIO_should_write bio = false /\ BIO_should_read bio = false.

(** The condition under which the [assert] of [tls_handle_ssl_error_x]
    lets a status through. *)
Definition ssl_assert_passes (s : SSL) (rv : Z) : Prop :=
  NDEBUG = true \/ 0 <= rv \/
  SSL_get_error s rv = SSL_ERROR_NONE \/
  SSL_get_error s rv = SSL_ERROR_WANT_WRITE \/
  SSL_get_error s rv = SSL_ERROR_WANT_READ \/
  SSL_get_error s rv = SSL_ERROR_SSL \/
  SSL_get_error s rv = SSL_ERROR_SYSCALL.

(** The condition under which it does not: assertions are compiled in, the
    status is negative and the engine's error code for it is none of the
    five. *)
Definition ssl_assert_fails (s : SSL) (rv : Z) : Prop :=
  NDEBUG = false /\ rv < 0 /\
  SSL_get_error s rv <> SSL_ERROR_NONE /\
  SSL_get_error s rv <> SSL_ERROR_WANT_WRITE /\
  SSL_get_error s rv <> SSL_ERROR_WANT_READ /\
  SSL_get_error s rv <> SSL_ERROR_SSL /\
  SSL_get_error s rv <> SSL_ERROR_SYSCALL.

(** The handshake step a connection takes, by role, as a pure function. *)
Definition handshake_step (tc : tls_conn_t) : Z * (SSL * BIO * BIO) :=
  if is_server tc then SSL_accept (ssl tc) (bio_read tc) (bio_write tc)
  else SSL_connect (ssl tc) (bio_read tc) (bio_write tc).

Definition handshake_step_call (tc : tls_conn_t) : engine_call :=
  if is_server tc then Call_SSL_accept else Call_SSL_connect.

(** The connection with the engine objects replaced. *)
Definition with_engine (tc : tls_conn_t) (e : SSL * BIO * BIO) : tls_conn_t :=
  let '(s, r, w) := e in mk_tls_conn r w s (is_server tc) (error tc).

(** The record-layer half of [tls_conn_clear_in] and [tls_conn_clear_out]
    (what follows the handshake block), as the engine answers it; [pre] is
    the log so far. *)
Definition record_write (data : list byte) (tc : tls_conn_t)
    (pre : list engine_call)
    : outcome (list lua_value * tls_conn_t * list engine_call) :=
  let len := int_of_size_t (Z.of_nat (length data)) in
  let '(bytes_written, e) :=
    SSL_write (ssl tc) (bio_read tc) (bio_write tc) data len in
  match tls_handle_ssl_error_x NDEBUG (fst (fst e)) bytes_written with
  | Aborted => Aborted
  | Returned (_, l) =>
      Returned ([LNumber bytes_written], with_engine tc e,
                pre ++ Call_SSL_write data len :: l)
  end.

Definition record_read (tc : tls_conn_t) (pre : list engine_call)
    : outcome (list lua_value * tls_conn_t * list engine_call) :=
  let '((bytes_read, pool), e) :=
    SSL_read (ssl tc) (bio_read tc) (bio_write tc) 4096 in
  match tls_handle_ssl_error_x NDEBUG (fst (fst e)) bytes_read with
  | Aborted => Aborted
  | Returned (_, l) =>
      Returned ([LNumber bytes_read; push_pool pool bytes_read],
                with_engine tc e, pre ++ Call_SSL_read 4096 :: l)
  end.

(** The connection with one field replaced. *)
Definition with_bio_read (tc : tls_conn_t) (b : BIO) : tls_conn_t :=
  mk_tls_conn b (bio_write tc) (ssl tc) (is_server tc) (error tc).

Definition with_bio_write (tc : tls_conn_t) (b : BIO) : tls_conn_t :=
  mk_tls_conn (bio_read tc) b (ssl tc) (is_server tc) (error tc).

Definition with_error (tc : tls_conn_t) (e : Z) : tls_conn_t :=
  mk_tls_conn (bio_read tc) (bio_write tc) (ssl tc) (is_server tc) e.

(** The buffer status of a call of [m] on [tc] is fatal; only [encIn] and
    [encOut] have a buffer status. *)
Definition buffer_status_fatal (m : method) (tc : tls_conn_t) : Prop :=
  match m with
  | encIn data =>
      let res := BIO_write (bio_read tc) data
                   (int_of_size_t (Z.of_nat (length data))) in
      bio_fatal (snd res) (fst res)
  | encOut =>
      let res := BIO_read (bio_write tc) 4096 in
      bio_fatal (snd res) (fst (fst res))
  | _ => False
  end.

(** No call of the script meets a fatal buffer status. *)
Fixpoint no_buffer_fault (ms : list method) (tc : tls_conn_t) : Prop :=
  match ms with
  | [] => True
  | m :: ms' =>
      ~ buffer_status_fatal m tc /\
      forall r tc' l, tls_conn_lib NDEBUG m tc = Returned (r, tc', l) ->
                      no_buffer_fault ms' tc'
  end.

(** A read asks the engine for 4096 bytes. *)
Definition reads_4096 (c : engine_call) : Prop :=
  match c with
  | Call_SSL_read n | Call_BIO_read_bio_write n => n = 4096
  | _ => True
  end.

(** The error field is as it was. *)
Definition same_error (tc tc' : tls_conn_t) (_ : list engine_call) : Prop :=
  error tc' = error tc.

Definition log_all (P : engine_call -> Prop) (tc tc' : tls_conn_t)
    (l : list engine_call) : Prop :=
  Forall P l.

(** A returned value fits the 4096-byte pool: a count of at most 4096, a
    string of at most 4096 bytes. *)
Definition fits_pool (v : lua_value) : Prop :=
  match v with
  | LNumber n => n <= 4096
  | LString s => (length s <= 4096)%nat
  | _ => True
  end.


End Statements.

(** ** The methods that return tables, and [close]

    [getCurrentCipher] and [getPeerCertificate] build Lua tables and look
    at [tc->ssl] before they use it, because [close] sets it to [NULL].
    They need more of OpenSSL than the methods above.  The other twelve
    methods use [tc->ssl] and the two buffers without a look; what they do
    after [close] is up to what OpenSSL does with a [NULL] handle and with
    freed buffers, which the file does not say, and is not modelled. *)

(** A Lua value that may be a table; a table is its list of entries. *)
#[warnings="-register-all"]
Inductive lua_obj : Type :=
| OValue (v : lua_value)
| OTable (entries : list (lua_value * lua_obj)).

Fixpoint bytes_eqb (a b : list byte) : bool :=
  match a, b with
  | [], [] => true
  | x :: a', y :: b' => Byte.eqb x y && bytes_eqb a' b'
  | _, _ => false
  end.

(** Equality of table keys. *)
Definition lua_value_eqb (a b : lua_value) : bool :=
  match a, b with
  | LNil, LNil => true
  | LBoolean x, LBoolean y => Bool.eqb x y
  | LNumber x, LNumber y => x =? y
  | LString x, LString y => bytes_eqb x y
  | _, _ => false
  end.

(** [lua_settable]: [t[k] = v], replacing the entry of [k] when there is
    one. *)
Fixpoint lua_settable (t : list (lua_value * lua_obj)) (k : lua_value)
    (v : lua_obj) : list (lua_value * lua_obj) :=
  match t with
  | [] => [(k, v)]
  | (k', v') :: rest =>
      if lua_value_eqb k k' then (k, v) :: rest
      else (k', v') :: lua_settable rest k v
  end.

(** [t[k]] *)
Fixpoint lua_gettable (t : list (lua_value * lua_obj)) (k : lua_value)
    : option lua_obj :=
  match t with
  | [] => None
  | (k', v') :: rest =>
      if lua_value_eqb k k' then Some v' else lua_gettable rest k
  end.

(** The certificate and cipher functions of OpenSSL that the two methods
    call.  A printing function answers its status and the bytes it wrote
    to the BIO it was given; a function that may be handed a [NULL]
    pointer takes an option. *)
Class OpenSSL_cert {lib : OpenSSL} : Type := {
  X509_NAME : Type;
  X509_EXTENSION : Type;
  EVP_PKEY : Type;
  RSA : Type;
  BIGNUM : Type;
  ASN1_TIME : Type;
  ASN1_OBJECT : Type;
  SSL_CIPHER : Type;

  (* openssl/asn1.h, openssl/x509.h, openssl/objects.h *)
  ASN1_STRFLGS_ESC_CTRL : Z;
  ASN1_STRFLGS_ESC_MSB : Z;
  XN_FLAG_SEP_MULTILINE : Z;
  XN_FLAG_FN_SN : Z;
  NID_subject_alt_name : Z;
  NID_ext_key_usage : Z;

  X509_get_subject_name : X509 -> X509_NAME;
  X509_get_issuer_name : X509 -> X509_NAME;
  X509_NAME_print_ex : X509_NAME -> Z -> Z -> Z * list byte;
  X509_get_ext_by_NID : X509 -> Z -> Z -> Z;
  X509_get_ext : X509 -> Z -> option X509_EXTENSION;
  X509V3_EXT_print : option X509_EXTENSION -> Z -> Z -> Z * list byte;
  X509_get_pubkey : X509 -> option EVP_PKEY;
  EVP_PKEY_get1_RSA : EVP_PKEY -> option RSA;
  RSA_n : RSA -> BIGNUM;                 (* rsa->n *)
  RSA_e : RSA -> BIGNUM;                 (* rsa->e *)
  BN_print : BIGNUM -> Z * list byte;
  X509_get_notBefore : X509 -> ASN1_TIME;
  X509_get_notAfter : X509 -> ASN1_TIME;
  ASN1_TIME_print : ASN1_TIME -> Z * list byte;
  (* X509_get_ext_d2i(cert, nid, NULL, NULL) as a STACK_OF(ASN1_OBJECT) *)
  X509_get_ext_d2i : X509 -> Z -> option (list ASN1_OBJECT);
  (* OBJ_obj2txt(buf, buf_len, obj, no_name): status and the bytes stored
     in buf, terminator apart *)
  OBJ_obj2txt : Z -> ASN1_OBJECT -> Z -> Z * list byte;
  SSL_get_current_cipher : SSL -> option SSL_CIPHER;
  SSL_CIPHER_get_name : SSL_CIPHER -> list byte;
  SSL_CIPHER_get_version : SSL_CIPHER -> list byte
}.

Section Cert.
Context {lib : OpenSSL} {api : OpenSSL_cert}.
Variable NDEBUG : bool.

(** The userdata over its life: a connection, or what [tls_conn_close]
    leaves of it, [ssl == NULL] with the role and the error code still in
    place (the two BIO pointers dangle, [SSL_free] has freed the BIOs). *)
Inductive userdata : Type :=
| Open (tc : tls_conn_t)
| Closed (was_server : bool) (last_error : Z).

(** [tc->error], which outlives [close]. *)
Definition userdata_error (u : userdata) : Z :=
  match u with
  | Open tc => error tc
  | Closed _ e => e
  end.

(** [SSL_free(ssl)]; [live] is false when [ssl] is [NULL], which
    [SSL_free] accepts and ignores. *)
Inductive lifecycle_call : Type :=
| Call_SSL_free (live : bool).

Definition tls_conn_close (u : userdata)
    : list lua_value * userdata * list lifecycle_call :=
  match u with
  | Open tc => ([], Closed (is_server tc) (error tc), [Call_SSL_free true])
  | Closed s e => ([], Closed s e, [Call_SSL_free false])
  end.

Definition tls_conn_gc (u : userdata)
    : list lua_value * userdata * list lifecycle_call :=
  tls_conn_close u.

(** [close] and [__gc] called one after the other, in any order. *)
Inductive lifecycle_method : Type :=
| close
| gc.

Fixpoint run_lifecycle (ms : list lifecycle_method) (u : userdata)
    : userdata * list lifecycle_call :=
  match ms with
  | [] => (u, [])
  | m :: ms' =>
      let '(_, u1, l1) :=
        match m with
        | close => tls_conn_close u
        | gc => tls_conn_gc u
        end in
      let '(u2, l2) := run_lifecycle ms' u1 in
      (u2, l1 ++ l2)
  end.

Definition tls_conn_get_current_cipher (u : userdata) : list lua_obj :=
  match u with
  | Closed _ _ => [OValue LNil]
  | Open tc =>
      match SSL_get_current_cipher (ssl tc) with
      | None => [OValue LNil]
      | Some c =>
          let t := [] in
          let t := lua_settable t (LStr "name")
                     (OValue (LString (SSL_CIPHER_get_name c))) in
          let t := lua_settable t (LStr "version")
                     (OValue (LString (SSL_CIPHER_get_version c))) in
          [OTable t]
      end
  end.

(** [X509_NAME_FLAGS] *)
Definition X509_NAME_FLAGS : Z :=
  Z.lor (Z.lor (Z.lor ASN1_STRFLGS_ESC_CTRL ASN1_STRFLGS_ESC_MSB)
               XN_FLAG_SEP_MULTILINE) XN_FLAG_FN_SN.

(** What [tls_conn_get_peer_certificate] does with its scratch BIO, the
    key usage stack and the certificate. *)
Inductive cert_call : Type :=
| Call_BIO_new_scratch
| Call_BIO_reset
| Call_BIO_free_scratch
| Call_sk_pop_free
| Call_X509_free.

(** The locals of [tls_conn_get_peer_certificate] that change as it goes:
    the contents of the scratch BIO ([mem->data], [mem->length]), the
    table on the Lua stack, the log, and whether the scratch BIO that
    [bio] points to is still allocated. *)
Record cert_state : Type := mk_cert_state {
  scratch : list byte;
  table : list (lua_value * lua_obj);
  cert_log : list cert_call;
  scratch_live : bool
}.

(** How a call of [tls_conn_get_peer_certificate] ends: it returns what it
    pushed; an [assert] aborts the process; or it hands [BIO_free] a BIO
    that it has freed already, after which C promises nothing.  In the
    last case the table built and the calls made up to that point are
    kept. *)
Inductive cert_outcome : Type :=
| Cert_returned (res : list lua_obj) (log : list cert_call)
| Cert_aborted
| Cert_double_free (built : list (lua_value * lua_obj)) (log : list cert_call).

(** A printing call: the bytes go to the scratch BIO. *)
Definition print_to (st : cert_state) (written : list byte) : cert_state :=
  mk_cert_state (scratch st ++ written) (table st) (cert_log st)
                (scratch_live st).

(** [BIO_get_mem_ptr; lua_pushstring(key); lua_pushlstring(mem->data,
    mem->length); lua_settable] *)
Definition store_scratch (st : cert_state) (key : string) : cert_state :=
  mk_cert_state (scratch st)
    (lua_settable (table st) (LStr key) (OValue (LString (scratch st))))
    (cert_log st) (scratch_live st).

(** [(void) BIO_reset(bio)] *)
Definition reset_scratch (st : cert_state) : cert_state :=
  mk_cert_state [] (table st) (cert_log st ++ [Call_BIO_reset])
                (scratch_live st).

Definition log_cert (st : cert_state) (c : cert_call) : cert_state :=
  mk_cert_state (scratch st) (table st) (cert_log st ++ [c])
                (scratch_live st).

(** [BIO_free(bio)]: the scratch BIO is released, and [bio] keeps pointing
    to it.  There is no answer when it was released before. *)
Definition scratch_free (st : cert_state) : option cert_state :=
  if scratch_live st
  then Some (mk_cert_state (scratch st) (table st)
               (cert_log st ++ [Call_BIO_free_scratch]) false)
  else None.

(** The subject block and the issuer block. *)
Definition cert_name_block (name : X509_NAME) (key : string)
    (st : cert_state) : cert_state :=
  let '(rv, written) := X509_NAME_print_ex name 0 X509_NAME_FLAGS in
  let st := print_to st written in
  let st := if 0 <? rv then store_scratch st key else st in
  reset_scratch st.

(** The subject alternative name block, with its two assertions. *)
Definition cert_san_block (peer_cert : X509) (st : cert_state)
    : outcome cert_state :=
  let index := X509_get_ext_by_NID peer_cert NID_subject_alt_name (-1) in
  if 0 <=? index then
    let ext := X509_get_ext peer_cert index in
    match assert NDEBUG (match ext with Some _ => true | None => false end) with
    | Aborted => Aborted
    | Returned _ =>
        let '(rv, written) := X509V3_EXT_print ext 0 0 in
        let st := print_to st written in
        match assert NDEBUG (rv =? 1) with
        | Aborted => Aborted
        | Returned _ =>
            Returned (reset_scratch (store_scratch st "subjectaltname"))
        end
    end
  else Returned st.

(** The RSA block: modulus and exponent, for an RSA key only. *)
Definition cert_rsa_block (peer_cert : X509) (st : cert_state) : cert_state :=
  match X509_get_pubkey peer_cert with
  | None => st
  | Some pkey =>
      match EVP_PKEY_get1_RSA pkey with
      | None => st
      | Some rsa =>
          let st := print_to st (snd (BN_print (RSA_n rsa))) in
          let st := reset_scratch (store_scratch st "modulus") in
          let st := print_to st (snd (BN_print (RSA_e rsa))) in
          reset_scratch (store_scratch st "e")
      end
  end.

(** The two validity dates. *)
Definition cert_validity_block (peer_cert : X509) (st : cert_state)
    : cert_state :=
  let st := print_to st (snd (ASN1_TIME_print (X509_get_notBefore peer_cert))) in
  let st := reset_scratch (store_scratch st "valid_from") in
  let st := print_to st (snd (ASN1_TIME_print (X509_get_notAfter peer_cert))) in
  store_scratch st "valid_to".

(** The fingerprint block, which is
    [tls_conn_get_peer_certificate_fingerprint]. *)
Definition cert_fingerprint_block (peer_cert : X509) (uninit : list byte)
    (st : cert_state) : cert_state :=
  match tls_conn_get_peer_certificate_fingerprint peer_cert uninit with
  | Some (k, v) =>
      mk_cert_state (scratch st) (lua_settable (table st) k (OValue v))
                    (cert_log st) (scratch_live st)
  | None => st
  end.

(** One round of the extended key usage loop: [memset(buf, 0, 256)],
    [OBJ_obj2txt(buf, 255, obj, 1)], then [t[i + 1] = buf] read as a C
    string. *)
Definition eku_round (inner : list (lua_value * lua_obj)) (i : nat)
    (obj : ASN1_OBJECT) : list (lua_value * lua_obj) :=
  let written := snd (OBJ_obj2txt 255 obj 1) in
  let buf := written ++ repeat x00 (256 - length written) in
  lua_settable inner (LNumber (Z.of_nat i + 1)) (OValue (LString (c_string buf))).

Fixpoint eku_loop (inner : list (lua_value * lua_obj)) (i : nat)
    (objs : list ASN1_OBJECT) : list (lua_value * lua_obj) :=
  match objs with
  | [] => inner
  | obj :: rest => eku_loop (eku_round inner i obj) (S i) rest
  end.

Definition cert_eku_block (peer_cert : X509) (st : cert_state) : cert_state :=
  match X509_get_ext_d2i peer_cert NID_ext_key_usage with
  | None => st
  | Some eku =>
      let inner := eku_loop [] 0 eku in
      mk_cert_state (scratch st)
        (lua_settable (table st) (LStr "ext_key_usage") (OTable inner))
        (cert_log st ++ [Call_sk_pop_free]) (scratch_live st)
  end.

(** The keys [tls_conn_get_peer_certificate] may set. *)
Definition cert_keys : list lua_value :=
  map LStr ["subject"; "issuer"; "subjectaltname"; "modulus"; "e";
            "valid_from"; "valid_to"; "fingerprint"; "ext_key_usage"]%string.

(** [tls_conn_get_peer_certificate]; [uninit] is what the local
    [fingerprint] array holds on entry.  [bio] is assigned once, by the
    [BIO_new] at the top, and passed to [BIO_free] after the validity
    block and again before [X509_free]. *)
Definition tls_conn_get_peer_certificate (uninit : list byte) (u : userdata)
    : cert_outcome :=
  match u with
  | Closed _ _ => Cert_returned [OValue LNil] []
  | Open tc =>
      match SSL_get_peer_certificate (ssl tc) with
      | None => Cert_returned [OValue LNil] []
      | Some peer_cert =>
          let st := mk_cert_state [] [] [Call_BIO_new_scratch] true in
          let st := cert_name_block (X509_get_subject_name peer_cert)
                      "subject" st in
          let st := cert_name_block (X509_get_issuer_name peer_cert)
                      "issuer" st in
          match cert_san_block peer_cert st with
          | Aborted => Cert_aborted
          | Returned st =>
              let st := cert_rsa_block peer_cert st in
              let st := cert_validity_block peer_cert st in
              match scratch_free st with
              | None => Cert_double_free (table st) (cert_log st)
              | Some st =>
                  let st := cert_fingerprint_block peer_cert uninit st in
                  let st := cert_eku_block peer_cert st in
                  match scratch_free st with
                  | None => Cert_double_free (table st) (cert_log st)
                  | Some st =>
                      let st := log_cert st Call_X509_free in
                      Cert_returned [OTable (table st)] (cert_log st)
                  end
              end
          end
      end
  end.

End Cert.


Arguments userdata {lib}.

(** ** More concrete inputs *)

(** The toy library's certificates and ciphers. *)
Definition toy_cert_api : OpenSSL_cert (lib := toy_openssl) := {|
  X509_NAME := list byte;
  X509_EXTENSION := list byte;
  EVP_PKEY := bool;
  RSA := unit;
  BIGNUM := list byte;
  ASN1_TIME := list byte;
  ASN1_OBJECT := list byte;
  SSL_CIPHER := unit;
  ASN1_STRFLGS_ESC_CTRL := 2;
  ASN1_STRFLGS_ESC_MSB := 4;
  XN_FLAG_SEP_MULTILINE := 262144;
  XN_FLAG_FN_SN := 0;
  NID_subject_alt_name := 85;
  NID_ext_key_usage := 126;
  X509_get_subject_name := fun _ : @X509 toy_openssl =>
    list_byte_of_string "CN=peer";
  X509_get_issuer_name := fun _ => list_byte_of_string "CN=ca";
  X509_NAME_print_ex := fun n _ _ => (Z.of_nat (length n), n);
  X509_get_ext_by_NID := fun _ nid _ => if nid =? 85 then 0 else -1;
  X509_get_ext := fun _ i =>
    if i =? 0 then Some (list_byte_of_string "DNS:peer") else None;
  X509V3_EXT_print := fun e _ _ =>
    match e with Some b => (1, b) | None => (0, []) end;
  X509_get_pubkey := fun _ => Some true;
  EVP_PKEY_get1_RSA := fun k => if k then Some tt else None;
  RSA_n := fun _ => list_byte_of_string "C0FFEE";
  RSA_e := fun _ => list_byte_of_string "10001";
  BN_print := fun b => (1, b);
  X509_get_notBefore := fun _ => list_byte_of_string "Jan  1 00:00:00 2012 GMT";
  X509_get_notAfter := fun _ => list_byte_of_string "Jan  1 00:00:00 2013 GMT";
  ASN1_TIME_print := fun t => (1, t);
  X509_get_ext_d2i := fun _ nid =>
    if nid =? 126
    then Some [list_byte_of_string "1.3.6.1.5.5.7.3.1";
               list_byte_of_string "1.3.6.1.5.5.7.3.2"]
    else None;
  OBJ_obj2txt := fun n o _ =>
    (Z.of_nat (length o), firstn (Z.to_nat n - 1) o);
  SSL_get_current_cipher := fun s : toy_ssl =>
    if toy_finished s then Some tt else None;
  SSL_CIPHER_get_name := fun _ => list_byte_of_string "AES256-SHA";
  SSL_CIPHER_get_version := fun _ => list_byte_of_string "TLSv1/SSLv3"
|}.

(** The toy library with a write to a memory buffer that fails for lack
    of memory: status -1, no retry flag. *)
Definition faulty_openssl : OpenSSL := {|
  SSL := toy_ssl;
  BIO := mem_bio;
  SSL_CTX := toy_ctx;
  X509 := toy_x509;
  X509_STORE_CTX := unit;
  SSL_ERROR_NONE := 0;
  SSL_ERROR_SSL := 1;
  SSL_ERROR_WANT_READ := 2;
  SSL_ERROR_WANT_WRITE := 3;
  SSL_ERROR_SYSCALL := 5;
  SSL_VERIFY_NONE := 0;
  SSL_VERIFY_PEER := 1;
  SSL_VERIFY_FAIL_IF_NO_PEER_CERT := 2;
  SSL_MODE_RELEASE_BUFFERS := 16;
  X509_V_OK := 0;
  X509_V_ERR := openssl_X509_V_ERR;
  EVP_MAX_MD_SIZE := 64;
  BIO_new_mem := mem_new;
  SSL_new := @SSL_new toy_openssl;
  SSL_get_mode := @SSL_get_mode toy_openssl;
  SSL_set_mode := @SSL_set_mode toy_openssl;
  SSL_set_verify := @SSL_set_verify toy_openssl;
  SSL_set_accept_state := @SSL_set_accept_state toy_openssl;
  SSL_set_connect_state := @SSL_set_connect_state toy_openssl;
  SSL_is_init_finished := toy_finished;
  SSL_accept := toy_handshake;
  SSL_connect := toy_handshake;
  SSL_read := toy_read;
  SSL_write := toy_write;
  SSL_shutdown := @SSL_shutdown toy_openssl;
  SSL_get_error := fun s _ => toy_err s;
  BIO_write := fun b _ _ => (-1, mk_mem_bio (mem_data b) false);
  BIO_read := mem_read;
  BIO_pending := mem_pending;
  BIO_should_retry := mem_should_read;
  BIO_should_write := fun _ => false;
  BIO_should_read := mem_should_read;
  SSL_get_peer_certificate := @SSL_get_peer_certificate toy_openssl;
  SSL_get_verify_result := @SSL_get_verify_result toy_openssl;
  X509_verify_cert_error_string := fun _ => "error number"%string;
  X509_digest_sha1 := fun c => Some (x509_sha1 c)
|}.

(** A fresh client of the faulty library. *)
Definition faulty_client : tls_conn_t (lib := faulty_openssl) :=
  fst (newCONN (lib := faulty_openssl) (mk_toy_ctx None 0)
         (LBoolean false) LNil LNil).

(** The toy library with a client certificate callback that asks to be
    called again: [SSL_get_error] classifies the negative status of the
    handshake step as [SSL_ERROR_WANT_X509_LOOKUP], which is 4. *)
Definition lookup_openssl : OpenSSL := {|
  SSL := toy_ssl;
  BIO := mem_bio;
  SSL_CTX := toy_ctx;
  X509 := toy_x509;
  X509_STORE_CTX := unit;
  SSL_ERROR_NONE := 0;
  SSL_ERROR_SSL := 1;
  SSL_ERROR_WANT_READ := 2;
  SSL_ERROR_WANT_WRITE := 3;
  SSL_ERROR_SYSCALL := 5;
  SSL_VERIFY_NONE := 0;
  SSL_VERIFY_PEER := 1;
  SSL_VERIFY_FAIL_IF_NO_PEER_CERT := 2;
  SSL_MODE_RELEASE_BUFFERS := 16;
  X509_V_OK := 0;
  X509_V_ERR := openssl_X509_V_ERR;
  EVP_MAX_MD_SIZE := 64;
  BIO_new_mem := mem_new;
  SSL_new := @SSL_new toy_openssl;
  SSL_get_mode := @SSL_get_mode toy_openssl;
  SSL_set_mode := @SSL_set_mode toy_openssl;
  SSL_set_verify := @SSL_set_verify toy_openssl;
  SSL_set_accept_state := @SSL_set_accept_state toy_openssl;
  SSL_set_connect_state := @SSL_set_connect_state toy_openssl;
  SSL_is_init_finished := toy_finished;
  SSL_accept := toy_handshake;
  SSL_connect := toy_handshake;
  SSL_read := toy_read;
  SSL_write := toy_write;
  SSL_shutdown := @SSL_shutdown toy_openssl;
  SSL_get_error := fun _ _ => 4;
  BIO_write := mem_write;
  BIO_read := mem_read;
  BIO_pending := mem_pending;
  BIO_should_retry := mem_should_read;
  BIO_should_write := fun _ => false;
  BIO_should_read := mem_should_read;
  SSL_get_peer_certificate := @SSL_get_peer_certificate toy_openssl;
  SSL_get_verify_result := @SSL_get_verify_result toy_openssl;
  X509_verify_cert_error_string := fun _ => "error number"%string;
  X509_digest_sha1 := fun c => Some (x509_sha1 c)
|}.

(** A fresh client of that library. *)
Definition lookup_client : tls_conn_t (lib := lookup_openssl) :=
  fst (newCONN (lib := lookup_openssl) (mk_toy_ctx None 0)
         (LBoolean false) LNil LNil).

(** ** More predicates used by the statements *)

Section MoreStatements.
Context {lib : OpenSSL}.

(** The engine call is a handshake step. *)
Definition is_handshake_call (c : engine_call) : bool :=
  match c with
  | Call_SSL_accept | Call_SSL_connect => true
  | _ => false
  end.

(** The engine call encrypts or decrypts. *)
Definition is_record_call (c : engine_call) : bool :=
  match c with
  | Call_SSL_read _ | Call_SSL_write _ _ => true
  | _ => false
  end.

(** The engine call moves bytes in or out of a buffer and nothing else. *)
Definition is_buffer_call (c : engine_call) : Prop :=
  match c with
  | Call_BIO_write_bio_read _ _ | Call_BIO_read_bio_write _ => True
  | _ => False
  end.

(** The handshake step fits the role: [SSL_accept] for a server only,
    [SSL_connect] for a client only. *)
Definition fits_role (server : bool) (c : engine_call) : Prop :=
  match c with
  | Call_SSL_accept => server = true
  | Call_SSL_connect => server = false
  | _ => True
  end.

(** The role is as it was and every handshake step fits it. *)
Definition keeps_role (tc tc' : tls_conn_t) (l : list engine_call) : Prop :=
  is_server tc' = is_server tc /\ Forall (fits_role (is_server tc)) l.

(** The methods that only look. *)
Definition is_query (m : method) : Prop :=
  match m with
  | getError | encPending | clearPending | isInitFinished | verifyError => True
  | _ => False
  end.

(** [encIn] and [encOut]. *)
Definition is_buffer_method (m : method) : Prop :=
  match m with
  | encIn _ | encOut => True
  | _ => False
  end.

(** The string a drain returned. *)
Definition drained (r : list lua_value) : list byte :=
  match r with
  | [_; LString s] => s
  | _ => []
  end.

(** The contract of a memory buffer, for a reading [content] of the bytes
    it holds.  [BIO_pending] counts them. *)
Definition fifo_pending (content : BIO -> list byte) : Prop :=
  forall b, BIO_pending b = Z.of_nat (length (content b)).

(** A read of 4096 takes the bytes from the front, as many as there are up
    to 4096, and answers their number; on an empty buffer it answers a
    negative status with a retry flag. *)
Definition fifo_read (content : BIO -> list byte) : Prop :=
  forall b,
    let res := BIO_read b 4096 in
    content (snd res) = skipn 4096 (content b) /\
    match content b with
    | [] => bio_transient (snd res) (fst (fst res))
    | _ => fst (fst res) = Z.of_nat (length (firstn 4096 (content b))) /\
           snd (fst res) = firstn 4096 (content b)
    end.

(** A write of a whole string of less than 2^31 bytes puts it at the back
    and answers its length. *)
Definition fifo_write (content : BIO -> list byte) : Prop :=
  forall b data,
    Z.of_nat (length data) < 2 ^ 31 ->
    let res := BIO_write b data (Z.of_nat (length data)) in
    fst res = Z.of_nat (length data) /\
    content (snd res) = content b ++ data.

End MoreStatements.

(** The reading of a fingerprint back into digest bytes. *)
Definition unhex (c : byte) : option N :=
  let n := Byte.to_N c in
  if ((48 <=? n) && (n <=? 57))%N then Some (n - 48)%N
  else if ((65 <=? n) && (n <=? 70))%N then Some (n - 55)%N
  else None.

Fixpoint fingerprint_decode (s : list byte) : option (list byte) :=
  match s with
  | [] => Some []
  | h :: l :: rest =>
      match unhex h, unhex l with
      | Some a, Some b =>
          match Byte.of_N (16 * a + b)%N with
          | Some x =>
              match rest with
              | [] => Some [x]
              | c :: rest' =>
                  if Byte.eqb c x3a then
                    match fingerprint_decode rest' with
                    | Some md => Some (x :: md)
                    | None => None
                    end
                  else None
              end
          | None => None
          end
      | _, _ => None
      end
  | _ => None
  end.

(** * Theorems *)

Section Laws.
Context {lib : OpenSSL}.
Variable NDEBUG : bool.

Section Keeps.
Variable R : tls_conn_t -> tls_conn_t -> list engine_call -> Prop.
Hypothesis R_refl : forall tc, R tc tc [].
Hypothesis R_trans :
  forall a b c l1 l2, R a b l1 -> R b c l2 -> R a c (l1 ++ l2).

Lemma keeps_ret {A} (a : A) : keeps R (ret a).
Proof. intros tc a' tc' l H. inversion H; subst. apply R_refl. Qed.

Lemma keeps_gets {A} (f : tls_conn_t -> A) : keeps R (gets f).
Proof. intros tc a' tc' l H. inversion H; subst. apply R_refl. Qed.

Lemma keeps_lift {A} (o : outcome A) : keeps R (lift o).
Proof.
  intros tc a' tc' l H. unfold lift in H.
  destruct o; inversion H; subst. apply R_refl.
Qed.

(** The classifier's calls are those of [error_dump] or none. *)
Lemma keeps_ssl_error s rv :
  (forall tc, R tc tc error_dump) ->
  keeps R (lift_calls (tls_handle_ssl_error_x NDEBUG s rv)).
Proof.
  intros Hdump tc a' tc' l H. unfold lift_calls, tls_handle_ssl_error_x in H.
  destruct (0 <=? rv); [inversion H; subst; apply R_refl |].
  destruct (_ =? _); [inversion H; subst; apply R_refl |].
  destruct (_ =? _); [inversion H; subst; apply R_refl |].
  destruct (_ =? _); [inversion H; subst; apply R_refl |].
  destruct (assert _ _); inversion H; subst. apply Hdump.
Qed.

Lemma keeps_bind {A B} (m : M A) (k : A -> M B) :
  keeps R m -> (forall a, keeps R (k a)) -> keeps R (bind m k).
Proof.
  intros Hm Hk tc b tc' l H. unfold bind in H.
  destruct (m tc) as [[[a tc1] l1]|] eqn:E1; [|discriminate].
  destruct (k a tc1) as [[[b' tc2] l2]|] eqn:E2; [|discriminate].
  inversion H; subst.
  eapply R_trans; [eapply Hm | eapply Hk]; eauto.
Qed.

Lemma keeps_if {A} (b : bool) (m1 m2 : M A) :
  keeps R m1 -> keeps R m2 -> keeps R (if b then m1 else m2).
Proof. destruct b; auto. Qed.

End Keeps.


(** *** What leaves the error field alone *)

Lemma same_error_refl tc : same_error tc tc [].
Proof. reflexivity. Qed.

Lemma same_error_trans a b c l1 l2 :
  same_error a b l1 -> same_error b c l2 -> same_error a c (l1 ++ l2).
Proof. unfold same_error. congruence. Qed.

Lemma same_error_ssl_call {A} c (f : SSL -> BIO -> BIO -> A * (SSL * BIO * BIO)) :
  keeps same_error (ssl_call c f).
Proof.
  intros tc a tc' l H. unfold ssl_call in H.
  destruct (f _ _ _) as [a' [[s r] w]]. inversion H; subst. reflexivity.
Qed.

Lemma same_error_bio_read_write data len :
  keeps same_error (bio_read_write data len).
Proof.
  intros tc a tc' l H. unfold bio_read_write in H.
  destruct (BIO_write _ _ _) as [rv r]. inversion H; subst. reflexivity.
Qed.

Lemma same_error_bio_write_read len :
  keeps same_error (bio_write_read len).
Proof.
  intros tc a tc' l H. unfold bio_write_read in H.
  destruct (BIO_read _ _) as [res w]. inversion H; subst. reflexivity.
Qed.

Ltac keeps_same_error :=
  repeat first
    [ apply (keeps_bind same_error same_error_trans)
    | apply (keeps_ret same_error same_error_refl)
    | apply (keeps_gets same_error same_error_refl)
    | apply (keeps_lift same_error same_error_refl)
    | apply (keeps_ssl_error same_error same_error_refl);
      intros ?; reflexivity
    | apply same_error_ssl_call
    | apply same_error_bio_read_write
    | apply same_error_bio_write_read
    | apply keeps_if
    | match goal with |- forall _ : _ * _, _ => intros [? ?] end
    | match goal with |- forall _, _ => intro end ].

Lemma same_error_handshake_call : keeps same_error handshake_call.
Proof. unfold handshake_call. keeps_same_error. Qed.

Lemma same_error_tls_handle_ssl_error rv :
  keeps same_error (tls_handle_ssl_error NDEBUG rv).
Proof. unfold tls_handle_ssl_error. keeps_same_error. Qed.

Lemma same_error_start : keeps same_error (tls_conn_start NDEBUG).
Proof. unfold tls_conn_start. keeps_same_error. Qed.

Ltac keeps_early :=
  match goal with
  | |- keeps _ (match ?e with _ => _ end) => destruct e
  end.

Lemma same_error_clear_in data : keeps same_error (tls_conn_clear_in NDEBUG data).
Proof. unfold tls_conn_clear_in. keeps_same_error. keeps_early; keeps_same_error. Qed.

Lemma same_error_clear_out : keeps same_error (tls_conn_clear_out NDEBUG).
Proof. unfold tls_conn_clear_out. keeps_same_error. keeps_early; keeps_same_error. Qed.

Lemma same_error_shutdown : keeps same_error tls_conn_shutdown.
Proof. unfold tls_conn_shutdown. keeps_same_error. Qed.

(** *** Equations of the building blocks *)

Lemma handshake_call_eq (tc : tls_conn_t) :
  handshake_call tc =
  Returned (fst (handshake_step tc), with_engine tc (snd (handshake_step tc)),
            [handshake_step_call tc]).
Proof.
  unfold handshake_call, handshake_step, handshake_step_call, bind, gets,
    ssl_call, with_engine.
  cbv beta. destruct (is_server tc) eqn:Hrole.
  - destruct (SSL_accept _ _ _) as [rv [[s r] w]]. cbn. rewrite Hrole. reflexivity.
  - destruct (SSL_connect _ _ _) as [rv [[s r] w]]. cbn. rewrite Hrole. reflexivity.
Qed.

Lemma ssl_error_nonneg s rv :
  0 <= rv -> tls_handle_ssl_error_x NDEBUG s rv = Returned (rv, []).
Proof.
  intros H. unfold tls_handle_ssl_error_x.
  destruct (Z.leb_spec 0 rv); [reflexivity | lia].
Qed.

Lemma ssl_error_transient s rv :
  ssl_transient s rv -> tls_handle_ssl_error_x NDEBUG s rv = Returned (0, []).
Proof.
  intros [Hneg Herr]. unfold tls_handle_ssl_error_x.
  destruct (Z.leb_spec 0 rv); [lia |].
  destruct (Z.eqb_spec (SSL_get_error s rv) SSL_ERROR_NONE); [reflexivity |].
  destruct (Z.eqb_spec (SSL_get_error s rv) SSL_ERROR_WANT_WRITE); [reflexivity |].
  destruct (Z.eqb_spec (SSL_get_error s rv) SSL_ERROR_WANT_READ); [reflexivity |].
  destruct Herr; contradiction.
Qed.


(** A status that is not fatal passes without a call. *)
Lemma ssl_error_quiet s rv :
  ~ ssl_fatal s rv ->
  exists r, tls_handle_ssl_error_x NDEBUG s rv = Returned (r, []).
Proof.
  unfold ssl_fatal, tls_handle_ssl_error_x. intros H.
  destruct (Z.leb_spec 0 rv); [eauto |].
  destruct (Z.eqb_spec (SSL_get_error s rv) SSL_ERROR_NONE); [eauto |].
  destruct (Z.eqb_spec (SSL_get_error s rv) SSL_ERROR_WANT_WRITE); [eauto |].
  destruct (Z.eqb_spec (SSL_get_error s rv) SSL_ERROR_WANT_READ); [eauto |].
  exfalso. apply H. repeat split; assumption.
Qed.

(** A fatal status that passes the assertion is returned as it is, after
    the error queue was printed. *)
Lemma ssl_error_fatal s rv :
  ssl_fatal s rv -> ssl_assert_passes NDEBUG s rv ->
  tls_handle_ssl_error_x NDEBUG s rv = Returned (rv, error_dump).
Proof.
  unfold ssl_fatal, ssl_assert_passes, tls_handle_ssl_error_x, assert.
  intros (Hneg & H0 & Hr & Hw) H.
  destruct (Z.leb_spec 0 rv); [lia |].
  destruct (Z.eqb_spec (SSL_get_error s rv) SSL_ERROR_NONE); [contradiction |].
  destruct (Z.eqb_spec (SSL_get_error s rv) SSL_ERROR_WANT_WRITE); [contradiction |].
  destruct (Z.eqb_spec (SSL_get_error s rv) SSL_ERROR_WANT_READ); [contradiction |].
  destruct NDEBUG; [reflexivity |]. simpl.
  destruct (Z.eqb_spec (SSL_get_error s rv) SSL_ERROR_SSL); [reflexivity |].
  destruct (Z.eqb_spec (SSL_get_error s rv) SSL_ERROR_SYSCALL); [reflexivity |].
  exfalso. intuition (try discriminate; try lia).
Qed.

(** A status that fails the assertion aborts. *)
Lemma ssl_error_fails s rv :
  ssl_assert_fails NDEBUG s rv ->
  tls_handle_ssl_error_x NDEBUG s rv = Aborted.
Proof.
  unfold ssl_assert_fails, tls_handle_ssl_error_x, assert.
  intros (HN & Hneg & H0 & Hw & Hr & Hs & Hy). rewrite HN.
  destruct (Z.leb_spec 0 rv); [lia |].
  destruct (Z.eqb_spec (SSL_get_error s rv) SSL_ERROR_NONE); [contradiction |].
  destruct (Z.eqb_spec (SSL_get_error s rv) SSL_ERROR_WANT_WRITE); [contradiction |].
  destruct (Z.eqb_spec (SSL_get_error s rv) SSL_ERROR_WANT_READ); [contradiction |].
  destruct (Z.eqb_spec (SSL_get_error s rv) SSL_ERROR_SSL); [contradiction |].
  destruct (Z.eqb_spec (SSL_get_error s rv) SSL_ERROR_SYSCALL); [contradiction |].
  reflexivity.
Qed.

(** The three cases of a status, and no other. *)
Lemma ssl_status_cases s rv :
  ~ ssl_fatal s rv \/
  (ssl_fatal s rv /\ ssl_assert_passes NDEBUG s rv) \/
  ssl_assert_fails NDEBUG s rv.
Proof.
  unfold ssl_fatal, ssl_assert_passes, ssl_assert_fails.
  destruct (Z_lt_dec rv 0) as [Hneg |]; [| left; tauto].
  destruct (Z.eq_dec (SSL_get_error s rv) SSL_ERROR_NONE); [left; tauto |].
  destruct (Z.eq_dec (SSL_get_error s rv) SSL_ERROR_WANT_WRITE); [left; tauto |].
  destruct (Z.eq_dec (SSL_get_error s rv) SSL_ERROR_WANT_READ); [left; tauto |].
  destruct NDEBUG; [right; left; tauto |].
  destruct (Z.eq_dec (SSL_get_error s rv) SSL_ERROR_SSL); [right; left; tauto |].
  destruct (Z.eq_dec (SSL_get_error s rv) SSL_ERROR_SYSCALL); [right; left; tauto |].
  right; right. tauto.
Qed.

Lemma tls_handle_ssl_error_eq rv tc :
  tls_handle_ssl_error NDEBUG rv tc =
  match tls_handle_ssl_error_x NDEBUG (ssl tc) rv with
  | Returned (r, l) => Returned (r, tc, l)
  | Aborted => Aborted
  end.
Proof.
  unfold tls_handle_ssl_error, bind, gets, lift_calls.
  destruct (tls_handle_ssl_error_x NDEBUG (ssl tc) rv) as [[r l]|]; reflexivity.
Qed.

Lemma ssl_of_with_engine tc e : ssl (with_engine tc e) = fst (fst e).
Proof. destruct e as [[s r] w]. reflexivity. Qed.

Lemma error_of_with_engine tc e : error (with_engine tc e) = error tc.
Proof. destruct e as [[s r] w]. reflexivity. Qed.

Lemma start_finished tc :
  SSL_is_init_finished (ssl tc) = true ->
  tls_conn_start NDEBUG tc = Returned ([LNumber 0], tc, []).
Proof.
  intros H. unfold tls_conn_start, bind, gets. rewrite H. reflexivity.
Qed.

Lemma start_unfinished tc :
  SSL_is_init_finished (ssl tc) = false ->
  tls_conn_start NDEBUG tc =
  match tls_handle_ssl_error_x NDEBUG (fst (fst (snd (handshake_step tc))))
          (fst (handshake_step tc)) with
  | Returned (_, l) =>
      Returned ([LNumber (fst (handshake_step tc))],
                with_engine tc (snd (handshake_step tc)),
                handshake_step_call tc :: l)
  | Aborted => Aborted
  end.
Proof.
  intros H. unfold tls_conn_start.
  unfold bind at 1. unfold gets at 1. rewrite H. cbn [negb].
  unfold bind at 1. rewrite handshake_call_eq.
  unfold bind. rewrite tls_handle_ssl_error_eq, ssl_of_with_engine.
  destruct (tls_handle_ssl_error_x _ _ _) as [[r l]|]; [| reflexivity].
  unfold ret. cbn [app]. rewrite app_nil_r. reflexivity.
Qed.



Lemma ssl_write_part data tc :
  (bind (ssl_call (Call_SSL_write data (int_of_size_t (Z.of_nat (length data))))
           (fun s r w => SSL_write s r w data
                           (int_of_size_t (Z.of_nat (length data)))))
        (fun bytes_written =>
           bind (tls_handle_ssl_error NDEBUG bytes_written)
                (fun _ => ret [LNumber bytes_written]))) tc
  = record_write NDEBUG data tc [].
Proof.
  unfold record_write, bind at 1, ssl_call.
  destruct (SSL_write _ _ _ _ _) as [bw [[s r] w]].
  unfold bind. rewrite tls_handle_ssl_error_eq. cbn.
  destruct (tls_handle_ssl_error_x _ _ _) as [[r0 l0]|]; [| reflexivity].
  cbn. rewrite app_nil_r. reflexivity.
Qed.

Lemma ssl_read_part tc :
  (bind (ssl_call (Call_SSL_read 4096) (fun s r w => SSL_read s r w 4096))
        (fun '(bytes_read, pool) =>
           bind (tls_handle_ssl_error NDEBUG bytes_read)
                (fun _ => ret [LNumber bytes_read; push_pool pool bytes_read]))) tc
  = record_read NDEBUG tc [].
Proof.
  unfold record_read, bind at 1, ssl_call.
  destruct (SSL_read _ _ _ _) as [[br pool] [[s r] w]].
  unfold bind. rewrite tls_handle_ssl_error_eq. cbn.
  destruct (tls_handle_ssl_error_x _ _ _) as [[r0 l0]|]; [| reflexivity].
  cbn. rewrite app_nil_r. reflexivity.
Qed.

Lemma record_write_pre data tc pre :
  record_write NDEBUG data tc pre =
  match record_write NDEBUG data tc [] with
  | Returned (r, tc', l) => Returned (r, tc', pre ++ l)
  | Aborted => Aborted
  end.
Proof.
  unfold record_write. destruct (SSL_write _ _ _ _ _) as [bw e].
  destruct (tls_handle_ssl_error_x _ _ _) as [[r0 l0]|]; reflexivity.
Qed.

Lemma record_read_pre tc pre :
  record_read NDEBUG tc pre =
  match record_read NDEBUG tc [] with
  | Returned (r, tc', l) => Returned (r, tc', pre ++ l)
  | Aborted => Aborted
  end.
Proof.
  unfold record_read. destruct (SSL_read _ _ _ _) as [[br pool] e].
  destruct (tls_handle_ssl_error_x _ _ _) as [[r0 l0]|]; reflexivity.
Qed.

Lemma clear_in_finished data tc :
  SSL_is_init_finished (ssl tc) = true ->
  tls_conn_clear_in NDEBUG data tc = record_write NDEBUG data tc [].
Proof.
  intros H. unfold tls_conn_clear_in.
  unfold bind at 1. unfold gets at 1. rewrite H. cbn [negb].
  unfold bind at 1. unfold ret at 1.
  rewrite ssl_write_part.
  destruct (record_write _ _ _ _) as [[[r tc'] l]|]; reflexivity.
Qed.

Lemma clear_out_finished tc :
  SSL_is_init_finished (ssl tc) = true ->
  tls_conn_clear_out NDEBUG tc = record_read NDEBUG tc [].
Proof.
  intros H. unfold tls_conn_clear_out.
  unfold bind at 1. unfold gets at 1. rewrite H. cbn [negb].
  unfold bind at 1. unfold ret at 1.
  rewrite ssl_read_part.
  destruct (record_read _ _ _) as [[[r tc'] l]|]; reflexivity.
Qed.

Lemma clear_in_unfinished data tc :
  SSL_is_init_finished (ssl tc) = false ->
  tls_conn_clear_in NDEBUG data tc =
  match tls_handle_ssl_error_x NDEBUG (fst (fst (snd (handshake_step tc))))
          (fst (handshake_step tc)) with
  | Aborted => Aborted
  | Returned (_, l0) =>
      if fst (handshake_step tc) <? 0 then
        Returned ([LNumber (fst (handshake_step tc))],
                  with_engine tc (snd (handshake_step tc)),
                  handshake_step_call tc :: l0)
      else record_write NDEBUG data (with_engine tc (snd (handshake_step tc)))
                        (handshake_step_call tc :: l0)
  end.
Proof.
  intros H. unfold tls_conn_clear_in.
  unfold bind at 1. unfold gets at 1. rewrite H. cbn [negb].
  unfold bind at 1. unfold bind at 1. rewrite handshake_call_eq.
  unfold bind at 1. rewrite tls_handle_ssl_error_eq, ssl_of_with_engine.
  destruct (tls_handle_ssl_error_x _ _ _) as [[r0 l0]|]; [|reflexivity].
  unfold ret at 1.
  destruct (fst (handshake_step tc) <? 0);
    [unfold bind, ret; cbn [app]; rewrite ?app_nil_r; reflexivity |].
  rewrite ssl_write_part, (record_write_pre _ _ (_ :: _)).
  destruct (record_write _ _ _ _) as [[[r tc'] l]|]; [| reflexivity].
  cbn [app]. rewrite !app_nil_r. reflexivity.
Qed.

Lemma clear_out_unfinished tc :
  SSL_is_init_finished (ssl tc) = false ->
  tls_conn_clear_out NDEBUG tc =
  match tls_handle_ssl_error_x NDEBUG (fst (fst (snd (handshake_step tc))))
          (fst (handshake_step tc)) with
  | Aborted => Aborted
  | Returned (_, l0) =>
      if fst (handshake_step tc) <? 0 then
        Returned ([LNumber (fst (handshake_step tc))],
                  with_engine tc (snd (handshake_step tc)),
                  handshake_step_call tc :: l0)
      else record_read NDEBUG (with_engine tc (snd (handshake_step tc)))
                       (handshake_step_call tc :: l0)
  end.
Proof.
  intros H. unfold tls_conn_clear_out.
  unfold bind at 1. unfold gets at 1. rewrite H. cbn [negb].
  unfold bind at 1. unfold bind at 1. rewrite handshake_call_eq.
  unfold bind at 1. rewrite tls_handle_ssl_error_eq, ssl_of_with_engine.
  destruct (tls_handle_ssl_error_x _ _ _) as [[r0 l0]|]; [|reflexivity].
  unfold ret at 1.
  destruct (fst (handshake_step tc) <? 0);
    [unfold bind, ret; cbn [app]; rewrite ?app_nil_r; reflexivity |].
  rewrite ssl_read_part, (record_read_pre _ (_ :: _)).
  destruct (record_read _ _ _) as [[[r tc'] l]|]; [| reflexivity].
  cbn [app]. rewrite !app_nil_r. reflexivity.
Qed.

Lemma bio_error_nonneg bio rv tc :
  0 <= rv -> tls_handle_bio_error_x NDEBUG bio rv tc = Returned (rv, tc, []).
Proof.
  intros H. unfold tls_handle_bio_error_x.
  destruct (Z.leb_spec 0 rv); [reflexivity | lia].
Qed.

Lemma bio_error_transient bio rv tc :
  bio_transient bio rv ->
  tls_handle_bio_error_x NDEBUG bio rv tc = Returned (0, tc, []).
Proof.
  intros [Hneg Hretry]. unfold tls_handle_bio_error_x.
  destruct (Z.leb_spec 0 rv); [lia |].
  destruct (BIO_should_write bio); [reflexivity |].
  destruct (BIO_should_read bio); [reflexivity |].
  destruct Hretry; discriminate.
Qed.

Lemma bio_error_fatal bio rv tc :
  bio_fatal bio rv ->
  tls_handle_bio_error_x NDEBUG bio rv tc =
  match assert NDEBUG ((rv =? SSL_ERROR_SSL) || (rv =? SSL_ERROR_SYSCALL)) with
  | Returned _ => Returned (rv, with_error tc rv, [])
  | Aborted => Aborted
  end.
Proof.
  intros (Hneg & Hw & Hr). unfold tls_handle_bio_error_x.
  destruct (Z.leb_spec 0 rv); [lia |]. rewrite Hw, Hr.
  unfold bind, lift, set_error, ret, with_error.
  destruct (assert _ _); reflexivity.
Qed.

(** A buffer status is a success, a retry or fatal. *)
Lemma bio_status_cases bio rv :
  0 <= rv \/ bio_transient bio rv \/ bio_fatal bio rv.
Proof.
  unfold bio_transient, bio_fatal.
  destruct (Z.le_gt_cases 0 rv); [auto |].
  destruct (BIO_should_write bio), (BIO_should_read bio);
    intuition (auto with zarith).
Qed.

(** In every case the classifier leaves all fields but [error] alone, and
    sets [error] only on a fatal status. *)
Lemma bio_error_cases bio rv tc :
  tls_handle_bio_error_x NDEBUG bio rv tc = Aborted \/
  (exists r, tls_handle_bio_error_x NDEBUG bio rv tc = Returned (r, tc, [])
             /\ ~ bio_fatal bio rv) \/
  (tls_handle_bio_error_x NDEBUG bio rv tc = Returned (rv, with_error tc rv, [])
   /\ bio_fatal bio rv).
Proof.
  destruct (bio_status_cases bio rv) as [H | [H | H]].
  - right; left. exists rv. split; [apply bio_error_nonneg; exact H |].
    intros [Hn _]. lia.
  - right; left. exists 0. split; [apply bio_error_transient; exact H |].
    destruct H as [_ Hretry]. intros (_ & Hw & Hr).
    destruct Hretry; congruence.
  - rewrite (bio_error_fatal _ _ _ H).
    destruct (assert _ _); [right; right; auto | left; reflexivity].
Qed.

Lemma enc_in_eq data tc :
  tls_conn_enc_in NDEBUG data tc =
  let res := BIO_write (bio_read tc) data
               (int_of_size_t (Z.of_nat (length data))) in
  match tls_handle_bio_error_x NDEBUG (snd res) (fst res)
          (with_bio_read tc (snd res)) with
  | Returned (_, tc', _) =>
      Returned ([LNumber (fst res)], tc',
                [Call_BIO_write_bio_read data
                   (int_of_size_t (Z.of_nat (length data)))])
  | Aborted => Aborted
  end.
Proof.
  unfold tls_conn_enc_in. unfold bind at 1. unfold bio_read_write.
  destruct (BIO_write _ _ _) as [rv b]. cbn [fst snd].
  unfold bind at 1. unfold gets at 1. cbn [bio_read].
  unfold bind, ret, with_bio_read.
  destruct (bio_error_cases b rv
              (mk_tls_conn b (bio_write tc) (ssl tc) (is_server tc) (error tc)))
    as [-> | [(r & -> & _) | [-> _]]]; reflexivity.
Qed.

Lemma enc_out_eq tc :
  tls_conn_enc_out NDEBUG tc =
  let res := BIO_read (bio_write tc) 4096 in
  match tls_handle_bio_error_x NDEBUG (snd res) (fst (fst res))
          (with_bio_write tc (snd res)) with
  | Returned (_, tc', _) =>
      Returned ([LNumber (fst (fst res));
                 push_pool (snd (fst res)) (fst (fst res))], tc',
                [Call_BIO_read_bio_write 4096])
  | Aborted => Aborted
  end.
Proof.
  unfold tls_conn_enc_out. unfold bind at 1. unfold bio_write_read.
  destruct (BIO_read _ _) as [[rv pool] b]. cbn [fst snd].
  unfold bind at 1. unfold gets at 1. cbn [bio_write].
  unfold bind, ret, with_bio_write.
  destruct (bio_error_cases b rv
              (mk_tls_conn (bio_read tc) b (ssl tc) (is_server tc) (error tc)))
    as [-> | [(r & -> & _) | [-> _]]]; reflexivity.
Qed.

(** *** The claims about the classifiers and the handshake block *)

(** C2. A status the engine marks as a retry ("want read", "want write")
    is mapped by either classifier to 0, and the method that met it
    returns with the error field as it was: [start], [clearIn] and
    [clearOut] on a transient handshake step, [clearIn] and [clearOut] on
    a transient record status, [encIn] and [encOut] on a transient buffer
    status. *)
Theorem C2_transient_status_records_nothing :
  (forall s rv, ssl_transient s rv ->
     tls_handle_ssl_error_x NDEBUG s rv = Returned (0, [])) /\
  (forall bio rv tc, bio_transient bio rv ->
     tls_handle_bio_error_x NDEBUG bio rv tc = Returned (0, tc, [])) /\
  (forall tc m rv e,
     SSL_is_init_finished (ssl tc) = false ->
     handshake_step tc = (rv, e) ->
     ssl_transient (fst (fst e)) rv ->
     m = start \/ (exists data, m = clearIn data) \/ m = clearOut ->
     tls_conn_lib NDEBUG m tc
     = Returned ([LNumber rv], with_engine tc e, [handshake_step_call tc]) /\
     error (with_engine tc e) = error tc) /\
  (forall tc data rv e,
     SSL_is_init_finished (ssl tc) = true ->
     SSL_write (ssl tc) (bio_read tc) (bio_write tc) data
       (int_of_size_t (Z.of_nat (length data))) = (rv, e) ->
     ssl_transient (fst (fst e)) rv ->
     tls_conn_lib NDEBUG (clearIn data) tc
     = Returned ([LNumber rv], with_engine tc e,
                 [Call_SSL_write data (int_of_size_t (Z.of_nat (length data)))]) /\
     error (with_engine tc e) = error tc) /\
  (forall tc rv pool e,
     SSL_is_init_finished (ssl tc) = true ->
     SSL_read (ssl tc) (bio_read tc) (bio_write tc) 4096 = ((rv, pool), e) ->
     ssl_transient (fst (fst e)) rv ->
     tls_conn_lib NDEBUG clearOut tc
     = Returned ([LNumber rv; LString []], with_engine tc e,
                 [Call_SSL_read 4096]) /\
     error (with_engine tc e) = error tc) /\
  (forall tc data rv b,
     BIO_write (bio_read tc) data (int_of_size_t (Z.of_nat (length data)))
       = (rv, b) ->
     bio_transient b rv ->
     tls_conn_lib NDEBUG (encIn data) tc
     = Returned ([LNumber rv], with_bio_read tc b,
                 [Call_BIO_write_bio_read data
                    (int_of_size_t (Z.of_nat (length data)))]) /\
     error (with_bio_read tc b) = error tc) /\
  (forall tc rv pool b,
     BIO_read (bio_write tc) 4096 = ((rv, pool), b) ->
     bio_transient b rv ->
     tls_conn_lib NDEBUG encOut tc
     = Returned ([LNumber rv; LString []], with_bio_write tc b,
                 [Call_BIO_read_bio_write 4096]) /\
     error (with_bio_write tc b) = error tc).
Proof.
  split; [exact ssl_error_transient |].
  split; [exact bio_error_transient |].
  split; [| split; [| split; [| split]]].
  - intros tc m rv e Hnot Hstep Htr Hm.
    assert (Hneg : (rv <? 0) = true) by (destruct Htr; lia).
    split; [| apply error_of_with_engine].
    destruct Hm as [-> | [[data ->] | ->]]; cbn [tls_conn_lib].
    + rewrite (start_unfinished tc Hnot), Hstep. cbn [fst snd].
      rewrite (ssl_error_transient _ _ Htr). reflexivity.
    + rewrite (clear_in_unfinished data tc Hnot), Hstep. cbn [fst snd].
      rewrite (ssl_error_transient _ _ Htr), Hneg. reflexivity.
    + rewrite (clear_out_unfinished tc Hnot), Hstep. cbn [fst snd].
      rewrite (ssl_error_transient _ _ Htr), Hneg. reflexivity.
  - intros tc data rv e Hfin Hw Htr. cbn [tls_conn_lib].
    rewrite (clear_in_finished data tc Hfin). unfold record_write.
    rewrite Hw, (ssl_error_transient _ _ Htr).
    split; [reflexivity | apply error_of_with_engine].
  - intros tc rv pool e Hfin Hr Htr. cbn [tls_conn_lib].
    rewrite (clear_out_finished tc Hfin). unfold record_read.
    rewrite Hr, (ssl_error_transient _ _ Htr).
    assert (Hpool : push_pool pool rv = LString []).
    { unfold push_pool. destruct Htr as [Hn _].
      destruct (Z.ltb_spec 0 rv); [lia | reflexivity]. }
    rewrite Hpool.
    split; [reflexivity | apply error_of_with_engine].
  - intros tc data rv b Hw Htr. cbn [tls_conn_lib].
    rewrite enc_in_eq, Hw. cbn [fst snd].
    rewrite (bio_error_transient _ _ _ Htr).
    split; reflexivity.
  - intros tc rv pool b Hr Htr. cbn [tls_conn_lib].
    rewrite enc_out_eq, Hr. cbn [fst snd].
    rewrite (bio_error_transient _ _ _ Htr).
    assert (Hpool : push_pool pool rv = LString []).
    { unfold push_pool. destruct Htr as [Hn _].
      destruct (Z.ltb_spec 0 rv); [lia | reflexivity]. }
    rewrite Hpool.
    split; reflexivity.
Qed.

(** C3, as the code has it.  On a connection whose handshake is not
    complete, [clearIn] and [clearOut] take the handshake step of the role
    before anything else.  When that step answers a negative status they
    return that status, alone, and neither [SSL_write] nor [SSL_read] is
    called: a status that is not fatal with no other call, a fatal status
    that the classifier's [assert] lets through after the error queue was
    printed into a scratch BIO; a negative status that fails the [assert]
    aborts the process instead.  When the step answers zero or more they
    go on to [SSL_write] and [SSL_read], with no second look at the
    handshake. *)
Theorem C3_negative_handshake_status_returns_early
    (tc : tls_conn_t) (m : method) (rv : Z) (e : SSL * BIO * BIO) :
  SSL_is_init_finished (ssl tc) = false ->
  (exists data, m = clearIn data) \/ m = clearOut ->
  handshake_step tc = (rv, e) ->
  (forall r tc' l,
     tls_conn_lib NDEBUG m tc = Returned (r, tc', l) ->
     exists l', l = handshake_step_call tc :: l') /\
  (rv < 0 -> ~ ssl_fatal (fst (fst e)) rv ->
   tls_conn_lib NDEBUG m tc
   = Returned ([LNumber rv], with_engine tc e, [handshake_step_call tc])) /\
  (ssl_fatal (fst (fst e)) rv -> ssl_assert_passes NDEBUG (fst (fst e)) rv ->
   tls_conn_lib NDEBUG m tc
   = Returned ([LNumber rv], with_engine tc e,
               handshake_step_call tc :: error_dump)) /\
  (ssl_assert_fails NDEBUG (fst (fst e)) rv ->
   tls_conn_lib NDEBUG m tc = Aborted) /\
  (rv < 0 ->
   ~ ssl_fatal (fst (fst e)) rv \/
   (ssl_fatal (fst (fst e)) rv /\ ssl_assert_passes NDEBUG (fst (fst e)) rv) \/
   ssl_assert_fails NDEBUG (fst (fst e)) rv) /\
  (0 <= rv ->
   tls_conn_lib NDEBUG m tc
   = match m with
     | clearIn data =>
         record_write NDEBUG data (with_engine tc e) [handshake_step_call tc]
     | _ => record_read NDEBUG (with_engine tc e) [handshake_step_call tc]
     end).
Proof.
  intros Hnot Hm Hstep.
  assert (Heq : tls_conn_lib NDEBUG m tc
                = match tls_handle_ssl_error_x NDEBUG (fst (fst e)) rv with
                  | Aborted => Aborted
                  | Returned (_, l0) =>
                      if rv <? 0 then
                        Returned ([LNumber rv], with_engine tc e,
                                  handshake_step_call tc :: l0)
                      else
                        match m with
                        | clearIn data =>
                            record_write NDEBUG data (with_engine tc e)
                              (handshake_step_call tc :: l0)
                        | _ => record_read NDEBUG (with_engine tc e)
                                 (handshake_step_call tc :: l0)
                        end
                  end).
  { destruct Hm as [[data ->] | ->]; cbn [tls_conn_lib].
    - rewrite (clear_in_unfinished data tc Hnot), Hstep. reflexivity.
    - rewrite (clear_out_unfinished tc Hnot), Hstep. reflexivity. }
  rewrite Heq. clear Heq.
  split; [| split; [| split; [| split; [| split]]]].
  - intros r tc' l.
    destruct (tls_handle_ssl_error_x _ _ _) as [[r0 l0]|]; [| discriminate].
    destruct (rv <? 0).
    + intros H. inversion H. eauto.
    + destruct Hm as [[data ->] | ->].
      * rewrite record_write_pre.
        destruct (record_write _ _ _ _) as [[[r1 tc1] l1]|]; [|discriminate].
        intros H. inversion H. cbn [app]. eauto.
      * rewrite record_read_pre.
        destruct (record_read _ _ _) as [[[r1 tc1] l1]|]; [|discriminate].
        intros H. inversion H. cbn [app]. eauto.
  - intros Hneg Hq. destruct (ssl_error_quiet _ _ Hq) as [r ->].
    destruct (Z.ltb_spec rv 0); [reflexivity | lia].
  - intros Hf Hpass. rewrite (ssl_error_fatal _ _ Hf Hpass).
    destruct Hf as [Hneg _].
    destruct (Z.ltb_spec rv 0); [reflexivity | lia].
  - intros Hfail. rewrite (ssl_error_fails _ _ Hfail). reflexivity.
  - intros _. apply ssl_status_cases.
  - intros Hpos. rewrite (ssl_error_nonneg _ _ Hpos).
    destruct (Z.ltb_spec rv 0); [lia |].
    destruct Hm as [[data ->] | ->]; reflexivity.
Qed.

(** *** The error field over whole scripts *)

(** Every method but [clearError] leaves the error field as it was, unless
    it is [encIn] or [encOut] meeting a fatal buffer status. *)
Lemma method_keeps_error m tc r tc' l :
  tls_conn_lib NDEBUG m tc = Returned (r, tc', l) ->
  m <> clearError ->
  ~ buffer_status_fatal m tc ->
  error tc' = error tc.
Proof.
  intros Hrun Hm Hfatal. destruct m; cbn [tls_conn_lib] in Hrun.
  - rewrite enc_in_eq in Hrun. cbn [buffer_status_fatal] in Hfatal.
    cbv zeta in Hrun, Hfatal.
    destruct (bio_error_cases (snd (BIO_write (bio_read tc) data
                (int_of_size_t (Z.of_nat (length data)))))
                (fst (BIO_write (bio_read tc) data
                (int_of_size_t (Z.of_nat (length data)))))
                (with_bio_read tc (snd (BIO_write (bio_read tc) data
                (int_of_size_t (Z.of_nat (length data)))))))
      as [Ha | [(r0 & Ha & _) | [_ Hf]]]; [| | contradiction];
      rewrite Ha in Hrun; [discriminate |].
    inversion Hrun; subst. reflexivity.
  - rewrite enc_out_eq in Hrun. cbn [buffer_status_fatal] in Hfatal.
    cbv zeta in Hrun, Hfatal.
    destruct (bio_error_cases (snd (BIO_read (bio_write tc) 4096))
                (fst (fst (BIO_read (bio_write tc) 4096)))
                (with_bio_write tc (snd (BIO_read (bio_write tc) 4096))))
      as [Ha | [(r0 & Ha & _) | [_ Hf]]]; [| | contradiction];
      rewrite Ha in Hrun; [discriminate |].
    inversion Hrun; subst. reflexivity.
  - inversion Hrun; subst. reflexivity.
  - inversion Hrun; subst. reflexivity.
  - contradiction.
  - exact (same_error_clear_out _ _ _ _ Hrun).
  - exact (same_error_clear_in _ _ _ _ _ Hrun).
  - inversion Hrun; subst. reflexivity.
  - inversion Hrun; subst. reflexivity.
  - exact (same_error_shutdown _ _ _ _ Hrun).
  - exact (same_error_start _ _ _ _ Hrun).
  - unfold tls_conn_verify_error, bind, gets, ret in Hrun.
    destruct (SSL_get_peer_certificate (ssl tc)); [| inversion Hrun; subst; reflexivity].
    destruct (_ =? _); [inversion Hrun; subst; reflexivity |].
    destruct (find _ _); inversion Hrun; subst; reflexivity.
Qed.

Lemma clear_error_eq tc :
  tls_conn_clear_error tc = Returned ([], with_error tc 0, []).
Proof. reflexivity. Qed.

Lemma get_error_eq tc :
  tls_conn_get_error tc
  = Returned ([if error tc =? 0 then LNil else LNumber (error tc)], tc, []).
Proof. reflexivity. Qed.

Lemma method_eq_clearError (m : method) : m = clearError \/ m <> clearError.
Proof. destruct m; (left; reflexivity) || (right; discriminate). Qed.

(** A script without a fatal buffer status leaves a cleared error field
    cleared. *)
Lemma script_keeps_cleared ms :
  forall tc rs tc' l,
    error tc = 0 ->
    no_buffer_fault NDEBUG ms tc ->
    run NDEBUG ms tc = Returned (rs, tc', l) ->
    error tc' = 0.
Proof.
  induction ms as [| m ms IH]; intros tc rs tc' l Hz Hok Hrun.
  - inversion Hrun; subst. exact Hz.
  - cbn [run] in Hrun. unfold bind at 1 in Hrun.
    destruct (tls_conn_lib NDEBUG m tc) as [[[r1 tc1] l1]|] eqn:Hm;
      [| discriminate].
    destruct Hok as [Hnf Hrest].
    unfold bind in Hrun.
    destruct (run NDEBUG ms tc1) as [[[rs1 tc2] l2]|] eqn:Hms;
      [| discriminate].
    cbn in Hrun. inversion Hrun; subst.
    apply (IH tc1 rs1 tc' l2); [| eauto | exact Hms].
    destruct (method_eq_clearError m) as [-> | Hne].
    + cbn [tls_conn_lib] in Hm. rewrite clear_error_eq in Hm.
      inversion Hm; subst. reflexivity.
    + rewrite (method_keeps_error _ _ _ _ _ Hm Hne Hnf). exact Hz.
Qed.

(** C9. [clearError] makes [getError] answer nil; [getError] answers nil
    exactly when the stored code is zero; and after [clearError] no script
    of method calls free of fatal buffer statuses (so every call whose
    status is a success or a retry, and every handshake or cleartext call
    whatever its status) makes [getError] answer anything but nil again. *)
Theorem C9_cleared_error_stays_cleared :
  (forall tc, exists tc',
     tls_conn_clear_error tc = Returned ([], tc', []) /\
     tls_conn_get_error tc' = Returned ([LNil], tc', [])) /\
  (forall tc,
     tls_conn_get_error tc = Returned ([LNil], tc, []) <-> error tc = 0) /\
  (forall tc ms rs tc' l,
     no_buffer_fault NDEBUG (clearError :: ms) tc ->
     run NDEBUG (clearError :: ms) tc = Returned (rs, tc', l) ->
     tls_conn_get_error tc' = Returned ([LNil], tc', [])).
Proof.
  split; [| split].
  - intros tc. exists (with_error tc 0). split; reflexivity.
  - intros tc. rewrite get_error_eq. split.
    + intros H. destruct (Z.eqb_spec (error tc) 0); [assumption |].
      inversion H.
    + intros ->. reflexivity.
  - intros tc ms rs tc' l Hok Hrun.
    rewrite get_error_eq.
    assert (Hz : error tc' = 0).
    { cbn [run] in Hrun. unfold bind at 1 in Hrun.
      cbn [tls_conn_lib] in Hrun. rewrite clear_error_eq in Hrun.
      unfold bind in Hrun.
      destruct (run NDEBUG ms (with_error tc 0)) as [[[rs1 tc2] l2]|] eqn:Hms;
        [| discriminate].
      cbn in Hrun. inversion Hrun; subst.
      destruct Hok as [_ Hrest].
      apply (script_keeps_cleared ms (with_error tc 0) rs1 tc' l2);
        [reflexivity | | exact Hms].
      apply (Hrest [] _ []). reflexivity. }
    rewrite Hz. reflexivity.
Qed.

(** *** What a fatal status does (claim C1) *)

(** A fatal handshake status leaves the error field as it was: [start]
    returns the status and records nothing. *)
Lemma handshake_fatal_status_not_recorded tc rv e :
  SSL_is_init_finished (ssl tc) = false ->
  handshake_step tc = (rv, e) ->
  ssl_fatal (fst (fst e)) rv ->
  ssl_assert_passes NDEBUG (fst (fst e)) rv ->
  exists tc',
    tls_conn_start NDEBUG tc
    = Returned ([LNumber rv], tc', handshake_step_call tc :: error_dump) /\
    error tc' = error tc.
Proof.
  intros Hnot Hstep Hf Hpass. exists (with_engine tc e).
  split; [| apply error_of_with_engine].
  rewrite (start_unfinished tc Hnot), Hstep. cbn [fst snd].
  rewrite (ssl_error_fatal _ _ Hf Hpass). reflexivity.
Qed.

(** The buffer classifier does record a fatal status when assertions are
    compiled out. *)
Lemma bio_fatal_status_recorded bio rv tc :
  NDEBUG = true ->
  bio_fatal bio rv ->
  tls_handle_bio_error_x NDEBUG bio rv tc = Returned (rv, with_error tc rv, []).
Proof.
  intros HN Hf. rewrite (bio_error_fatal _ _ _ Hf). unfold assert.
  rewrite HN. reflexivity.
Qed.

(** With assertions compiled in, its [assert] compares the negative status
    with two error codes that are not negative, and fails. *)
Lemma bio_fatal_status_aborts bio rv tc :
  NDEBUG = false ->
  0 <= SSL_ERROR_SSL -> 0 <= SSL_ERROR_SYSCALL ->
  bio_fatal bio rv ->
  tls_handle_bio_error_x NDEBUG bio rv tc = Aborted.
Proof.
  intros HN H1 H2 Hf. rewrite (bio_error_fatal _ _ _ Hf). unfold assert.
  rewrite HN. destruct Hf as [Hneg _].
  destruct (Z.eqb_spec rv SSL_ERROR_SSL); [lia |].
  destruct (Z.eqb_spec rv SSL_ERROR_SYSCALL); [lia |]. reflexivity.
Qed.

(** *** The engine calls of the methods *)

Lemma log_all_refl P tc : log_all P tc tc [].
Proof. constructor. Qed.

Lemma log_all_trans P a b c l1 l2 :
  log_all P a b l1 -> log_all P b c l2 -> log_all P a c (l1 ++ l2).
Proof. unfold log_all. intros H1 H2. apply Forall_app. auto. Qed.

Lemma log_all_set_error P rv : keeps (log_all P) (set_error rv).
Proof. intros tc a tc' l H. inversion H; subst. constructor. Qed.

Lemma log_all_ssl_call {A} P c (f : SSL -> BIO -> BIO -> A * (SSL * BIO * BIO)) :
  P c -> keeps (log_all P) (ssl_call c f).
Proof.
  intros Hc tc a tc' l H. unfold ssl_call in H.
  destruct (f _ _ _) as [a' [[s r] w]]. inversion H; subst.
  repeat constructor. exact Hc.
Qed.

Lemma log_all_bio_read_write P data len :
  P (Call_BIO_write_bio_read data len) ->
  keeps (log_all P) (bio_read_write data len).
Proof.
  intros Hc tc a tc' l H. unfold bio_read_write in H.
  destruct (BIO_write _ _ _) as [rv r]. inversion H; subst.
  repeat constructor. exact Hc.
Qed.

Lemma log_all_bio_write_read P len :
  P (Call_BIO_read_bio_write len) ->
  keeps (log_all P) (bio_write_read len).
Proof.
  intros Hc tc a tc' l H. unfold bio_write_read in H.
  destruct (BIO_read _ _) as [res w]. inversion H; subst.
  repeat constructor. exact Hc.
Qed.

Ltac keeps_log :=
  repeat first
    [ apply (keeps_bind _ (log_all_trans _))
    | apply (keeps_ret _ (log_all_refl _))
    | apply (keeps_gets _ (log_all_refl _))
    | apply (keeps_lift _ (log_all_refl _))
    | apply (keeps_ssl_error _ (log_all_refl _));
      intros ?; unfold log_all; assumption
    | apply log_all_set_error
    | apply log_all_ssl_call
    | apply log_all_bio_read_write
    | apply log_all_bio_write_read
    | apply keeps_if
    | match goal with |- forall _ : _ * _, _ => intros [? ?] end
    | match goal with |- forall _, _ => intro end
    | match goal with
      | |- keeps _ (match ?e with _ => _ end) => destruct e
      end ].

(** Every engine call of a method satisfies [P], when the calls a method
    can make do. *)
Lemma method_log P m :
  P Call_SSL_accept -> P Call_SSL_connect -> P Call_SSL_shutdown ->
  P (Call_SSL_read 4096) -> P (Call_BIO_read_bio_write 4096) ->
  (forall data len, P (Call_SSL_write data len)) ->
  (forall data len, P (Call_BIO_write_bio_read data len)) ->
  Forall P error_dump ->
  keeps (log_all P) (tls_conn_lib NDEBUG m).
Proof.
  intros Ha Hc Hs Hr Hbr Hw Hbw Hd.
  destruct m; cbn [tls_conn_lib];
    unfold tls_conn_enc_in, tls_conn_enc_out, tls_conn_enc_pending,
      tls_conn_get_error, tls_conn_clear_error, tls_conn_clear_out,
      tls_conn_clear_in, tls_conn_clear_pending, tls_conn_is_init_finished,
      tls_conn_shutdown, tls_conn_start, tls_conn_verify_error,
      tls_handle_bio_error_x, tls_handle_ssl_error, handshake_call;
    keeps_log; auto.
Qed.

(** *** Creation and verification *)


Lemma verify_cases_complete (c : x509_v_err) : In c verify_cases.
Proof.
  destruct c; unfold verify_cases;
    repeat first [left; reflexivity | right].
Qed.

Lemma verify_name_inj c c' : verify_name c = verify_name c' -> c = c'.
Proof. destruct c, c'; intros H; first [reflexivity | discriminate H]. Qed.

Lemma verify_switch_case verify c :
  (forall a b, X509_V_ERR a = X509_V_ERR b -> a = b) ->
  verify = X509_V_ERR c ->
  find (fun c' => verify =? X509_V_ERR c') verify_cases = Some c.
Proof.
  intros Hinj ->.
  destruct (find _ verify_cases) as [c' |] eqn:Hf.
  - apply find_some in Hf. destruct Hf as [_ Heq].
    apply Z.eqb_eq in Heq. rewrite (Hinj _ _ Heq). reflexivity.
  - exfalso. pose proof (find_none _ _ Hf c (verify_cases_complete c)) as Hn.
    cbn beta in Hn. rewrite Z.eqb_refl in Hn. discriminate.
Qed.

Lemma verify_switch_default verify :
  (forall c, verify <> X509_V_ERR c) ->
  find (fun c' => verify =? X509_V_ERR c') verify_cases = None.
Proof.
  intros Hne. destruct (find _ verify_cases) as [c' |] eqn:Hf; [| reflexivity].
  apply find_some in Hf. destruct Hf as [_ Heq].
  apply Z.eqb_eq in Heq. destruct (Hne _ Heq).
Qed.

(** C7. When the case labels of the switch are pairwise distinct (C
    demands it): without a peer certificate [verifyError] answers the
    string "Unable to get peer certificate", which is none of the named
    reasons; with one, it answers nil for [X509_V_OK], the name of the
    case for each of the 27 recognized codes (names that differ from one
    another), and the library's own description for any other code. *)
Theorem C7_verify_error_taxonomy (tc : tls_conn_t) :
  (forall a b, X509_V_ERR a = X509_V_ERR b -> a = b) ->
  (forall c, X509_V_ERR c <> X509_V_OK) ->
  (SSL_get_peer_certificate (ssl tc) = None ->
   tls_conn_verify_error tc
   = Returned ([LStr "Unable to get peer certificate"], tc, [])) /\
  (forall cert, SSL_get_peer_certificate (ssl tc) = Some cert ->
     (SSL_get_verify_result (ssl tc) = X509_V_OK ->
      tls_conn_verify_error tc = Returned ([LNil], tc, [])) /\
     (forall c, SSL_get_verify_result (ssl tc) = X509_V_ERR c ->
      tls_conn_verify_error tc = Returned ([LStr (verify_name c)], tc, [])) /\
     (SSL_get_verify_result (ssl tc) <> X509_V_OK ->
      (forall c, SSL_get_verify_result (ssl tc) <> X509_V_ERR c) ->
      tls_conn_verify_error tc
      = Returned ([LStr (X509_verify_cert_error_string
                           (SSL_get_verify_result (ssl tc)))], tc, []))) /\
  (forall c, LStr "Unable to get peer certificate" <> LStr (verify_name c)) /\
  (forall c c', verify_name c = verify_name c' -> c = c').
Proof.
  intros Hinj Hok.
  split; [| split; [| split]].
  - intros Hnone. unfold tls_conn_verify_error, bind, gets.
    rewrite Hnone. reflexivity.
  - intros cert Hcert. unfold tls_conn_verify_error, bind, gets.
    rewrite Hcert. split; [| split].
    + intros ->. rewrite Z.eqb_refl. reflexivity.
    + intros c Hc.
      destruct (Z.eqb_spec (SSL_get_verify_result (ssl tc)) X509_V_OK) as [E | _].
      * rewrite Hc in E. destruct (Hok _ E).
      * rewrite (verify_switch_case _ c Hinj Hc). reflexivity.
    + intros Hne Hnone.
      destruct (Z.eqb_spec (SSL_get_verify_result (ssl tc)) X509_V_OK) as [E | _];
        [contradiction |].
      rewrite (verify_switch_default _ Hnone). reflexivity.
  - intros c H. destruct c; discriminate H.
  - exact verify_name_inj.
Qed.

(** *** The 4096-byte pool *)

Lemma push_pool_fits pool n : n <= 4096 -> fits_pool (push_pool pool n).
Proof.
  intros H. unfold push_pool. destruct (0 <? n); cbn.
  - rewrite length_firstn. lia.
  - lia.
Qed.

(** C10. Provided the engine's reads never answer more than they were
    asked for: [encOut] and [clearOut], which take no size from the
    caller, ask the engine for 4096 bytes at a time, and every count and
    every string they return is at most 4096 (bytes) long. *)
Theorem C10_reads_are_capped_at_4096 (m : method) (tc : tls_conn_t)
    (r : list lua_value) (tc' : tls_conn_t) (l : list engine_call) :
  (forall b n, 0 <= n -> fst (fst (BIO_read b n)) <= n) ->
  (forall s rb wb n, 0 <= n -> fst (fst (SSL_read s rb wb n)) <= n) ->
  m = encOut \/ m = clearOut ->
  tls_conn_lib NDEBUG m tc = Returned (r, tc', l) ->
  Forall reads_4096 l /\ Forall fits_pool r.
Proof.
  intros Hbio Hssl Hm Hrun. split.
  - refine (method_log reads_4096 m I I I _ _ (fun _ _ => I) (fun _ _ => I)
              _ _ _ _ _ Hrun); first [reflexivity | repeat constructor].
  - destruct Hm as [-> | ->]; cbn [tls_conn_lib] in Hrun.
    + rewrite enc_out_eq in Hrun. cbv zeta in Hrun.
      specialize (Hbio (bio_write tc) 4096 ltac:(lia)).
      destruct (BIO_read (bio_write tc) 4096) as [[rv pool] b].
      cbn [fst snd] in *.
      destruct (tls_handle_bio_error_x _ _ _ _) as [[[r0 tc0] l0]|];
        [| discriminate].
      inversion Hrun; subst.
      repeat constructor; [exact Hbio | apply push_pool_fits; exact Hbio].
    + assert (Hread : forall tc1 pre,
                record_read NDEBUG tc1 pre = Returned (r, tc', l) ->
                Forall fits_pool r).
      { intros tc1 pre H. unfold record_read in H.
        specialize (Hssl (ssl tc1) (bio_read tc1) (bio_write tc1) 4096 ltac:(lia)).
        destruct (SSL_read _ _ _ _) as [[rv pool] e]. cbn [fst snd] in *.
        destruct (tls_handle_ssl_error_x _ _ _) as [[r0 l0]|]; [| discriminate].
        inversion H; subst.
        repeat constructor; [exact Hssl | apply push_pool_fits; exact Hssl]. }
      destruct (SSL_is_init_finished (ssl tc)) eqn:Hfin.
      * rewrite (clear_out_finished tc Hfin) in Hrun. eauto.
      * rewrite (clear_out_unfinished tc Hfin) in Hrun.
        destruct (tls_handle_ssl_error_x _ _ _) as [[r0 l0]|]; [| discriminate].
        destruct (Z.ltb_spec (fst (handshake_step tc)) 0); [| eauto].
        inversion Hrun; subst. repeat constructor. cbn. lia.
Qed.

(** *** The fingerprint *)

Lemma hex_high_digit (b : byte) :
  nth (Z.to_nat (Z.shiftr (Z.land (uchar b) 0xf0) 4)) hex x00
  = hex_digit (Byte.to_N b / 16)%N.
Proof. destruct b; vm_compute; reflexivity. Qed.

Lemma hex_low_digit (b : byte) :
  nth (Z.to_nat (Z.land (uchar b) 0x0f)) hex x00
  = hex_digit (Byte.to_N b mod 16)%N.
Proof. destruct b; vm_compute; reflexivity. Qed.

Lemma hex_pair_no_nul (b : byte) : Forall (fun c => c <> x00) (hex_pair b).
Proof. destruct b; repeat constructor; vm_compute; discriminate. Qed.

Lemma write_three (pre : list byte) a b c x y z rest :
  <[(length pre + 2)%nat := z]>
    (<[(length pre + 1)%nat := y]>
       (<[length pre := x]> (pre ++ a :: b :: c :: rest)))
  = pre ++ x :: y :: z :: rest.
Proof.
  induction pre as [| p pre IH]; [reflexivity |].
  cbn. f_equal. exact IH.
Qed.

Lemma rendered_length md : length (rendered md) = (3 * length md)%nat.
Proof.
  induction md as [| b md IH]; [reflexivity |].
  cbn [rendered flat_map]. rewrite length_app. fold (rendered md).
  rewrite IH. cbn. lia.
Qed.

Lemma rendered_snoc md b :
  rendered (md ++ [b]) = rendered md ++ hex_pair b ++ [x3a].
Proof.
  unfold rendered. rewrite flat_map_app. cbn. rewrite ?app_nil_r. reflexivity.
Qed.

(** After [k] rounds the first [3 * k] cells are written and the rest is
    as it was. *)
Lemma fingerprint_rounds md uninit :
  (3 * length md <= length uninit)%nat ->
  forall k, (k <= length md)%nat ->
    fold_left (fingerprint_round md) (seq 0 k) uninit
    = rendered (firstn k md) ++ skipn (3 * k) uninit.
Proof.
  intros Hlen k. induction k as [| k IH]; intros Hk.
  - reflexivity.
  - rewrite seq_S, fold_left_app, IH by lia. cbn [fold_left Nat.add].
    destruct (nth_error md k) as [b |] eqn:Hb;
      [| apply nth_error_None in Hb; lia].
    assert (Hnth : nth k md x00 = b) by (apply nth_error_nth; exact Hb).
    assert (Htake : firstn (S k) md = firstn k md ++ [b]).
    { clear - Hb. revert k Hb. induction md as [| a md IH]; intros k Hb.
      - destruct k; discriminate.
      - destruct k as [| k]; cbn in *.
        + inversion Hb; reflexivity.
        + f_equal. apply IH. exact Hb. }
    rewrite Htake, rendered_snoc.
    assert (Hrest : exists c0 c1 c2,
              skipn (3 * k) uninit = c0 :: c1 :: c2 :: skipn (3 * S k) uninit).
    { assert (Hl : (3 <= length (skipn (3 * k) uninit))%nat)
        by (rewrite length_skipn; lia).
      replace (3 * S k)%nat with (3 + 3 * k)%nat by lia.
      rewrite <- skipn_skipn.
      destruct (skipn (3 * k) uninit) as [| c0 [| c1 [| c2 rest]]];
        cbn in Hl; try lia.
      eexists _, _, _. reflexivity. }
    destruct Hrest as (c0 & c1 & c2 & ->).
    unfold fingerprint_round. rewrite Hnth, hex_high_digit, hex_low_digit.
    assert (Hpre : length (rendered (firstn k md)) = (3 * k)%nat).
    { rewrite rendered_length, length_firstn. lia. }
    rewrite <- Hpre. rewrite write_three.
    rewrite <- app_assoc. reflexivity.
Qed.

Lemma c_string_stop xs rest :
  Forall (fun c => c <> x00) xs -> c_string (xs ++ x00 :: rest) = xs.
Proof.
  induction xs as [| c xs IH]; intros H; [reflexivity |].
  inversion H as [| ? ? Hc Hxs]; subst. cbn.
  destruct (Byte.eqb c x00) eqn:E.
  - apply Byte.byte_dec_bl in E. contradiction.
  - f_equal. apply IH. exact Hxs.
Qed.

Lemma join_colon_no_nul md :
  Forall (fun c => c <> x00) (fingerprint_spec md).
Proof.
  unfold fingerprint_spec. induction md as [| b md IH]; [constructor |].
  cbn [map join_colon]. destruct (map hex_pair md) as [| p ps] eqn:E.
  - apply hex_pair_no_nul.
  - apply Forall_app. split; [apply hex_pair_no_nul |].
    constructor; [discriminate | exact IH].
Qed.

Lemma rendered_join md :
  md <> [] -> rendered md = fingerprint_spec md ++ [x3a].
Proof.
  unfold fingerprint_spec. induction md as [| b md IH]; [congruence |].
  intros _. cbn [rendered flat_map map join_colon]. fold (rendered md).
  destruct md as [| b' md'].
  - reflexivity.
  - rewrite IH by discriminate. cbn [map].
    rewrite <- !app_assoc. reflexivity.
Qed.

Lemma fingerprint_spec_length md :
  md <> [] -> length (fingerprint_spec md) = (3 * length md - 1)%nat.
Proof.
  intros H. pose proof (rendered_length md) as Hl.
  rewrite (rendered_join md H), length_app in Hl. cbn in Hl. lia.
Qed.

Lemma insert_last_cell (xs : list byte) c z rest :
  <[length xs := z]> (xs ++ c :: rest) = xs ++ z :: rest.
Proof. induction xs as [| x xs IH]; [reflexivity |]. cbn. f_equal. exact IH. Qed.

(** The loop computes the spec's string. *)
Lemma fingerprint_refines md uninit :
  (3 * length md <= length uninit)%nat ->
  fingerprint md uninit = fingerprint_spec md.
Proof.
  intros Hlen. unfold fingerprint.
  rewrite (fingerprint_rounds md uninit Hlen (length md)) by lia.
  rewrite firstn_all.
  destruct md as [| b md].
  - cbn. destruct uninit; reflexivity.
  - cbn [Nat.ltb Nat.leb length].
    rewrite (rendered_join (b :: md)) by discriminate.
    rewrite <- app_assoc. cbn [app].
    replace (3 * (S (length md) - 1) + 2)%nat
      with (length (fingerprint_spec (b :: md)))
      by (rewrite fingerprint_spec_length by discriminate; cbn [length]; lia).
    rewrite insert_last_cell. apply c_string_stop, join_colon_no_nul.
Qed.

Lemma last_skip (xs ys : list byte) d :
  ys <> [] -> List.last (xs ++ ys) d = List.last ys d.
Proof.
  intros Hys. induction xs as [| x xs IH]; [reflexivity |].
  cbn [app]. destruct (xs ++ ys) eqn:E.
  - destruct xs; [cbn in E; congruence | discriminate].
  - cbn [List.last]. exact IH.
Qed.

Lemma fingerprint_spec_nonempty md : md <> [] -> fingerprint_spec md <> [].
Proof.
  intros H E. pose proof (fingerprint_spec_length md H) as Hl.
  rewrite E in Hl. destruct md; [congruence | cbn in Hl; lia].
Qed.

(** No colon at the end. *)
Lemma last_of_join md :
  md <> [] -> List.last (fingerprint_spec md) x00 <> x3a.
Proof.
  induction md as [| b md IH]; [congruence |].
  intros _. destruct md as [| b' md'].
  - destruct b; vm_compute; discriminate.
  - change (fingerprint_spec (b :: b' :: md'))
      with (hex_pair b ++ [x3a] ++ fingerprint_spec (b' :: md')).
    rewrite app_assoc, last_skip by (apply fingerprint_spec_nonempty; discriminate).
    apply IH. discriminate.
Qed.

Lemma hex_pair_alphabet (b : byte) :
  Forall (fun c => In c (list_byte_of_string "0123456789ABCDEF")) (hex_pair b).
Proof.
  apply List.Forall_forall. intros c Hc.
  assert (H : existsb (Byte.eqb c) (list_byte_of_string "0123456789ABCDEF")
              = true).
  { destruct Hc as [<- | [<- | []]]; destruct b; vm_compute; reflexivity. }
  apply existsb_exists in H. destruct H as (x & Hx & E).
  apply Byte.byte_dec_bl in E. subst. exact Hx.
Qed.

Lemma fingerprint_spec_alphabet md :
  Forall (fun c => In c (list_byte_of_string "0123456789ABCDEF:"))
         (fingerprint_spec md).
Proof.
  assert (Hp : forall b,
             Forall (fun c => In c (list_byte_of_string "0123456789ABCDEF:"))
                    (hex_pair b)).
  { intros b. eapply List.Forall_impl; [| apply hex_pair_alphabet].
    intros c Hc. change (list_byte_of_string "0123456789ABCDEF:")
      with (list_byte_of_string "0123456789ABCDEF" ++ [x3a]).
    apply in_or_app. left. exact Hc. }
  unfold fingerprint_spec. induction md as [| b md IH]; [constructor |].
  cbn [map join_colon]. destruct (map hex_pair md) as [| p ps] eqn:E.
  - apply Hp.
  - apply Forall_app. split; [apply Hp |].
    constructor; [| exact IH].
    vm_compute. repeat first [left; reflexivity | right].
Qed.

(** C8. When [X509_digest] succeeds with [md_size] bytes that fit [md],
    the string stored under "fingerprint" is the digest in uppercase
    hexadecimal pairs joined by colons, whatever the array held before: it
    is empty for an empty digest, and for a digest of [n > 0] bytes it has
    [3 * n - 1] characters, all of them hex digits or colons, the last one
    no colon. *)
Theorem C8_fingerprint_is_colon_joined_hex (peer_cert : X509)
    (md uninit : list byte) :
  X509_digest_sha1 peer_cert = Some md ->
  (length md <= EVP_MAX_MD_SIZE)%nat ->
  length uninit = (EVP_MAX_MD_SIZE * 3)%nat ->
  tls_conn_get_peer_certificate_fingerprint peer_cert uninit
  = Some (LStr "fingerprint", LString (fingerprint_spec md)) /\
  Forall (fun c => In c (list_byte_of_string "0123456789ABCDEF:"))
         (fingerprint_spec md) /\
  (md = [] -> fingerprint_spec md = []) /\
  ((0 < length md)%nat ->
   length (fingerprint_spec md) = (3 * length md - 1)%nat /\
   List.last (fingerprint_spec md) x00 <> x3a).
Proof.
  intros Hmd Hsize Hlen.
  split; [| split; [| split]].
  - unfold tls_conn_get_peer_certificate_fingerprint. rewrite Hmd.
    rewrite fingerprint_refines by lia. reflexivity.
  - apply fingerprint_spec_alphabet.
  - intros ->. reflexivity.
  - intros Hpos. assert (Hne : md <> []) by (destruct md; [cbn in Hpos; lia | discriminate]).
    split; [apply fingerprint_spec_length | apply last_of_join]; exact Hne.
Qed.

(** *** Feeding and draining *)

(** [encIn] touches the read BIO (and the error field) and nothing else. *)
Lemma enc_in_state data tc r1 tc1 l1 :
  tls_conn_enc_in NDEBUG data tc = Returned (r1, tc1, l1) ->
  bio_write tc1 = bio_write tc /\
  ssl tc1 = ssl tc /\
  is_server tc1 = is_server tc /\
  bio_read tc1
  = snd (BIO_write (bio_read tc) data (int_of_size_t (Z.of_nat (length data)))).
Proof.
  rewrite enc_in_eq. cbv zeta.
  destruct (bio_error_cases
              (snd (BIO_write (bio_read tc) data
                      (int_of_size_t (Z.of_nat (length data)))))
              (fst (BIO_write (bio_read tc) data
                      (int_of_size_t (Z.of_nat (length data)))))
              (with_bio_read tc
                 (snd (BIO_write (bio_read tc) data
                         (int_of_size_t (Z.of_nat (length data)))))))
    as [-> | [(r & -> & _) | [-> _]]]; [discriminate | |];
    intros H; inversion H; subst; repeat split.
Qed.

(** What [encOut] returns depends on the write BIO alone. *)
Lemma enc_out_reads_bio_write tc tc1 :
  bio_write tc1 = bio_write tc ->
  match tls_conn_enc_out NDEBUG tc with
  | Returned (r, tc2, l) =>
      exists tc2',
        tls_conn_enc_out NDEBUG tc1 = Returned (r, tc2', l) /\
        bio_write tc2' = bio_write tc2 /\
        bio_read tc2' = bio_read tc1
  | Aborted => tls_conn_enc_out NDEBUG tc1 = Aborted
  end.
Proof.
  intros Hw. rewrite !enc_out_eq, Hw. cbv zeta.
  destruct (BIO_read (bio_write tc) 4096) as [[rv pool] b]. cbn [fst snd].
  destruct (bio_status_cases b rv) as [H | [H | H]].
  - rewrite !bio_error_nonneg by exact H.
    eexists. repeat split.
  - rewrite !(bio_error_transient _ _ _ H).
    eexists. repeat split.
  - rewrite !(bio_error_fatal _ _ _ H).
    destruct (assert _ _); [| reflexivity].
    eexists. repeat split.
Qed.

End Laws.

(** * The claims on concrete connections *)

Lemma int_of_size_t_small n : 0 <= n < 2 ^ 31 -> int_of_size_t n = n.
Proof.
  intros H. unfold int_of_size_t. rewrite Z.mod_small by lia.
  destruct (Z.ltb_spec n (2 ^ 31)); lia.
Qed.

(** C1, at a failing input.  A client is fed one byte that is no TLS
    record; [start] meets the engine's protocol error: status -1, which
    the engine classifies as [SSL_ERROR_SSL], neither "want read" nor
    "want write".  [start] returns -1 and [getError] still answers nil:
    the fatal status was not recorded. *)
Theorem C1_fatal_handshake_status_is_not_recorded :
  exists tc' l,
    run (lib := toy_openssl) false [start; getError] (toy_client_fed [xff])
    = Returned ([[LNumber (-1)]; [LNil]], tc', l) /\
    ssl_fatal (lib := toy_openssl) (ssl tc') (-1) /\
    @SSL_get_error toy_openssl (ssl tc') (-1) = @SSL_ERROR_SSL toy_openssl /\
    error tc' = 0.
Proof.
  eexists _, _. split; [vm_compute; reflexivity |].
  unfold ssl_fatal. cbn. repeat split; (lia || discriminate).
Qed.

(** C3 fails as stated.  The client has received an alert record; the
    handshake step answers 0 and the handshake stays incomplete, yet
    [clearIn] goes on to [SSL_write] and [clearOut] to [SSL_read], and what
    they return is not the status of the handshake step. *)
Lemma C3_counterexample :
  let tc := toy_client_fed [x15] in
  let data := [x68; x69] in
  @SSL_is_init_finished toy_openssl (ssl tc) = false /\
  fst (handshake_step tc) = 0 /\
  @SSL_is_init_finished toy_openssl (fst (fst (snd (handshake_step tc))))
  = false /\
  (exists tc',
     tls_conn_clear_in false data tc
     = Returned ([LNumber (-1)], tc',
                 Call_SSL_connect :: Call_SSL_write data 2 :: error_dump) /\
     @SSL_is_init_finished toy_openssl (ssl tc') = false) /\
  (exists tc',
     tls_conn_clear_out false tc
     = Returned ([LNumber (-1); LString []], tc',
                 Call_SSL_connect :: Call_SSL_read 4096 :: error_dump) /\
     @SSL_is_init_finished toy_openssl (ssl tc') = false).
Proof.
  cbv zeta. repeat split; try (eexists; split); vm_compute; reflexivity.
Qed.


(** C5 fails as stated.  Three bytes fed to a fresh connection and a drain
    right after: the feed accepts 3 bytes, the drain answers -1 and the
    empty string. *)
Lemma C5_counterexample :
  exists tc1 l1 tc2 l2,
    tls_conn_enc_in false [x01; x02; x03] toy_client
    = Returned ([LNumber 3], tc1, l1) /\
    tls_conn_enc_out false tc1
    = Returned ([LNumber (-1); LString []], tc2, l2) /\
    LString [] <> LString [x01; x02; x03].
Proof.
  eexists _, _, _, _. split; [vm_compute; reflexivity |].
  split; [vm_compute; reflexivity | discriminate].
Qed.

(** The conversion of a length of [2^31] or more gives a smaller number. *)
Lemma int_of_size_t_large n : 2 ^ 31 <= n -> int_of_size_t n < n.
Proof.
  intros H. unfold int_of_size_t.
  pose proof (Z.mod_pos_bound n (2 ^ 32) ltac:(lia)) as Hm.
  pose proof (Z.mod_le n (2 ^ 32) ltac:(lia) ltac:(lia)) as Hle.
  destruct (Z.ltb_spec (n mod 2 ^ 32) (2 ^ 31)); lia.
Qed.

(** C5, as the code has it.  [encIn] writes to the read BIO and [encOut]
    reads from the write BIO.  For every library: a feed leaves the write
    BIO as it was, and a drain after the feed returns the count and bytes
    (and makes the engine call) of a drain without the feed and leaves the
    read BIO as the feed left it; the feed is one [BIO_write] on the read
    BIO, with the length of the string converted from [size_t] to [int],
    which is the length when that is less than [2^31] and a smaller number
    otherwise.  With the memory buffers: the bytes handed over are
    appended, in order, to the read buffer and counted as pending there;
    they are all the bytes fed when these are fewer than [2^31], and fewer
    than the bytes fed otherwise; a drain returns the first bytes of the
    write buffer, at most 4096, and removes them. *)
Theorem C5_feed_and_drain_use_separate_buffers :
  (forall (lib : OpenSSL) (NDEBUG : bool) (tc : tls_conn_t) data r1 tc1 l1,
     tls_conn_enc_in NDEBUG data tc = Returned (r1, tc1, l1) ->
     bio_write tc1 = bio_write tc /\
     match tls_conn_enc_out NDEBUG tc with
     | Returned (r, tc2, l) =>
         exists tc2',
           tls_conn_enc_out NDEBUG tc1 = Returned (r, tc2', l) /\
           bio_write tc2' = bio_write tc2 /\
           bio_read tc2' = bio_read tc1
     | Aborted => tls_conn_enc_out NDEBUG tc1 = Aborted
     end) /\
  (forall (lib : OpenSSL) (NDEBUG : bool) (tc : tls_conn_t) data r1 tc1 l1,
     tls_conn_enc_in NDEBUG data tc = Returned (r1, tc1, l1) ->
     l1 = [Call_BIO_write_bio_read data
             (int_of_size_t (Z.of_nat (length data)))] /\
     bio_read tc1
     = snd (BIO_write (bio_read tc) data
              (int_of_size_t (Z.of_nat (length data)))) /\
     (Z.of_nat (length data) < 2 ^ 31 ->
      int_of_size_t (Z.of_nat (length data)) = Z.of_nat (length data)) /\
     (2 ^ 31 <= Z.of_nat (length data) ->
      int_of_size_t (Z.of_nat (length data)) < Z.of_nat (length data))) /\
  (forall (NDEBUG : bool) (tc : tls_conn_t (lib := toy_openssl)) data,
     let chunk :=
       firstn (Z.to_nat (int_of_size_t (Z.of_nat (length data)))) data in
     exists tc1 l1,
       tls_conn_enc_in NDEBUG data tc
       = Returned ([LNumber (Z.of_nat (length chunk))], tc1, l1) /\
       mem_data (bio_read tc1) = mem_data (bio_read tc) ++ chunk /\
       mem_pending (bio_read tc1)
       = mem_pending (bio_read tc) + Z.of_nat (length chunk) /\
       bio_write tc1 = bio_write tc /\
       (Z.of_nat (length data) < 2 ^ 31 -> chunk = data) /\
       (2 ^ 31 <= Z.of_nat (length data) ->
        (length chunk < length data)%nat)) /\
  (forall (NDEBUG : bool) (tc : tls_conn_t (lib := toy_openssl)),
     mem_data (bio_write tc) <> [] ->
     exists tc2 l2,
       tls_conn_enc_out NDEBUG tc
       = Returned ([LNumber (Z.of_nat (length (firstn 4096 (mem_data (bio_write tc)))));
                    LString (firstn 4096 (mem_data (bio_write tc)))], tc2, l2) /\
       mem_data (bio_write tc2) = skipn 4096 (mem_data (bio_write tc)) /\
       bio_read tc2 = bio_read tc).
Proof.
  split; [| split; [| split]].
  - intros lib NDEBUG tc data r1 tc1 l1 H.
    destruct (enc_in_state NDEBUG data tc r1 tc1 l1 H) as (Hw & _).
    split; [exact Hw |]. apply enc_out_reads_bio_write. exact Hw.
  - intros lib NDEBUG tc data r1 tc1 l1 H.
    destruct (enc_in_state NDEBUG data tc r1 tc1 l1 H) as (_ & _ & _ & Hr).
    split; [| split; [exact Hr | split]].
    + rewrite enc_in_eq in H. cbv zeta in H.
      destruct (tls_handle_bio_error_x _ _ _ _) as [[[r0 tc0] l0]|];
        [| discriminate].
      inversion H; subst. reflexivity.
    + intros Hlen. apply int_of_size_t_small. lia.
    + apply int_of_size_t_large.
  - intros NDEBUG tc data chunk.
    rewrite (enc_in_eq (lib := toy_openssl)). cbv zeta.
    change (@BIO_write toy_openssl) with mem_write. unfold mem_write.
    fold chunk. cbn [fst snd].
    rewrite bio_error_nonneg by lia.
    eexists _, _. split; [reflexivity |].
    unfold with_bio_read, mem_pending. cbn.
    rewrite length_app, Nat2Z.inj_add.
    split; [reflexivity |]. split; [reflexivity |]. split; [reflexivity |].
    split.
    + intros Hlen. subst chunk. rewrite int_of_size_t_small by lia.
      rewrite Nat2Z.id. apply firstn_all.
    + intros Hlen. subst chunk.
      pose proof (int_of_size_t_large _ Hlen) as Hlt.
      pose proof (firstn_le_length
                    (Z.to_nat (int_of_size_t (Z.of_nat (length data)))) data).
      lia.
  - intros NDEBUG tc Hne.
    rewrite (enc_out_eq (lib := toy_openssl)). cbv zeta.
    change (@BIO_read toy_openssl) with mem_read. unfold mem_read.
    destruct (mem_data (bio_write tc)) as [| c d] eqn:Hd; [congruence |].
    cbn [fst snd]. change (Z.to_nat 4096) with 4096%nat.
    rewrite bio_error_nonneg by lia.
    unfold push_pool.
    destruct (Z.ltb_spec 0 (Z.of_nat (length (firstn 4096 (c :: d)))))
      as [_ | Hle]; [| cbn in Hle; lia].
    rewrite Nat2Z.id, firstn_all.
    eexists _, _. split; [reflexivity |]. split; reflexivity.
Qed.

(** ** The hypotheses of the theorems can be met *)

Ltac pick_disjunct :=
  solve [ reflexivity | left; reflexivity | right; pick_disjunct ].

Lemma openssl_X509_V_ERR_inj a b :
  openssl_X509_V_ERR a = openssl_X509_V_ERR b -> a = b.
Proof. destruct a, b; intros H; first [reflexivity | discriminate H]. Qed.

Lemma openssl_X509_V_ERR_not_ok c : openssl_X509_V_ERR c <> 0.
Proof. destruct c; discriminate. Qed.

Lemma mem_read_bound b n : 0 <= n -> fst (fst (mem_read b n)) <= n.
Proof.
  intros Hn. unfold mem_read. destruct (mem_data b) as [| c d]; cbn [fst].
  - lia.
  - pose proof (firstn_le_length (Z.to_nat n) (c :: d)). lia.
Qed.

Lemma toy_read_bound s r w n : 0 <= n -> fst (fst (toy_read s r w n)) <= n.
Proof.
  intros Hn. unfold toy_read. destruct (toy_finished s); [| cbn; lia].
  pose proof (mem_read_bound r n Hn) as H.
  destruct (mem_read r n) as [res r']. exact H.
Qed.

Lemma C2_witness :
  ssl_transient (lib := toy_openssl)
    (fst (fst (snd (handshake_step toy_client)))) (-1) /\
  tls_conn_lib false start toy_client
  = Returned ([LNumber (-1)],
              with_engine toy_client (snd (handshake_step toy_client)),
              [Call_SSL_connect]) /\
  tls_conn_lib false encOut toy_client
  = Returned ([LNumber (-1); LString []],
              with_bio_write toy_client (mk_mem_bio [] true),
              [Call_BIO_read_bio_write 4096]).
Proof.
  assert (Htr : ssl_transient (lib := toy_openssl)
                  (fst (fst (snd (handshake_step toy_client)))) (-1)).
  { split; [lia | left; reflexivity]. }
  split; [exact Htr |]. split.
  - apply (proj1 (proj2 (proj2 (C2_transient_status_records_nothing
                                   (lib := toy_openssl) false)))
             toy_client start (-1) (snd (handshake_step toy_client))
             eq_refl eq_refl Htr (or_introl eq_refl)).
  - apply (proj2 (proj2 (proj2 (proj2 (proj2 (proj2
             (C2_transient_status_records_nothing (lib := toy_openssl) false))))))
             toy_client (-1) [] (mk_mem_bio [] true) eq_refl).
    split; [lia | right; reflexivity].
Defined.

Lemma C3_witness :
  @SSL_is_init_finished toy_openssl (ssl toy_client) = false /\
  handshake_step toy_client = (-1, snd (handshake_step toy_client)) /\
  tls_conn_lib false (clearIn [x68; x69]) toy_client
  = Returned ([LNumber (-1)],
              with_engine toy_client (snd (handshake_step toy_client)),
              [Call_SSL_connect]) /\
  tls_conn_lib false clearOut (toy_client_fed [xff])
  = Returned ([LNumber (-1)],
              with_engine (toy_client_fed [xff])
                (snd (handshake_step (toy_client_fed [xff]))),
              Call_SSL_connect :: error_dump) /\
  tls_conn_lib false clearOut lookup_client = Aborted.
Proof.
  split; [reflexivity |]. split; [reflexivity |]. split; [| split].
  - apply (fun Hnot Hm Hstep =>
             proj1 (proj2 (C3_negative_handshake_status_returns_early
                             (lib := toy_openssl) false
                             toy_client (clearIn [x68; x69]) (-1)
                             (snd (handshake_step toy_client))
                             Hnot Hm Hstep))).
    + reflexivity.
    + left. eexists. reflexivity.
    + reflexivity.
    + lia.
    + intros (_ & _ & Hread & _). apply Hread. reflexivity.
  - apply (fun Hnot Hm Hstep =>
             proj1 (proj2 (proj2 (C3_negative_handshake_status_returns_early
                             (lib := toy_openssl) false
                             (toy_client_fed [xff]) clearOut (-1)
                             (snd (handshake_step (toy_client_fed [xff])))
                             Hnot Hm Hstep)))).
    + reflexivity.
    + right. reflexivity.
    + reflexivity.
    + repeat split; (lia || discriminate).
    + unfold ssl_assert_passes. pick_disjunct.
  - apply (fun Hnot Hm Hstep =>
             proj1 (proj2 (proj2 (proj2
               (C3_negative_handshake_status_returns_early
                  (lib := lookup_openssl) false
                  lookup_client clearOut (-1)
                  (snd (handshake_step lookup_client))
                  Hnot Hm Hstep))))).
    + reflexivity.
    + right. reflexivity.
    + reflexivity.
    + repeat split; (lia || discriminate).
Defined.


Lemma C5_witness :
  Z.of_nat (length [x01; x02; x03]) < 2 ^ 31 /\
  exists tc1 l1,
    tls_conn_enc_in false [x01; x02; x03] toy_client
    = Returned ([LNumber 3], tc1, l1) /\
    mem_data (bio_read tc1) = [x01; x02; x03] /\
    bio_write tc1 = bio_write toy_client.
Proof.
  assert (H : Z.of_nat (length [x01; x02; x03]) < 2 ^ 31) by (cbn; lia).
  split; [exact H |].
  destruct (proj1 (proj2 (proj2 C5_feed_and_drain_use_separate_buffers))
              false toy_client [x01; x02; x03])
    as (tc1 & l1 & Hin & Hdata & _ & Hw & _).
  exists tc1, l1. repeat split; assumption.
Defined.


Lemma C7_witness :
  tls_conn_verify_error (toy_established [] (Some toy_cert) 10)
  = Returned ([LStr "CERT_HAS_EXPIRED"],
              toy_established [] (Some toy_cert) 10, []) /\
  tls_conn_verify_error (toy_established [] None 10)
  = Returned ([LStr "Unable to get peer certificate"],
              toy_established [] None 10, []).
Proof.
  split.
  - apply (proj1 (proj2 (proj1 (proj2
             (C7_verify_error_taxonomy (lib := toy_openssl)
                (toy_established [] (Some toy_cert) 10)
                openssl_X509_V_ERR_inj openssl_X509_V_ERR_not_ok))
             toy_cert eq_refl)) CERT_HAS_EXPIRED eq_refl).
  - apply (proj1 (C7_verify_error_taxonomy (lib := toy_openssl)
                    (toy_established [] None 10)
                    openssl_X509_V_ERR_inj openssl_X509_V_ERR_not_ok) eq_refl).
Defined.

Lemma C8_witness :
  tls_conn_get_peer_certificate_fingerprint (lib := toy_openssl) toy_cert
    (repeat x41 192)
  = Some (LStr "fingerprint", LStr "00:AB:1F") /\
  length (fingerprint_spec (x509_sha1 toy_cert)) = 8%nat.
Proof.
  destruct (C8_fingerprint_is_colon_joined_hex (lib := toy_openssl) toy_cert
              (x509_sha1 toy_cert) (repeat x41 192) eq_refl)
    as (Hfp & _ & _ & Hlen).
  - cbn. lia.
  - reflexivity.
  - split; [exact Hfp |]. apply Hlen. cbn. lia.
Defined.

Lemma C9_witness :
  error toy_failed = -1 /\
  exists rs tc' l,
    run false [clearError; start; encOut] toy_failed = Returned (rs, tc', l) /\
    tls_conn_get_error tc' = Returned ([LNil], tc', []).
Proof.
  split; [reflexivity |].
  eexists _, _, _. split; [vm_compute; reflexivity |].
  eapply (proj2 (proj2 (C9_cleared_error_stays_cleared (lib := toy_openssl)
                          false))
            toy_failed [start; encOut]).
  - cbn [no_buffer_fault buffer_status_fatal]. split; [tauto |].
    intros r tc' l H. vm_compute in H. inversion H; subst; clear H.
    split; [tauto |].
    intros r tc' l H. vm_compute in H. inversion H; subst; clear H.
    split; [| intros; exact I].
    unfold bio_fatal. cbn. intros (Hn & _ & _). lia.
  - vm_compute. reflexivity.
Defined.

Lemma C10_witness :
  exists tc' l,
    tls_conn_lib false encOut (toy_established [x16; x68; x69] None 0)
    = Returned ([LNumber 3; LString [x16; x68; x69]], tc', l) /\
    Forall reads_4096 l /\
    Forall fits_pool [LNumber 3; LString [x16; x68; x69]].
Proof.
  eexists _, _. split; [vm_compute; reflexivity |].
  eapply (C10_reads_are_capped_at_4096 (lib := toy_openssl) false encOut
            (toy_established [x16; x68; x69] None 0) _ _ _
            mem_read_bound toy_read_bound (or_introl eq_refl)).
  vm_compute. reflexivity.
Defined.

(** Draining 5000 pending bytes takes two calls: 4096, then 904. *)
Example enc_out_drains_in_chunks :
  exists s1 s2 tc1 tc2 l1 l2,
    tls_conn_enc_out false (toy_established (repeat x41 5000) None 0)
    = Returned ([LNumber 4096; LString s1], tc1, l1) /\
    tls_conn_enc_out false tc1 = Returned ([LNumber 904; LString s2], tc2, l2) /\
    s1 ++ s2 = repeat x41 5000.
Proof.
  eexists _, _, _, _, _, _.
  split; [vm_compute; reflexivity |].
  split; vm_compute; reflexivity.
Qed.

(** * Further properties of the harness *)

Section MoreLaws.
Context {lib : OpenSSL}.
Variable NDEBUG : bool.

(** X1. The inspecting methods ([getError], [encPending], [clearPending],
    [isInitFinished], [verifyError]) only look: a script made of them
    returns in every build, leaves the connection exactly as it was and
    calls nothing that steps the engine or moves bytes. *)
Theorem X1_queries_are_read_only (ms : list method) (tc : tls_conn_t) :
  Forall is_query ms ->
  exists rs, run NDEBUG ms tc = Returned (rs, tc, []).
Proof.
  induction ms as [| m ms IH]; intros Hq.
  - exists []. reflexivity.
  - inversion Hq as [| ? ? Hm Hms]; subst.
    destruct (IH Hms) as [rs Hrs].
    assert (Hone : exists r, tls_conn_lib NDEBUG m tc = Returned (r, tc, [])).
    { destruct m; try contradiction; cbn [tls_conn_lib];
        try (eexists; reflexivity).
      unfold tls_conn_verify_error, bind, gets, ret.
      destruct (SSL_get_peer_certificate (ssl tc)); [| eexists; reflexivity].
      destruct (_ =? _); [eexists; reflexivity |].
      destruct (find _ _); eexists; reflexivity. }
    destruct Hone as [r Hr].
    exists (r :: rs). cbn [run]. unfold bind at 1. rewrite Hr.
    unfold bind. rewrite Hrs. reflexivity.
Qed.

(** The error field after a call that returns: as it was, or zero after
    [clearError], or the negative status that [encIn] or [encOut] met with
    no retry flag, which is also the number the call returned. *)
Lemma method_error_cases m tc r tc' l :
  tls_conn_lib NDEBUG m tc = Returned (r, tc', l) ->
  error tc' = error tc \/
  (m = clearError /\ error tc' = 0) \/
  (is_buffer_method m /\ buffer_status_fatal m tc /\ error tc' < 0 /\
   exists rest, r = LNumber (error tc') :: rest).
Proof.
  intros Hrun.
  destruct (method_eq_clearError m) as [-> | Hne].
  { right; left. cbn [tls_conn_lib] in Hrun. rewrite clear_error_eq in Hrun.
    inversion Hrun; subst. split; reflexivity. }
  assert (Hquiet : ~ buffer_status_fatal m tc -> error tc' = error tc)
    by (intros Hnf; exact (method_keeps_error NDEBUG m tc r tc' l Hrun Hne Hnf)).
  destruct m; try solve [left; apply Hquiet; intros []].
  - cbn [buffer_status_fatal] in *. cbn [tls_conn_lib] in Hrun.
    rewrite enc_in_eq in Hrun. cbv zeta in *.
    destruct (BIO_write (bio_read tc) data
                (int_of_size_t (Z.of_nat (length data)))) as [rv b].
    cbn [fst snd] in *.
    destruct (bio_status_cases b rv) as [Hst | [Hst | Hst]].
    + left. apply Hquiet. intros [Hn _]. lia.
    + left. apply Hquiet. destruct Hst as [_ Hretry]. intros (_ & Hw & Hr).
      destruct Hretry; congruence.
    + right; right. rewrite (bio_error_fatal _ _ _ _ Hst) in Hrun.
      destruct (assert _ _); [| discriminate].
      inversion Hrun; subst. cbn [error with_error].
      split; [exact I |]. split; [exact Hst |].
      split; [exact (proj1 Hst) | eexists; reflexivity].
  - cbn [buffer_status_fatal] in *. cbn [tls_conn_lib] in Hrun.
    rewrite enc_out_eq in Hrun. cbv zeta in *.
    destruct (BIO_read (bio_write tc) 4096) as [[rv pool] b].
    cbn [fst snd] in *.
    destruct (bio_status_cases b rv) as [Hst | [Hst | Hst]].
    + left. apply Hquiet. intros [Hn _]. lia.
    + left. apply Hquiet. destruct Hst as [_ Hretry]. intros (_ & Hw & Hr).
      destruct Hretry; congruence.
    + right; right. rewrite (bio_error_fatal _ _ _ _ Hst) in Hrun.
      destruct (assert _ _); [| discriminate].
      inversion Hrun; subst. cbn [error with_error].
      split; [exact I |]. split; [exact Hst |].
      split; [exact (proj1 Hst) | eexists; reflexivity].
Qed.

(** X2. A call that returns changes the error field in two ways only:
    [clearError] sets it to zero, and [encIn] or [encOut] set it to the
    negative status of a buffer operation that failed with no retry flag,
    the same number they return.  Every other call, whatever the engine
    answered, leaves the field as it was. *)
Theorem X2_error_field_changes_in_two_ways (m : method) (tc : tls_conn_t)
    (r : list lua_value) (tc' : tls_conn_t) (l : list engine_call) :
  tls_conn_lib NDEBUG m tc = Returned (r, tc', l) ->
  error tc' = error tc \/
  (m = clearError /\ error tc' = 0) \/
  (is_buffer_method m /\ buffer_status_fatal m tc /\ error tc' < 0 /\
   exists rest, r = LNumber (error tc') :: rest).
Proof. apply method_error_cases. Qed.

Lemma run_cons m ms tc :
  run NDEBUG (m :: ms) tc =
  match tls_conn_lib NDEBUG m tc with
  | Aborted => Aborted
  | Returned (r, tc1, l1) =>
      match run NDEBUG ms tc1 with
      | Aborted => Aborted
      | Returned (rs, tc2, l2) => Returned (r :: rs, tc2, l1 ++ l2)
      end
  end.
Proof.
  cbn [run]. unfold bind at 1.
  destruct (tls_conn_lib NDEBUG m tc) as [[[r tc1] l1]|]; [| reflexivity].
  unfold bind. destruct (run NDEBUG ms tc1) as [[[rs tc2] l2]|]; [| reflexivity].
  cbn. rewrite app_nil_r. reflexivity.
Qed.

(** An invariant of single calls is an invariant of scripts. *)
Lemma run_invariant (P : tls_conn_t -> Prop) :
  (forall m tc r tc' l,
     P tc -> tls_conn_lib NDEBUG m tc = Returned (r, tc', l) -> P tc') ->
  forall ms tc rs tc' l,
    P tc -> run NDEBUG ms tc = Returned (rs, tc', l) -> P tc'.
Proof.
  intros Hstep ms. induction ms as [| m ms IH]; intros tc rs tc' l HP Hrun.
  - inversion Hrun; subst. exact HP.
  - rewrite run_cons in Hrun.
    destruct (tls_conn_lib NDEBUG m tc) as [[[r tc1] l1]|] eqn:Hm;
      [| discriminate].
    destruct (run NDEBUG ms tc1) as [[[rs1 tc2] l2]|] eqn:Hms;
      [| discriminate].
    inversion Hrun; subst. eapply IH; [| exact Hms]. eapply Hstep; eauto.
Qed.

(** X3. On a connection made by [newCONN], after any script of method
    calls, [getError] answers nil or a negative number, never zero or a
    positive number. *)
Theorem X3_get_error_is_nil_or_negative (ctx : SSL_CTX)
    (arg2 arg3 arg4 : lua_value) (ms : list method)
    (rs : list (list lua_value)) (tc' : tls_conn_t) (l : list engine_call) :
  run NDEBUG ms (fst (newCONN ctx arg2 arg3 arg4)) = Returned (rs, tc', l) ->
  exists v,
    tls_conn_get_error tc' = Returned ([v], tc', []) /\
    (v = LNil \/ exists n, v = LNumber n /\ n < 0).
Proof.
  intros Hrun.
  assert (Hle : error tc' <= 0).
  { refine (run_invariant (fun tc => error tc <= 0) _ ms _ rs tc' l _ Hrun).
    - intros m tc r tc1 l1 HP Hm.
      destruct (method_error_cases m tc r tc1 l1 Hm)
        as [-> | [[_ ->] | (_ & _ & Hneg & _)]]; lia.
    - cbn. lia. }
  rewrite get_error_eq. eexists. split; [reflexivity |].
  destruct (Z.eqb_spec (error tc') 0); [left; reflexivity |].
  right. exists (error tc'). split; [reflexivity | lia].
Qed.

End MoreLaws.

Section BuildLaws.
Context {lib : OpenSSL}.

(** With assertions compiled in, a call leaves the error field as it was
    or clears it. *)
Lemma debug_method_error m tc r tc' l :
  0 <= SSL_ERROR_SSL -> 0 <= SSL_ERROR_SYSCALL ->
  tls_conn_lib false m tc = Returned (r, tc', l) ->
  error tc' = error tc \/ (m = clearError /\ error tc' = 0).
Proof.
  intros H1 H2 Hrun.
  destruct (method_error_cases false m tc r tc' l Hrun)
    as [He | [Hc | (Hm & Hf & _)]]; [left; exact He | right; exact Hc |].
  exfalso. destruct m; try contradiction; cbn [tls_conn_lib] in Hrun.
  - rewrite enc_in_eq in Hrun. cbv zeta in Hrun.
    cbn [buffer_status_fatal] in Hf. cbv zeta in Hf.
    rewrite (bio_fatal_status_aborts false _ _ _ eq_refl H1 H2 Hf) in Hrun.
    discriminate.
  - rewrite enc_out_eq in Hrun. cbv zeta in Hrun.
    cbn [buffer_status_fatal] in Hf. cbv zeta in Hf.
    rewrite (bio_fatal_status_aborts false _ _ _ eq_refl H1 H2 Hf) in Hrun.
    discriminate.
Qed.

(** X4. In a build with assertions, where [SSL_ERROR_SSL] and
    [SSL_ERROR_SYSCALL] are not negative (they are 1 and 5), no method
    call ever stores an error: whatever script returns, a connection whose
    error field was zero still has it zero, so a connection made by
    [newCONN] answers nil to [getError] for ever. *)
Theorem X4_assertions_keep_the_error_field_empty (ms : list method)
    (tc : tls_conn_t) (rs : list (list lua_value)) (tc' : tls_conn_t)
    (l : list engine_call) :
  0 <= SSL_ERROR_SSL -> 0 <= SSL_ERROR_SYSCALL ->
  error tc = 0 ->
  run false ms tc = Returned (rs, tc', l) ->
  error tc' = 0 /\ tls_conn_get_error tc' = Returned ([LNil], tc', []).
Proof.
  intros H1 H2 Hz Hrun.
  assert (Hz' : error tc' = 0).
  { refine (run_invariant false (fun tc => error tc = 0) _ ms tc rs tc' l Hz Hrun).
    intros m tc0 r tc1 l1 HP Hm.
    destruct (debug_method_error m tc0 r tc1 l1 H1 H2 Hm) as [-> | [_ ->]];
      [exact HP | reflexivity]. }
  split; [exact Hz' |]. rewrite get_error_eq, Hz'. reflexivity.
Qed.

End BuildLaws.

Section HarnessLaws.
Context {lib : OpenSSL}.
Variable NDEBUG : bool.

(** X6. In a build without assertions, a buffer operation that fails with
    no retry flag makes [encIn] or [encOut] return its negative status
    and store it; [getError] then reports that very number, and after
    [clearError] it reports nil again. *)
Theorem X6_fatal_buffer_status_is_recorded_and_reported (m : method)
    (tc : tls_conn_t) :
  is_buffer_method m ->
  buffer_status_fatal m tc ->
  exists rv rest tc1 l,
    rv < 0 /\
    tls_conn_lib true m tc = Returned (LNumber rv :: rest, tc1, l) /\
    error tc1 = rv /\
    run true [getError; clearError; getError] tc1
    = Returned ([[LNumber rv]; []; [LNil]], with_error tc1 0, []).
Proof.
  intros Hm Hf.
  assert (Hscript : forall tc1 rv, rv < 0 -> error tc1 = rv ->
            run true [getError; clearError; getError] tc1
            = Returned ([[LNumber rv]; []; [LNil]], with_error tc1 0, [])).
  { intros tc1 rv Hneg He. cbn. unfold bind, gets, ret, set_error. cbn.
    rewrite He. destruct (Z.eqb_spec rv 0); [lia | reflexivity]. }
  destruct m; try contradiction; cbn [tls_conn_lib buffer_status_fatal] in *;
    cbv zeta in Hf.
  - rewrite enc_in_eq. cbv zeta.
    rewrite (bio_fatal_status_recorded true _ _ _ eq_refl Hf).
    eexists _, _, _, _. split; [exact (proj1 Hf) |].
    split; [reflexivity |]. split; [reflexivity |].
    apply Hscript; [exact (proj1 Hf) | reflexivity].
  - rewrite enc_out_eq. cbv zeta.
    rewrite (bio_fatal_status_recorded true _ _ _ eq_refl Hf).
    eexists _, _, _, _. split; [exact (proj1 Hf) |].
    split; [reflexivity |]. split; [reflexivity |].
    apply Hscript; [exact (proj1 Hf) | reflexivity].
Qed.

(** *** The role *)

Lemma keeps_role_refl tc : keeps_role tc tc [].
Proof. split; [reflexivity | constructor]. Qed.

Lemma keeps_role_trans a b c l1 l2 :
  keeps_role a b l1 -> keeps_role b c l2 -> keeps_role a c (l1 ++ l2).
Proof.
  intros [Hab H1] [Hbc H2]. split; [congruence |].
  apply Forall_app. split; [exact H1 |]. rewrite <- Hab. exact H2.
Qed.

Lemma keeps_role_set_error rv : keeps keeps_role (set_error rv).
Proof.
  intros tc a tc' l H. inversion H; subst.
  split; [reflexivity | constructor].
Qed.

Lemma keeps_role_ssl_call {A} c
    (f : SSL -> BIO -> BIO -> A * (SSL * BIO * BIO)) :
  (forall server, fits_role server c) -> keeps keeps_role (ssl_call c f).
Proof.
  intros Hc tc a tc' l H. unfold ssl_call in H.
  destruct (f _ _ _) as [a' [[s r] w]]. inversion H; subst.
  split; [reflexivity | repeat constructor; apply Hc].
Qed.

Lemma keeps_role_bio_read_write data len :
  keeps keeps_role (bio_read_write data len).
Proof.
  intros tc a tc' l H. unfold bio_read_write in H.
  destruct (BIO_write _ _ _) as [rv r]. inversion H; subst.
  split; [reflexivity | repeat constructor].
Qed.

Lemma keeps_role_bio_write_read len : keeps keeps_role (bio_write_read len).
Proof.
  intros tc a tc' l H. unfold bio_write_read in H.
  destruct (BIO_read _ _) as [res w]. inversion H; subst.
  split; [reflexivity | repeat constructor].
Qed.

Lemma keeps_role_handshake_call : keeps keeps_role handshake_call.
Proof.
  intros tc a tc' l H. rewrite handshake_call_eq in H. inversion H; subst.
  split.
  - destruct (snd (handshake_step tc)) as [[s r] w]. reflexivity.
  - repeat constructor. unfold handshake_step_call.
    destruct (is_server tc); reflexivity.
Qed.

Ltac prove_keeps_role :=
  repeat first
    [ apply keeps_role_handshake_call
    | apply (keeps_bind _ keeps_role_trans)
    | apply (keeps_ret _ keeps_role_refl)
    | apply (keeps_gets _ keeps_role_refl)
    | apply (keeps_lift _ keeps_role_refl)
    | apply (keeps_ssl_error _ _ keeps_role_refl);
      intros ?; split; [reflexivity | unfold error_dump; repeat constructor]
    | apply keeps_role_set_error
    | apply keeps_role_ssl_call; intros ?; exact I
    | apply keeps_role_bio_read_write
    | apply keeps_role_bio_write_read
    | apply keeps_if
    | match goal with |- forall _ : _ * _, _ => intros [? ?] end
    | match goal with |- forall _, _ => intro end
    | match goal with
      | |- keeps _ (match ?e with _ => _ end) => destruct e
      end ].

Lemma method_keeps_role m : keeps keeps_role (tls_conn_lib NDEBUG m).
Proof.
  destruct m; cbn [tls_conn_lib];
    unfold tls_conn_enc_in, tls_conn_enc_out, tls_conn_enc_pending,
      tls_conn_get_error, tls_conn_clear_error, tls_conn_clear_out,
      tls_conn_clear_in, tls_conn_clear_pending, tls_conn_is_init_finished,
      tls_conn_shutdown, tls_conn_start, tls_conn_verify_error,
      tls_handle_bio_error_x, tls_handle_ssl_error;
    prove_keeps_role.
Qed.

(** X7. The role never changes and decides every handshake step: after
    any script of method calls the connection is a server exactly if it
    was one before, and the engine calls made on the way contain no
    [SSL_connect] for a server and no [SSL_accept] for a client. *)
Theorem X7_role_is_fixed_and_decides_the_step (ms : list method)
    (tc : tls_conn_t) (rs : list (list lua_value)) (tc' : tls_conn_t)
    (l : list engine_call) :
  run NDEBUG ms tc = Returned (rs, tc', l) ->
  is_server tc' = is_server tc /\ Forall (fits_role (is_server tc)) l.
Proof.
  revert tc rs tc' l. induction ms as [| m ms IH]; intros tc rs tc' l Hrun.
  - inversion Hrun; subst. apply keeps_role_refl.
  - rewrite run_cons in Hrun.
    destruct (tls_conn_lib NDEBUG m tc) as [[[r tc1] l1]|] eqn:Hm;
      [| discriminate].
    destruct (run NDEBUG ms tc1) as [[[rs1 tc2] l2]|] eqn:Hms;
      [| discriminate].
    inversion Hrun; subst.
    exact (keeps_role_trans _ _ _ _ _ (method_keeps_role m _ _ _ _ Hm)
             (IH _ _ _ _ Hms)).
Qed.

Lemma verify_error_returns tc :
  exists r, tls_conn_verify_error tc = Returned (r, tc, []).
Proof.
  unfold tls_conn_verify_error, bind, gets, ret.
  destruct (SSL_get_peer_certificate (ssl tc)); [| eexists; reflexivity].
  destruct (_ =? _); [eexists; reflexivity |].
  destruct (find _ _); eexists; reflexivity.
Qed.

(** X8. [encIn], [encOut] and the two pending counts never touch the
    engine handle: the handle after the call is the handle before it (so
    the handshake is as complete as it was), the only engine calls are
    buffer operations, [encIn] leaves the write BIO alone and [encOut] the
    read BIO. *)
Theorem X8_buffer_methods_leave_the_handle_alone (m : method)
    (tc : tls_conn_t) (r : list lua_value) (tc' : tls_conn_t)
    (l : list engine_call) :
  is_buffer_method m \/ m = encPending \/ m = clearPending ->
  tls_conn_lib NDEBUG m tc = Returned (r, tc', l) ->
  ssl tc' = ssl tc /\
  Forall is_buffer_call l /\
  ((exists data, m = encIn data) -> bio_write tc' = bio_write tc) /\
  (m = encOut -> bio_read tc' = bio_read tc).
Proof.
  intros Hm Hrun.
  destruct m; try (destruct Hm as [[] | [Hm | Hm]]; discriminate Hm);
    cbn [tls_conn_lib] in Hrun.
  - rewrite enc_in_eq in Hrun. cbv zeta in Hrun.
    destruct (bio_error_cases NDEBUG
                (snd (BIO_write (bio_read tc) data
                        (int_of_size_t (Z.of_nat (length data)))))
                (fst (BIO_write (bio_read tc) data
                        (int_of_size_t (Z.of_nat (length data)))))
                (with_bio_read tc
                   (snd (BIO_write (bio_read tc) data
                           (int_of_size_t (Z.of_nat (length data)))))))
      as [Ha | [(r0 & Ha & _) | [Ha _]]]; rewrite Ha in Hrun;
      [discriminate | |]; inversion Hrun; subst;
      (split; [reflexivity |]); (split; [repeat constructor |]);
      (split; [reflexivity | discriminate]).
  - rewrite enc_out_eq in Hrun. cbv zeta in Hrun.
    destruct (bio_error_cases NDEBUG
                (snd (BIO_read (bio_write tc) 4096))
                (fst (fst (BIO_read (bio_write tc) 4096)))
                (with_bio_write tc (snd (BIO_read (bio_write tc) 4096))))
      as [Ha | [(r0 & Ha & _) | [Ha _]]]; rewrite Ha in Hrun;
      [discriminate | |]; inversion Hrun; subst;
      (split; [reflexivity |]); (split; [repeat constructor |]);
      (split; [intros [d Hd]; discriminate Hd | reflexivity]).
  - inversion Hrun; subst. split; [reflexivity |]. split; [constructor |].
    split; [intros [d Hd]; discriminate Hd | discriminate].
  - inversion Hrun; subst. split; [reflexivity |]. split; [constructor |].
    split; [intros [d Hd]; discriminate Hd | discriminate].
Qed.

(** The calls of the classifier, when it returns. *)
Lemma ssl_error_log s rv r l :
  tls_handle_ssl_error_x NDEBUG s rv = Returned (r, l) ->
  l = [] \/ l = error_dump.
Proof.
  unfold tls_handle_ssl_error_x.
  destruct (0 <=? rv); [intros H; inversion H; auto |].
  destruct (_ =? _); [intros H; inversion H; auto |].
  destruct (_ =? _); [intros H; inversion H; auto |].
  destruct (_ =? _); [intros H; inversion H; auto |].
  destruct (assert _ _); intros H; inversion H; auto.
Qed.

(** X9. The calls of one method call that returns: none; or one handshake
    step, which happens only on a connection whose handshake is not
    complete; or one [SSL_write] or [SSL_read], preceded by one handshake
    step exactly when the handshake was not complete; or one
    [SSL_shutdown]; or one buffer operation.  After a handshake step or an
    [SSL_write] or [SSL_read], and only there, the error queue may be
    printed, once, and that ends the call.  So no call steps the handshake
    twice, and none steps it once it is complete. *)
Theorem X9_engine_calls_of_one_method_call (m : method) (tc : tls_conn_t)
    (r : list lua_value) (tc' : tls_conn_t) (l : list engine_call) :
  tls_conn_lib NDEBUG m tc = Returned (r, tc', l) ->
  l = [] \/
  (exists dump,
     (dump = [] \/ dump = error_dump) /\
     SSL_is_init_finished (ssl tc) = false /\
     l = handshake_step_call tc :: dump) \/
  (exists c dump,
     is_record_call c = true /\ (dump = [] \/ dump = error_dump) /\
     ((SSL_is_init_finished (ssl tc) = true /\ l = c :: dump) \/
      (SSL_is_init_finished (ssl tc) = false /\
       l = handshake_step_call tc :: c :: dump))) \/
  l = [Call_SSL_shutdown] \/
  (exists c, is_buffer_call c /\ l = [c]).
Proof.
  intros Hrun. destruct m; cbn [tls_conn_lib] in Hrun.
  - right; right; right; right. rewrite enc_in_eq in Hrun. cbv zeta in Hrun.
    destruct (tls_handle_bio_error_x _ _ _ _) as [[[r0 tc0] l0]|];
      [| discriminate].
    inversion Hrun; subst. eexists. split; [| reflexivity]. exact I.
  - right; right; right; right. rewrite enc_out_eq in Hrun. cbv zeta in Hrun.
    destruct (tls_handle_bio_error_x _ _ _ _) as [[[r0 tc0] l0]|];
      [| discriminate].
    inversion Hrun; subst. eexists. split; [| reflexivity]. exact I.
  - left. inversion Hrun; reflexivity.
  - left. inversion Hrun; reflexivity.
  - left. inversion Hrun; reflexivity.
  - destruct (SSL_is_init_finished (ssl tc)) eqn:Hfin.
    + rewrite (clear_out_finished NDEBUG tc Hfin) in Hrun.
      unfold record_read in Hrun.
      destruct (SSL_read _ _ _ _) as [[br pool] e].
      destruct (tls_handle_ssl_error_x _ _ _) as [[r0 l0]|] eqn:Hc;
        [| discriminate].
      inversion Hrun; subst. right; right; left.
      exists (Call_SSL_read 4096), l0. split; [reflexivity |].
      split; [exact (ssl_error_log _ _ _ _ Hc) | left; split; reflexivity].
    + rewrite (clear_out_unfinished NDEBUG tc Hfin) in Hrun.
      destruct (tls_handle_ssl_error_x _ _ _) as [[r0 l0]|] eqn:Hc0;
        [| discriminate].
      destruct (Z.ltb_spec (fst (handshake_step tc)) 0) as [Hneg | Hpos].
      * inversion Hrun; subst. right; left. exists l0.
        split; [exact (ssl_error_log _ _ _ _ Hc0) |]. split; reflexivity.
      * rewrite (ssl_error_nonneg NDEBUG _ _ Hpos) in Hc0.
        inversion Hc0; subst.
        unfold record_read in Hrun.
        destruct (SSL_read _ _ _ _) as [[br pool] e].
        destruct (tls_handle_ssl_error_x _ _ _) as [[r1 l1]|] eqn:Hc;
          [| discriminate].
        inversion Hrun; subst. right; right; left.
        exists (Call_SSL_read 4096), l1. split; [reflexivity |].
        split; [exact (ssl_error_log _ _ _ _ Hc) | right; split; reflexivity].
  - destruct (SSL_is_init_finished (ssl tc)) eqn:Hfin.
    + rewrite (clear_in_finished NDEBUG data tc Hfin) in Hrun.
      unfold record_write in Hrun.
      destruct (SSL_write _ _ _ _ _) as [bw e].
      destruct (tls_handle_ssl_error_x _ _ _) as [[r0 l0]|] eqn:Hc;
        [| discriminate].
      inversion Hrun; subst. right; right; left.
      exists (Call_SSL_write data (int_of_size_t (Z.of_nat (length data)))),
        l0.
      split; [reflexivity |].
      split; [exact (ssl_error_log _ _ _ _ Hc) | left; split; reflexivity].
    + rewrite (clear_in_unfinished NDEBUG data tc Hfin) in Hrun.
      destruct (tls_handle_ssl_error_x _ _ _) as [[r0 l0]|] eqn:Hc0;
        [| discriminate].
      destruct (Z.ltb_spec (fst (handshake_step tc)) 0) as [Hneg | Hpos].
      * inversion Hrun; subst. right; left. exists l0.
        split; [exact (ssl_error_log _ _ _ _ Hc0) |]. split; reflexivity.
      * rewrite (ssl_error_nonneg NDEBUG _ _ Hpos) in Hc0.
        inversion Hc0; subst.
        unfold record_write in Hrun.
        destruct (SSL_write _ _ _ _ _) as [bw e].
        destruct (tls_handle_ssl_error_x _ _ _) as [[r1 l1]|] eqn:Hc;
          [| discriminate].
        inversion Hrun; subst. right; right; left.
        exists (Call_SSL_write data (int_of_size_t (Z.of_nat (length data)))),
          l1.
        split; [reflexivity |].
        split; [exact (ssl_error_log _ _ _ _ Hc) | right; split; reflexivity].
  - left. inversion Hrun; reflexivity.
  - left. inversion Hrun; reflexivity.
  - right; right; right; left.
    unfold tls_conn_shutdown, bind, ssl_call, ret in Hrun.
    destruct (SSL_shutdown _ _ _) as [rv [[s rb] wb]].
    inversion Hrun; reflexivity.
  - destruct (SSL_is_init_finished (ssl tc)) eqn:Hfin.
    + rewrite (start_finished NDEBUG tc Hfin) in Hrun.
      inversion Hrun; subst. left; reflexivity.
    + rewrite (start_unfinished NDEBUG tc Hfin) in Hrun.
      destruct (tls_handle_ssl_error_x _ _ _) as [[r0 l0]|] eqn:Hc0;
        [| discriminate].
      inversion Hrun; subst. right; left. exists l0.
      split; [exact (ssl_error_log _ _ _ _ Hc0) |]. split; reflexivity.
  - left.
    destruct (verify_error_returns tc) as [r0 Hr0].
    rewrite Hr0 in Hrun. inversion Hrun; reflexivity.
Qed.

(** X10. [verifyError] answers nil only for a verified peer: exactly when
    the engine holds a peer certificate and its verification result is
    [X509_V_OK].  Without a certificate the answer is a string even when
    the result is [X509_V_OK]. *)
Theorem X10_verify_error_nil_means_verified (tc : tls_conn_t) :
  tls_conn_verify_error tc = Returned ([LNil], tc, []) <->
  (exists cert, SSL_get_peer_certificate (ssl tc) = Some cert) /\
  SSL_get_verify_result (ssl tc) = X509_V_OK.
Proof.
  unfold tls_conn_verify_error, bind, gets, ret. split.
  - destruct (SSL_get_peer_certificate (ssl tc)) as [cert |];
      [| intros H; discriminate H].
    destruct (Z.eqb_spec (SSL_get_verify_result (ssl tc)) X509_V_OK) as [E | _].
    + intros _. split; [eauto | exact E].
    + destruct (find _ _); intros H; discriminate H.
  - intros [[cert ->] ->]. rewrite Z.eqb_refl. reflexivity.
Qed.

End HarnessLaws.

(** * Feeding and draining the buffers *)

Section BufferLaws.
Context {lib : OpenSSL}.
Variable NDEBUG : bool.
Variable content : BIO -> list byte.

Lemma fifo_enc_out_eq (tc : tls_conn_t) :
  fifo_read content ->
  tls_conn_enc_out NDEBUG tc
  = Returned ([LNumber (fst (fst (BIO_read (bio_write tc) 4096)));
               LString (firstn 4096 (content (bio_write tc)))],
              with_bio_write tc (snd (BIO_read (bio_write tc) 4096)),
              [Call_BIO_read_bio_write 4096]).
Proof.
  intros Hread. rewrite enc_out_eq. cbv zeta.
  destruct (Hread (bio_write tc)) as [_ Hcase].
  destruct (content (bio_write tc)) as [| c d] eqn:Hd.
  - rewrite (bio_error_transient _ _ _ _ Hcase).
    destruct Hcase as [Hneg _]. unfold push_pool.
    destruct (Z.ltb_spec 0 (fst (fst (BIO_read (bio_write tc) 4096))));
      [lia | reflexivity].
  - destruct Hcase as [Hrv Hpool].
    rewrite bio_error_nonneg by lia. unfold push_pool.
    rewrite Hpool, Hrv.
    destruct (Z.ltb_spec 0 (Z.of_nat (length (firstn 4096 (c :: d)))))
      as [_ | Hle]; [| cbn in Hle; lia].
    rewrite Nat2Z.id, firstn_all. reflexivity.
Qed.

Lemma fifo_enc_in_eq (tc : tls_conn_t) (data : list byte) :
  fifo_write content ->
  Z.of_nat (length data) < 2 ^ 31 ->
  tls_conn_enc_in NDEBUG data tc
  = Returned ([LNumber (Z.of_nat (length data))],
              with_bio_read tc
                (snd (BIO_write (bio_read tc) data (Z.of_nat (length data)))),
              [Call_BIO_write_bio_read data (Z.of_nat (length data))]).
Proof.
  intros Hwrite Hlen. rewrite enc_in_eq. cbv zeta.
  rewrite int_of_size_t_small by lia.
  destruct (Hwrite (bio_read tc) data Hlen) as [Hrv _].
  rewrite bio_error_nonneg by lia. rewrite Hrv. reflexivity.
Qed.

(** X11. Draining loses and reorders nothing.  When the write buffer
    keeps the contract of a memory buffer, [k] calls of [encOut], where
    [4096 * k] covers what is pending in the write buffer, all return;
    the strings they return, each of at most 4096 bytes, are when put end
    to end the pending bytes, as many as [encPending] announced; the write
    buffer is empty afterwards and nothing else of the connection has
    changed. *)
Theorem X11_drain_returns_the_pending_bytes_in_order (k : nat)
    (tc : tls_conn_t) :
  fifo_read content ->
  fifo_pending content ->
  (length (content (bio_write tc)) <= 4096 * k)%nat ->
  exists rs tc' l,
    run NDEBUG (repeat encOut k) tc = Returned (rs, tc', l) /\
    List.concat (map drained rs) = content (bio_write tc) /\
    Forall (fun r => (length (drained r) <= 4096)%nat) rs /\
    tls_conn_enc_pending tc
    = Returned ([LNumber (Z.of_nat (length (List.concat (map drained rs))))],
                tc, []) /\
    content (bio_write tc') = [] /\
    bio_read tc' = bio_read tc /\ ssl tc' = ssl tc /\ error tc' = error tc.
Proof.
  intros Hread Hpending. revert tc. induction k as [| k IH]; intros tc Hlen.
  - destruct (content (bio_write tc)) as [| c d] eqn:Hd; [| cbn in Hlen; lia].
    exists [], tc, []. cbn [repeat run map List.concat].
    repeat split; try assumption; try constructor.
    unfold tls_conn_enc_pending, bind, gets, ret. cbn.
    rewrite Hpending, Hd. reflexivity.
  - cbn [repeat]. rewrite run_cons. cbn [tls_conn_lib].
    rewrite (fifo_enc_out_eq tc Hread).
    set (tc1 := with_bio_write tc _).
    assert (Hc1 : content (bio_write tc1) = skipn 4096 (content (bio_write tc))).
    { subst tc1. cbn. apply (Hread (bio_write tc)). }
    destruct (IH tc1) as (rs & tc' & l & Hrun & Hcat & Hall & _ & Hempty & Hr & Hs & He).
    { rewrite Hc1, length_skipn. lia. }
    rewrite Hrun. eexists _, _, _. split; [reflexivity |].
    assert (Hall' : List.concat (map drained
                      ([LNumber (fst (fst (BIO_read (bio_write tc) 4096)));
                        LString (firstn 4096 (content (bio_write tc)))] :: rs))
                    = content (bio_write tc)).
    { cbn [map List.concat drained]. rewrite Hcat, Hc1.
      apply firstn_skipn. }
    split; [exact Hall' |].
    split.
    { constructor; [| exact Hall]. cbn [drained]. apply firstn_le_length. }
    split.
    { rewrite Hall'. unfold tls_conn_enc_pending, bind, gets, ret. cbn.
      rewrite Hpending. reflexivity. }
    split; [exact Hempty |].
    split; [rewrite Hr; reflexivity |].
    split; [rewrite Hs; reflexivity | rewrite He; reflexivity].
Qed.

(** X12. Feeding accumulates.  When the read buffer keeps the contract
    of a memory buffer, a script of [encIn] calls, each with less than
    2^31 bytes, returns the length of each piece and leaves the read
    buffer with the pieces appended in the order of the calls;
    [clearPending] has grown by their total length, and the write buffer,
    the handle and the error field are as before. *)
Theorem X12_feed_appends_in_call_order (ds : list (list byte))
    (tc : tls_conn_t) :
  fifo_write content ->
  fifo_pending content ->
  Forall (fun d => Z.of_nat (length d) < 2 ^ 31) ds ->
  exists tc' l,
    run NDEBUG (map encIn ds) tc
    = Returned (map (fun d => [LNumber (Z.of_nat (length d))]) ds, tc', l) /\
    content (bio_read tc') = content (bio_read tc) ++ List.concat ds /\
    tls_conn_clear_pending tc'
    = Returned ([LNumber (BIO_pending (bio_read tc)
                          + Z.of_nat (length (List.concat ds)))], tc', []) /\
    bio_write tc' = bio_write tc /\ ssl tc' = ssl tc /\ error tc' = error tc.
Proof.
  intros Hwrite Hpending. revert tc.
  induction ds as [| d ds IH]; intros tc Hall.
  - exists tc, []. cbn [map run List.concat].
    rewrite app_nil_r. repeat split.
    unfold tls_conn_clear_pending, bind, gets, ret. cbn.
    rewrite Z.add_0_r. reflexivity.
  - inversion Hall as [| ? ? Hd Hds]; subst.
    cbn [map]. rewrite run_cons. cbn [tls_conn_lib].
    rewrite (fifo_enc_in_eq tc d Hwrite Hd).
    set (tc1 := with_bio_read tc _).
    assert (Hc1 : content (bio_read tc1) = content (bio_read tc) ++ d).
    { subst tc1. cbn. apply (Hwrite (bio_read tc) d Hd). }
    destruct (IH tc1 Hds) as (tc' & l & Hrun & Hdata & Hpend & Hw & Hs & He).
    rewrite Hrun. eexists _, _. split; [reflexivity |].
    split.
    { rewrite Hdata, Hc1. cbn [List.concat]. rewrite <- app_assoc. reflexivity. }
    split.
    { rewrite Hpend. rewrite !Hpending, Hc1. cbn [List.concat].
      rewrite !length_app, !Nat2Z.inj_add, Z.add_assoc. reflexivity. }
    split; [rewrite Hw; reflexivity |].
    split; [rewrite Hs; reflexivity | rewrite He; reflexivity].
Qed.

End BufferLaws.

(** The toy library's buffers keep the contract. *)
Lemma mem_fifo_pending : fifo_pending (lib := toy_openssl) mem_data.
Proof. intros b. reflexivity. Qed.

Lemma mem_fifo_read : fifo_read (lib := toy_openssl) mem_data.
Proof.
  intros b. cbv zeta. change (@BIO_read toy_openssl) with mem_read.
  unfold mem_read. destruct (mem_data b) as [| c d] eqn:Hd.
  - split; [reflexivity |]. split; [cbn; lia | right; reflexivity].
  - split; [reflexivity |]. split; reflexivity.
Qed.

Lemma mem_fifo_write : fifo_write (lib := toy_openssl) mem_data.
Proof.
  intros b data Hlen. cbv zeta. change (@BIO_write toy_openssl) with mem_write.
  unfold mem_write. rewrite Nat2Z.id, firstn_all. split; reflexivity.
Qed.

(** * Reading a fingerprint back *)

Lemma decode_hex_pair (b : byte) (rest : list byte) :
  fingerprint_decode (hex_pair b ++ rest)
  = match rest with
    | [] => Some [b]
    | c :: rest' =>
        if Byte.eqb c x3a then
          match fingerprint_decode rest' with
          | Some md => Some (b :: md)
          | None => None
          end
        else None
    end.
Proof. destruct b; reflexivity. Qed.

Lemma decode_fingerprint_spec (md : list byte) :
  fingerprint_decode (fingerprint_spec md) = Some md.
Proof.
  induction md as [| b md IH]; [reflexivity |].
  destruct md as [| b' md'].
  - change (fingerprint_spec [b]) with (hex_pair b ++ []).
    apply decode_hex_pair.
  - change (fingerprint_spec (b :: b' :: md'))
      with (hex_pair b ++ x3a :: fingerprint_spec (b' :: md')).
    rewrite decode_hex_pair. cbn [Byte.eqb]. rewrite IH. reflexivity.
Qed.

(** X13. The fingerprint determines the digest.  For digests that fit the
    array, reading the hex pairs of the string back gives the digest
    bytes, so two certificates have the same fingerprint string only if
    their digests are equal; what the array held before plays no part. *)
Theorem X13_fingerprint_determines_the_digest (md uninit : list byte) :
  (3 * length md <= length uninit)%nat ->
  fingerprint_decode (fingerprint md uninit) = Some md /\
  forall md' uninit',
    (3 * length md' <= length uninit')%nat ->
    fingerprint md uninit = fingerprint md' uninit' -> md = md'.
Proof.
  intros Hfit.
  assert (Hdec : forall m u, (3 * length m <= length u)%nat ->
                   fingerprint_decode (fingerprint m u) = Some m).
  { intros m u H. rewrite (fingerprint_refines m u H).
    apply decode_fingerprint_spec. }
  split; [apply Hdec; exact Hfit |].
  intros md' uninit' Hfit' Heq.
  pose proof (Hdec md uninit Hfit) as H1.
  pose proof (Hdec md' uninit' Hfit') as H2.
  rewrite Heq in H1. congruence.
Qed.

(** * Tables, certificates and the end of a connection *)

Lemma bytes_eqb_eq (a b : list byte) : bytes_eqb a b = true -> a = b.
Proof.
  revert b. induction a as [| x a IH]; intros [| y b] H; try discriminate H.
  - reflexivity.
  - cbn in H. apply andb_true_iff in H. destruct H as [Hx Hab].
    apply Byte.byte_dec_bl in Hx. subst. f_equal. apply IH. exact Hab.
Qed.

Lemma bytes_eqb_refl (a : list byte) : bytes_eqb a a = true.
Proof.
  induction a as [| x a IH]; [reflexivity |]. cbn. rewrite IH.
  rewrite (Byte.byte_dec_lb eq_refl). reflexivity.
Qed.

Lemma lua_value_eqb_eq (a b : lua_value) : lua_value_eqb a b = true -> a = b.
Proof.
  destruct a, b; cbn; intros H; try discriminate H; try reflexivity.
  - apply Bool.eqb_prop in H. subst. reflexivity.
  - apply Z.eqb_eq in H. subst. reflexivity.
  - apply bytes_eqb_eq in H. subst. reflexivity.
Qed.

Lemma lua_value_eqb_refl (a : lua_value) : lua_value_eqb a a = true.
Proof.
  destruct a; cbn; [reflexivity | apply Bool.eqb_reflx | apply Z.eqb_refl
                   | apply bytes_eqb_refl].
Qed.

Lemma gettable_settable_same t k v :
  lua_gettable (lua_settable t k v) k = Some v.
Proof.
  induction t as [| [k' v'] t IH]; cbn.
  - rewrite lua_value_eqb_refl. reflexivity.
  - destruct (lua_value_eqb k k') eqn:E; cbn.
    + rewrite lua_value_eqb_refl. reflexivity.
    + rewrite E. exact IH.
Qed.

Lemma gettable_settable_other t k v k' :
  lua_value_eqb k' k = false ->
  lua_gettable (lua_settable t k v) k' = lua_gettable t k'.
Proof.
  intros Hne. induction t as [| [k0 v0] t IH]; cbn.
  - rewrite Hne. reflexivity.
  - destruct (lua_value_eqb k k0) eqn:E; cbn.
    + apply lua_value_eqb_eq in E. subst k0. rewrite Hne. reflexivity.
    + destruct (lua_value_eqb k' k0); [reflexivity | exact IH].
Qed.

Lemma gettable_set_if_other (b : bool) t k v k' :
  lua_value_eqb k' k = false ->
  lua_gettable (if b then lua_settable t k v else t) k' = lua_gettable t k'.
Proof. intros H. destruct b; [apply gettable_settable_other; exact H | reflexivity]. Qed.

Lemma settable_keys (P : lua_value -> Prop) t k v :
  Forall (fun kv => P (fst kv)) t -> P k ->
  Forall (fun kv => P (fst kv)) (lua_settable t k v).
Proof.
  intros Ht Hk. induction t as [| [k' v'] t IH]; cbn.
  - constructor; [exact Hk | constructor].
  - inversion Ht as [| ? ? Hk' Ht']; subst.
    destruct (lua_value_eqb k k'); constructor; auto.
Qed.

Section CertLaws.
Context {lib : OpenSSL} {api : OpenSSL_cert}.
Variable NDEBUG : bool.

Lemma cert_name_block_eq name key st :
  scratch st = [] ->
  cert_name_block name key st
  = mk_cert_state []
      (if 0 <? fst (X509_NAME_print_ex name 0 X509_NAME_FLAGS)
       then lua_settable (table st) (LStr key)
              (OValue (LString (snd (X509_NAME_print_ex name 0 X509_NAME_FLAGS))))
       else table st)
      (cert_log st ++ [Call_BIO_reset]) (scratch_live st).
Proof.
  intros Hs. unfold cert_name_block.
  destruct (X509_NAME_print_ex name 0 X509_NAME_FLAGS) as [rv written].
  cbn [fst snd]. unfold print_to, store_scratch, reset_scratch. rewrite Hs.
  destruct (0 <? rv); reflexivity.
Qed.

Lemma cert_san_block_eq peer_cert st st' :
  scratch st = [] ->
  cert_san_block NDEBUG peer_cert st = Returned st' ->
  st' = mk_cert_state []
          (if 0 <=? X509_get_ext_by_NID peer_cert NID_subject_alt_name (-1)
           then lua_settable (table st) (LStr "subjectaltname")
                  (OValue (LString (snd (X509V3_EXT_print
                     (X509_get_ext peer_cert
                        (X509_get_ext_by_NID peer_cert NID_subject_alt_name (-1)))
                     0 0))))
           else table st)
          (cert_log st ++
           if 0 <=? X509_get_ext_by_NID peer_cert NID_subject_alt_name (-1)
           then [Call_BIO_reset] else [])
          (scratch_live st).
Proof.
  intros Hs. unfold cert_san_block.
  destruct (0 <=? X509_get_ext_by_NID peer_cert NID_subject_alt_name (-1)).
  - destruct (assert NDEBUG _); [| discriminate].
    destruct (X509V3_EXT_print _ 0 0) as [rv written].
    destruct (assert NDEBUG _); [| discriminate].
    intros H. inversion H; subst. cbn [snd].
    unfold print_to, store_scratch, reset_scratch. cbn. rewrite Hs. reflexivity.
  - intros H. inversion H; subst. destruct st' as [sc tb lg lv]. cbn in *.
    subst sc. rewrite app_nil_r. reflexivity.
Qed.

Lemma cert_rsa_block_eq peer_cert st :
  scratch st = [] ->
  cert_rsa_block peer_cert st
  = match X509_get_pubkey peer_cert with
    | Some pkey =>
        match EVP_PKEY_get1_RSA pkey with
        | Some rsa =>
            mk_cert_state []
              (lua_settable
                 (lua_settable (table st) (LStr "modulus")
                    (OValue (LString (snd (BN_print (RSA_n rsa))))))
                 (LStr "e") (OValue (LString (snd (BN_print (RSA_e rsa))))))
              (cert_log st ++ [Call_BIO_reset; Call_BIO_reset])
              (scratch_live st)
        | None => st
        end
    | None => st
    end.
Proof.
  intros Hs. unfold cert_rsa_block.
  destruct (X509_get_pubkey peer_cert) as [pkey |]; [| reflexivity].
  destruct (EVP_PKEY_get1_RSA pkey) as [rsa |]; [| reflexivity].
  unfold print_to, store_scratch, reset_scratch. cbn. rewrite Hs.
  rewrite <- app_assoc. reflexivity.
Qed.

Lemma cert_rsa_block_scratch peer_cert st :
  scratch st = [] -> scratch (cert_rsa_block peer_cert st) = [].
Proof.
  intros Hs. rewrite (cert_rsa_block_eq peer_cert st Hs).
  destruct (X509_get_pubkey peer_cert) as [pkey |]; [| exact Hs].
  destruct (EVP_PKEY_get1_RSA pkey); [reflexivity | exact Hs].
Qed.

Lemma cert_validity_block_eq peer_cert st :
  scratch st = [] ->
  cert_validity_block peer_cert st
  = mk_cert_state (snd (ASN1_TIME_print (X509_get_notAfter peer_cert)))
      (lua_settable
         (lua_settable (table st) (LStr "valid_from")
            (OValue (LString (snd (ASN1_TIME_print (X509_get_notBefore peer_cert))))))
         (LStr "valid_to")
         (OValue (LString (snd (ASN1_TIME_print (X509_get_notAfter peer_cert))))))
      (cert_log st ++ [Call_BIO_reset]) (scratch_live st).
Proof.
  intros Hs. unfold cert_validity_block, print_to, store_scratch,
    reset_scratch. cbn. rewrite Hs. reflexivity.
Qed.

Lemma cert_rsa_block_parts peer_cert st :
  scratch st = [] ->
  table (cert_rsa_block peer_cert st)
  = match match X509_get_pubkey peer_cert with
          | Some pkey => EVP_PKEY_get1_RSA pkey
          | None => None
          end with
    | Some rsa =>
        lua_settable
          (lua_settable (table st) (LStr "modulus")
             (OValue (LString (snd (BN_print (RSA_n rsa))))))
          (LStr "e") (OValue (LString (snd (BN_print (RSA_e rsa)))))
    | None => table st
    end /\
  cert_log (cert_rsa_block peer_cert st)
  = cert_log st ++
    match match X509_get_pubkey peer_cert with
          | Some pkey => EVP_PKEY_get1_RSA pkey
          | None => None
          end with
    | Some _ => [Call_BIO_reset; Call_BIO_reset]
    | None => []
    end /\
  scratch_live (cert_rsa_block peer_cert st) = scratch_live st.
Proof.
  intros Hs. rewrite (cert_rsa_block_eq peer_cert st Hs).
  destruct (X509_get_pubkey peer_cert) as [pkey |];
    [destruct (EVP_PKEY_get1_RSA pkey) |];
    cbn [table cert_log scratch_live]; rewrite ?app_nil_r;
    repeat split; reflexivity.
Qed.

Lemma cert_fingerprint_block_parts peer_cert uninit st :
  table (cert_fingerprint_block peer_cert uninit st)
  = match X509_digest_sha1 peer_cert with
    | Some md => lua_settable (table st) (LStr "fingerprint")
                   (OValue (LString (fingerprint md uninit)))
    | None => table st
    end /\
  cert_log (cert_fingerprint_block peer_cert uninit st) = cert_log st /\
  scratch_live (cert_fingerprint_block peer_cert uninit st) = scratch_live st.
Proof.
  unfold cert_fingerprint_block, tls_conn_get_peer_certificate_fingerprint.
  destruct (X509_digest_sha1 peer_cert); repeat split; reflexivity.
Qed.

Lemma cert_eku_block_parts peer_cert st :
  table (cert_eku_block peer_cert st)
  = match X509_get_ext_d2i peer_cert NID_ext_key_usage with
    | Some eku => lua_settable (table st) (LStr "ext_key_usage")
                    (OTable (eku_loop [] 0 eku))
    | None => table st
    end /\
  cert_log (cert_eku_block peer_cert st)
  = cert_log st ++
    match X509_get_ext_d2i peer_cert NID_ext_key_usage with
    | Some _ => [Call_sk_pop_free]
    | None => []
    end /\
  scratch_live (cert_eku_block peer_cert st) = scratch_live st.
Proof.
  unfold cert_eku_block.
  destruct (X509_get_ext_d2i peer_cert NID_ext_key_usage);
    cbn [table cert_log scratch_live]; rewrite ?app_nil_r;
    repeat split; reflexivity.
Qed.

(** With a certificate, a call that gets past the two assertions ends at
    the second [BIO_free]; the table built and the calls made by then,
    block after block. *)
Lemma peer_certificate_eq uninit tc peer_cert :
  SSL_get_peer_certificate (ssl tc) = Some peer_cert ->
  let t1 := if 0 <? fst (X509_NAME_print_ex (X509_get_subject_name peer_cert) 0
                           X509_NAME_FLAGS)
            then lua_settable [] (LStr "subject")
                   (OValue (LString (snd (X509_NAME_print_ex
                      (X509_get_subject_name peer_cert) 0 X509_NAME_FLAGS))))
            else [] in
  let t2 := if 0 <? fst (X509_NAME_print_ex (X509_get_issuer_name peer_cert) 0
                           X509_NAME_FLAGS)
            then lua_settable t1 (LStr "issuer")
                   (OValue (LString (snd (X509_NAME_print_ex
                      (X509_get_issuer_name peer_cert) 0 X509_NAME_FLAGS))))
            else t1 in
  let index := X509_get_ext_by_NID peer_cert NID_subject_alt_name (-1) in
  let t3 := if 0 <=? index
            then lua_settable t2 (LStr "subjectaltname")
                   (OValue (LString (snd (X509V3_EXT_print
                      (X509_get_ext peer_cert index) 0 0))))
            else t2 in
  let rsa := match X509_get_pubkey peer_cert with
             | Some pkey => EVP_PKEY_get1_RSA pkey
             | None => None
             end in
  let t4 := match rsa with
            | Some rsa =>
                lua_settable
                  (lua_settable t3 (LStr "modulus")
                     (OValue (LString (snd (BN_print (RSA_n rsa))))))
                  (LStr "e") (OValue (LString (snd (BN_print (RSA_e rsa)))))
            | None => t3
            end in
  let t5 := lua_settable
              (lua_settable t4 (LStr "valid_from")
                 (OValue (LString (snd (ASN1_TIME_print
                    (X509_get_notBefore peer_cert))))))
              (LStr "valid_to")
              (OValue (LString (snd (ASN1_TIME_print
                 (X509_get_notAfter peer_cert))))) in
  let t6 := match X509_digest_sha1 peer_cert with
            | Some md => lua_settable t5 (LStr "fingerprint")
                           (OValue (LString (fingerprint md uninit)))
            | None => t5
            end in
  let t7 := match X509_get_ext_d2i peer_cert NID_ext_key_usage with
            | Some eku => lua_settable t6 (LStr "ext_key_usage")
                            (OTable (eku_loop [] 0 eku))
            | None => t6
            end in
  let log := [Call_BIO_new_scratch; Call_BIO_reset; Call_BIO_reset]
             ++ (if 0 <=? index then [Call_BIO_reset] else [])
             ++ (match rsa with
                 | Some _ => [Call_BIO_reset; Call_BIO_reset]
                 | None => []
                 end)
             ++ [Call_BIO_reset; Call_BIO_free_scratch]
             ++ (match X509_get_ext_d2i peer_cert NID_ext_key_usage with
                 | Some _ => [Call_sk_pop_free]
                 | None => []
                 end) in
  tls_conn_get_peer_certificate NDEBUG uninit (Open tc)
  = match cert_san_block NDEBUG peer_cert
            (mk_cert_state [] t2
               [Call_BIO_new_scratch; Call_BIO_reset; Call_BIO_reset] true) with
    | Aborted => Cert_aborted
    | Returned _ => Cert_double_free t7 log
    end.
Proof.
  intros Hcert. cbv zeta. unfold tls_conn_get_peer_certificate. rewrite Hcert.
  rewrite (cert_name_block_eq _ "subject") by reflexivity.
  rewrite (cert_name_block_eq _ "issuer") by reflexivity.
  cbn [table cert_log scratch_live app].
  destruct (cert_san_block NDEBUG peer_cert _) as [st3 |] eqn:Hsan;
    [| reflexivity].
  apply cert_san_block_eq in Hsan; [| reflexivity].
  cbn [table cert_log scratch_live] in Hsan.
  assert (Hs3 : scratch st3 = []) by (rewrite Hsan; reflexivity).
  pose proof (cert_validity_block_eq peer_cert _
                (cert_rsa_block_scratch peer_cert st3 Hs3)) as E5.
  destruct (cert_rsa_block_parts peer_cert st3 Hs3) as (Et4 & El4 & Ev4).
  rewrite E5, Et4, El4, Ev4, Hsan. cbn [table cert_log scratch_live].
  unfold scratch_free at 1. cbn [scratch_live scratch table cert_log].
  match goal with
  | |- context [cert_eku_block peer_cert
                  (cert_fingerprint_block peer_cert uninit ?st)] =>
      destruct (cert_eku_block_parts peer_cert
                  (cert_fingerprint_block peer_cert uninit st))
        as (Et7 & El7 & Ev7);
      destruct (cert_fingerprint_block_parts peer_cert uninit st)
        as (Et6 & El6 & Ev6)
  end.
  unfold scratch_free. rewrite Ev7, Ev6. cbn [scratch_live].
  rewrite Et7, Et6, El7, El6. cbn [table cert_log].
  f_equal. rewrite <- !app_assoc. reflexivity.
Qed.

Lemma cert_double_free_inj t l t' l' :
  Cert_double_free t l = Cert_double_free t' l' -> t = t' /\ l = l'.
Proof. intros H. inversion H. split; reflexivity. Qed.

(** The two assertions are the only way not to get there. *)
Lemma cert_san_block_returns peer_cert st :
  NDEBUG = true -> exists st', cert_san_block NDEBUG peer_cert st = Returned st'.
Proof.
  intros HN. unfold cert_san_block, assert. rewrite HN. cbn [orb].
  destruct (0 <=? _); [| eauto].
  destruct (X509V3_EXT_print _ 0 0) as [rv written]. eauto.
Qed.

Lemma gettable_set_if_same (b : bool) t k v :
  lua_gettable (if b then lua_settable t k v else t) k
  = if b then Some v else lua_gettable t k.
Proof. destruct b; [apply gettable_settable_same | reflexivity]. Qed.

Ltac lookup_step :=
  match goal with
  | |- context [lua_gettable (lua_settable ?t ?k ?v) ?k'] =>
      let b := eval vm_compute in (lua_value_eqb k' k) in
      match b with
      | true => rewrite (gettable_settable_same t k v)
      | false => rewrite (gettable_settable_other t k v k' eq_refl)
      end
  | |- context [lua_gettable (if ?c then lua_settable ?t ?k ?v else ?t) ?k'] =>
      let b := eval vm_compute in (lua_value_eqb k' k) in
      match b with
      | true => rewrite (gettable_set_if_same c t k v)
      | false => rewrite (gettable_set_if_other c t k v k' eq_refl)
      end
  end.

Ltac lookup_table := repeat lookup_step; try reflexivity.

Ltac table_keys :=
  repeat first
    [ apply (settable_keys (fun k => In k cert_keys))
    | match goal with
      | |- Forall _ (if ?b then _ else _) => destruct b
      | |- Forall _ [] => constructor
      | |- In _ cert_keys =>
          unfold cert_keys; cbn [map In];
          repeat first [left; reflexivity | right]
      end ].

(** X14. The fields of the certificate table.  When there is a peer
    certificate, the table that the call has built when it reaches its
    last [BIO_free] holds every string exactly as its own printing call
    wrote it, nothing of an earlier field carried over: "subject" and
    "issuer" are there when the name printed with a positive status,
    "subjectaltname" when the extension exists, "modulus" and "e" together
    and for an RSA key only, "valid_from" and "valid_to" always,
    "fingerprint" when the digest succeeded, "ext_key_usage" when that
    extension exists; and there is no other key. *)
Theorem X14_certificate_table_fields (uninit : list byte) (tc : tls_conn_t)
    (peer_cert : X509) (t : list (lua_value * lua_obj))
    (log : list cert_call) :
  SSL_get_peer_certificate (ssl tc) = Some peer_cert ->
  tls_conn_get_peer_certificate NDEBUG uninit (Open tc)
  = Cert_double_free t log ->
  lua_gettable t (LStr "subject")
  = (let p := X509_NAME_print_ex (X509_get_subject_name peer_cert) 0
                X509_NAME_FLAGS in
     if 0 <? fst p then Some (OValue (LString (snd p))) else None) /\
  lua_gettable t (LStr "issuer")
  = (let p := X509_NAME_print_ex (X509_get_issuer_name peer_cert) 0
                X509_NAME_FLAGS in
     if 0 <? fst p then Some (OValue (LString (snd p))) else None) /\
  lua_gettable t (LStr "subjectaltname")
  = (let index := X509_get_ext_by_NID peer_cert NID_subject_alt_name (-1) in
     if 0 <=? index
     then Some (OValue (LString (snd (X509V3_EXT_print
                  (X509_get_ext peer_cert index) 0 0))))
     else None) /\
  lua_gettable t (LStr "modulus")
  = match X509_get_pubkey peer_cert with
    | Some pkey =>
        match EVP_PKEY_get1_RSA pkey with
        | Some rsa => Some (OValue (LString (snd (BN_print (RSA_n rsa)))))
        | None => None
        end
    | None => None
    end /\
  lua_gettable t (LStr "e")
  = match X509_get_pubkey peer_cert with
    | Some pkey =>
        match EVP_PKEY_get1_RSA pkey with
        | Some rsa => Some (OValue (LString (snd (BN_print (RSA_e rsa)))))
        | None => None
        end
    | None => None
    end /\
  lua_gettable t (LStr "valid_from")
  = Some (OValue (LString (snd (ASN1_TIME_print
                                  (X509_get_notBefore peer_cert))))) /\
  lua_gettable t (LStr "valid_to")
  = Some (OValue (LString (snd (ASN1_TIME_print
                                  (X509_get_notAfter peer_cert))))) /\
  lua_gettable t (LStr "fingerprint")
  = match X509_digest_sha1 peer_cert with
    | Some md => Some (OValue (LString (fingerprint md uninit)))
    | None => None
    end /\
  lua_gettable t (LStr "ext_key_usage")
  = match X509_get_ext_d2i peer_cert NID_ext_key_usage with
    | Some eku => Some (OTable (eku_loop [] 0 eku))
    | None => None
    end /\
  Forall (fun kv => In (fst kv) cert_keys) t.
Proof.
  intros Hcert Hret.
  rewrite (peer_certificate_eq uninit tc peer_cert Hcert) in Hret.
  cbv zeta in Hret.
  destruct (cert_san_block NDEBUG peer_cert _); [| discriminate].
  destruct (cert_double_free_inj _ _ _ _ Hret) as [<- _]. cbv zeta.
  destruct (X509_get_pubkey peer_cert) as [pkey |];
    [destruct (EVP_PKEY_get1_RSA pkey) as [rsa |] |];
    destruct (X509_digest_sha1 peer_cert) as [md |];
    destruct (X509_get_ext_d2i peer_cert NID_ext_key_usage) as [eku |];
    (repeat split; [lookup_table .. | table_keys]).
Qed.

(** *** The extended key usage list *)

Lemma c_string_padded (w : list byte) (n : nat) :
  c_string (w ++ repeat x00 (S n)) = c_string w.
Proof.
  induction w as [| c w IH]; [reflexivity |].
  cbn. destruct (Byte.eqb c x00); [reflexivity | f_equal; exact IH].
Qed.

Lemma c_string_length (w : list byte) : (length (c_string w) <= length w)%nat.
Proof.
  induction w as [| c w IH]; [cbn; lia |].
  cbn. destruct (Byte.eqb c x00); cbn; lia.
Qed.

(** Later rounds leave the earlier entries alone. *)
Lemma eku_loop_earlier objs : forall inner i k,
  k < Z.of_nat i + 1 ->
  lua_gettable (eku_loop inner i objs) (LNumber k)
  = lua_gettable inner (LNumber k).
Proof.
  induction objs as [| obj objs IH]; intros inner i k Hk; [reflexivity |].
  cbn [eku_loop]. rewrite IH by lia. unfold eku_round.
  apply gettable_settable_other. cbn. apply Z.eqb_neq. lia.
Qed.

Lemma eku_loop_entry objs : forall inner i j obj,
  nth_error objs j = Some obj ->
  lua_gettable (eku_loop inner i objs) (LNumber (Z.of_nat (i + j) + 1))
  = Some (OValue (LString (c_string
       (snd (OBJ_obj2txt 255 obj 1)
        ++ repeat x00 (256 - length (snd (OBJ_obj2txt 255 obj 1))))))).
Proof.
  induction objs as [| o objs IH]; intros inner i j obj Hj.
  - destruct j; discriminate Hj.
  - cbn [eku_loop]. destruct j as [| j].
    + cbn in Hj. inversion Hj; subst. rewrite Nat.add_0_r.
      rewrite eku_loop_earlier by lia. unfold eku_round.
      apply gettable_settable_same.
    + cbn in Hj. replace (i + S j)%nat with (S i + j)%nat by lia.
      apply IH. exact Hj.
Qed.

Lemma eku_loop_keys objs : forall inner i n,
  (i + length objs <= n)%nat ->
  Forall (fun kv => exists k, fst kv = LNumber k /\ 1 <= k <= Z.of_nat n) inner ->
  Forall (fun kv => exists k, fst kv = LNumber k /\ 1 <= k <= Z.of_nat n)
         (eku_loop inner i objs).
Proof.
  induction objs as [| o objs IH]; intros inner i n Hn Hinner; [exact Hinner |].
  cbn [eku_loop length] in *. apply IH; [lia |]. unfold eku_round.
  apply (settable_keys (fun key => exists k, key = LNumber k /\ 1 <= k <= Z.of_nat n));
    [exact Hinner |].
  eexists. split; [reflexivity | lia].
Qed.

(** X15. The extended key usage list.  When the extension is present and
    [OBJ_obj2txt] keeps to the 255 bytes it is given, the table that the
    call has built when it reaches its last [BIO_free] holds under
    "ext_key_usage" a list whose entry [j + 1] is the text of the [j]-th
    object of the extension, in the order of the extension, read as a C
    string of at most 255 bytes; the list has no key outside [1..n]. *)
Theorem X15_extended_key_usage_list (uninit : list byte) (tc : tls_conn_t)
    (peer_cert : X509) (eku : list ASN1_OBJECT)
    (t : list (lua_value * lua_obj)) (log : list cert_call) :
  SSL_get_peer_certificate (ssl tc) = Some peer_cert ->
  X509_get_ext_d2i peer_cert NID_ext_key_usage = Some eku ->
  (forall obj, (length (snd (OBJ_obj2txt 255 obj 1)) <= 255)%nat) ->
  tls_conn_get_peer_certificate NDEBUG uninit (Open tc)
  = Cert_double_free t log ->
  exists inner,
    lua_gettable t (LStr "ext_key_usage") = Some (OTable inner) /\
    (forall j obj,
       nth_error eku j = Some obj ->
       lua_gettable inner (LNumber (Z.of_nat j + 1))
       = Some (OValue (LString (c_string (snd (OBJ_obj2txt 255 obj 1))))) /\
       (length (c_string (snd (OBJ_obj2txt 255 obj 1))) <= 255)%nat) /\
    Forall (fun kv => exists k, fst kv = LNumber k /\
                                1 <= k <= Z.of_nat (length eku)) inner.
Proof.
  intros Hcert Heku Hfit Hret.
  rewrite (peer_certificate_eq uninit tc peer_cert Hcert) in Hret.
  cbv zeta in Hret. rewrite Heku in Hret.
  destruct (cert_san_block NDEBUG peer_cert _); [| discriminate].
  destruct (cert_double_free_inj _ _ _ _ Hret) as [<- _].
  exists (eku_loop [] 0 eku).
  split; [apply gettable_settable_same |]. split.
  - intros j obj Hj. split.
    + rewrite <- (Nat.add_0_l j) at 1. rewrite (eku_loop_entry eku [] 0%nat j obj Hj).
      specialize (Hfit obj).
      replace (256 - length (snd (OBJ_obj2txt 255 obj 1)))%nat
        with (S (255 - length (snd (OBJ_obj2txt 255 obj 1)))) by lia.
      rewrite c_string_padded. reflexivity.
    + pose proof (c_string_length (snd (OBJ_obj2txt 255 obj 1))).
      specialize (Hfit obj). lia.
  - apply eku_loop_keys; [cbn; lia | constructor].
Qed.

(** X16. The scratch BIO is freed twice.  Without a peer certificate, or
    after [close], [getPeerCertificate] answers nil and touches nothing.
    With one it never returns: it aborts at one of the two assertions of
    the subject alternative name block, which assertions compiled out
    rules out, or it goes on to hand [BIO_free] the scratch BIO that it
    has freed after "valid_to", the one BIO it made, with no new one in
    between; what happens then C does not say. *)
Theorem X16_scratch_bio_is_freed_twice (uninit : list byte) (u : userdata) :
  (match u with
   | Closed _ _ => True
   | Open tc => SSL_get_peer_certificate (ssl tc) = None
   end ->
   tls_conn_get_peer_certificate NDEBUG uninit u
   = Cert_returned [OValue LNil] []) /\
  (forall tc peer_cert,
     u = Open tc ->
     SSL_get_peer_certificate (ssl tc) = Some peer_cert ->
     (forall res log,
        tls_conn_get_peer_certificate NDEBUG uninit u
        <> Cert_returned res log) /\
     (tls_conn_get_peer_certificate NDEBUG uninit u = Cert_aborted \/
      exists t resets pop,
        tls_conn_get_peer_certificate NDEBUG uninit u
        = Cert_double_free t
            (Call_BIO_new_scratch :: resets ++ Call_BIO_free_scratch :: pop) /\
        Forall (eq Call_BIO_reset) resets /\
        (pop = [] \/ pop = [Call_sk_pop_free])) /\
     (NDEBUG = true ->
      tls_conn_get_peer_certificate NDEBUG uninit u <> Cert_aborted)).
Proof.
  split.
  - destruct u as [tc | s e]; [| reflexivity].
    intros Hnone. unfold tls_conn_get_peer_certificate. rewrite Hnone.
    reflexivity.
  - intros tc peer_cert -> Hcert.
    rewrite (peer_certificate_eq uninit tc peer_cert Hcert). cbv zeta.
    split; [| split].
    + intros res log. destruct (cert_san_block NDEBUG peer_cert _); discriminate.
    + destruct (cert_san_block NDEBUG peer_cert _); [| left; reflexivity].
      right.
      eexists _,
        ([Call_BIO_reset; Call_BIO_reset]
         ++ (if 0 <=? X509_get_ext_by_NID peer_cert NID_subject_alt_name (-1)
             then [Call_BIO_reset] else [])
         ++ (match match X509_get_pubkey peer_cert with
                   | Some pkey => EVP_PKEY_get1_RSA pkey
                   | None => None
                   end with
             | Some _ => [Call_BIO_reset; Call_BIO_reset]
             | None => []
             end)
         ++ [Call_BIO_reset]),
        (match X509_get_ext_d2i peer_cert NID_ext_key_usage with
         | Some _ => [Call_sk_pop_free]
         | None => []
         end).
      split; [| split].
      * f_equal. cbn [app]. rewrite <- !app_assoc. reflexivity.
      * repeat (apply Forall_app; split);
          repeat match goal with
                 | |- Forall _ (if ?b then _ else _) => destruct b
                 | |- Forall _ (match ?e with _ => _ end) => destruct e
                 | |- Forall _ _ => constructor
                 | |- _ = _ => reflexivity
                 end.
      * destruct (X509_get_ext_d2i peer_cert NID_ext_key_usage); auto.
    + intros HN.
      destruct (cert_san_block_returns peer_cert
                  (mk_cert_state []
                     (if 0 <? fst (X509_NAME_print_ex
                                     (X509_get_issuer_name peer_cert) 0
                                     X509_NAME_FLAGS)
                      then lua_settable
                             (if 0 <? fst (X509_NAME_print_ex
                                             (X509_get_subject_name peer_cert) 0
                                             X509_NAME_FLAGS)
                              then lua_settable [] (LStr "subject")
                                     (OValue (LString (snd (X509_NAME_print_ex
                                        (X509_get_subject_name peer_cert) 0
                                        X509_NAME_FLAGS))))
                              else [])
                             (LStr "issuer")
                             (OValue (LString (snd (X509_NAME_print_ex
                                (X509_get_issuer_name peer_cert) 0
                                X509_NAME_FLAGS))))
                      else
                        if 0 <? fst (X509_NAME_print_ex
                                       (X509_get_subject_name peer_cert) 0
                                       X509_NAME_FLAGS)
                        then lua_settable [] (LStr "subject")
                               (OValue (LString (snd (X509_NAME_print_ex
                                  (X509_get_subject_name peer_cert) 0
                                  X509_NAME_FLAGS))))
                        else [])
                     [Call_BIO_new_scratch; Call_BIO_reset; Call_BIO_reset]
                     true) HN) as [st' ->].
      discriminate.
Qed.

(** X17. [getCurrentCipher] answers nil after [close] and while no cipher
    is negotiated, and in no other case; otherwise it answers a table of
    exactly two entries, the name and the version of the cipher. *)
Theorem X17_current_cipher_is_nil_or_name_and_version (u : userdata) :
  (tls_conn_get_current_cipher u = [OValue LNil] <->
   match u with
   | Closed _ _ => True
   | Open tc => SSL_get_current_cipher (ssl tc) = None
   end) /\
  (forall tc c,
     u = Open tc -> SSL_get_current_cipher (ssl tc) = Some c ->
     exists t,
       tls_conn_get_current_cipher u = [OTable t] /\
       lua_gettable t (LStr "name")
       = Some (OValue (LString (SSL_CIPHER_get_name c))) /\
       lua_gettable t (LStr "version")
       = Some (OValue (LString (SSL_CIPHER_get_version c))) /\
       length t = 2%nat).
Proof.
  split.
  - destruct u as [tc | s e]; cbn; [| tauto].
    destruct (SSL_get_current_cipher (ssl tc)); split; intros H;
      first [reflexivity | discriminate H].
  - intros tc c -> Hc. cbn. rewrite Hc. eexists. split; [reflexivity |].
    repeat split.
Qed.

(** X18. The handle is released once.  However many times [close] and
    [__gc] are called, in any order, only the first call hands a live
    handle to [SSL_free]; every later call hands it [NULL].  After the
    first call the connection is closed for good, with its error code
    kept, and [getCurrentCipher] and [getPeerCertificate] answer nil. *)
Theorem X18_close_releases_the_handle_once (m : lifecycle_method)
    (ms : list lifecycle_method) (u : userdata) (uninit : list byte) :
  exists server,
    run_lifecycle (m :: ms) u
    = (Closed server (userdata_error u),
       Call_SSL_free (match u with Open _ => true | Closed _ _ => false end)
       :: repeat (Call_SSL_free false) (length ms)) /\
    tls_conn_get_current_cipher (Closed server (userdata_error u))
    = [OValue LNil] /\
    tls_conn_get_peer_certificate NDEBUG uninit
      (Closed server (userdata_error u))
    = Cert_returned [OValue LNil] [].
Proof.
  assert (Hclosed : forall ms s e,
            run_lifecycle ms (Closed s e)
            = (Closed s e, repeat (Call_SSL_free false) (length ms))).
  { intros ms0 s e. induction ms0 as [| m0 ms0 IH]; [reflexivity |].
    cbn [run_lifecycle length repeat]. destruct m0; cbn; rewrite IH; reflexivity. }
  destruct u as [tc | s e].
  - exists (is_server tc). split; [| split; reflexivity].
    cbn [run_lifecycle]. destruct m; cbn; rewrite Hclosed; reflexivity.
  - exists s. split; [| split; reflexivity].
    cbn [run_lifecycle]. destruct m; cbn; rewrite Hclosed; reflexivity.
Qed.

End CertLaws.

(** ** The further properties at concrete connections *)

Lemma X1_witness :
  exists rs,
    run false [getError; encPending; clearPending; isInitFinished; verifyError]
      toy_failed
    = Returned (rs, toy_failed, []).
Proof.
  apply (X1_queries_are_read_only (lib := toy_openssl) false).
  repeat constructor.
Defined.

Lemma X2_witness :
  exists r tc' l,
    tls_conn_lib true (encIn [x16]) faulty_client = Returned (r, tc', l) /\
    (error tc' = error faulty_client \/
     (encIn [x16] = clearError /\ error tc' = 0) \/
     (is_buffer_method (encIn [x16]) /\
      buffer_status_fatal (encIn [x16]) faulty_client /\ error tc' < 0 /\
      exists rest, r = LNumber (error tc') :: rest)).
Proof.
  eexists _, _, _. split; [vm_compute; reflexivity |].
  eapply (X2_error_field_changes_in_two_ways (lib := faulty_openssl) true
            (encIn [x16]) faulty_client).
  vm_compute. reflexivity.
Defined.

Lemma X3_witness :
  exists rs tc' l,
    run true [start; encIn [x15]; start; clearOut; getError]
      (fst (newCONN (lib := toy_openssl) (mk_toy_ctx None 0)
              (LBoolean false) LNil LNil))
    = Returned (rs, tc', l) /\
    exists v,
      tls_conn_get_error tc' = Returned ([v], tc', []) /\
      (v = LNil \/ exists n, v = LNumber n /\ n < 0).
Proof.
  eexists _, _, _. split; [vm_compute; reflexivity |].
  eapply (X3_get_error_is_nil_or_negative (lib := toy_openssl) true
            (mk_toy_ctx None 0) (LBoolean false) LNil LNil
            [start; encIn [x15]; start; clearOut; getError]).
  vm_compute. reflexivity.
Defined.

Lemma X4_witness :
  exists rs tc' l,
    run false [start; encOut; encIn [x16]; start; clearIn [x68]] toy_client
    = Returned (rs, tc', l) /\
    error tc' = 0 /\ tls_conn_get_error tc' = Returned ([LNil], tc', []).
Proof.
  eexists _, _, _. split; [vm_compute; reflexivity |].
  eapply (X4_assertions_keep_the_error_field_empty (lib := toy_openssl)
            [start; encOut; encIn [x16]; start; clearIn [x68]] toy_client).
  - vm_compute. discriminate.
  - vm_compute. discriminate.
  - reflexivity.
  - vm_compute. reflexivity.
Defined.

Lemma X6_witness :
  exists rv rest tc1 l,
    rv < 0 /\
    tls_conn_lib true (encIn [x16]) faulty_client
    = Returned (LNumber rv :: rest, tc1, l) /\
    error tc1 = rv /\
    run true [getError; clearError; getError] tc1
    = Returned ([[LNumber rv]; []; [LNil]], with_error tc1 0, []).
Proof.
  apply (X6_fatal_buffer_status_is_recorded_and_reported
           (lib := faulty_openssl) (encIn [x16]) faulty_client).
  - exact I.
  - vm_compute. repeat split.
Defined.

Lemma X7_witness :
  exists rs tc' l,
    run false [start; encIn [x16]; start; clearIn [x68]; shutdown] toy_server
    = Returned (rs, tc', l) /\
    is_server tc' = is_server toy_server /\
    Forall (fits_role (is_server toy_server)) l.
Proof.
  eexists _, _, _. split; [vm_compute; reflexivity |].
  eapply (X7_role_is_fixed_and_decides_the_step (lib := toy_openssl) false
            [start; encIn [x16]; start; clearIn [x68]; shutdown] toy_server).
  vm_compute. reflexivity.
Defined.

Lemma X8_witness :
  exists r tc' l,
    tls_conn_lib false (encIn [x16; x68]) toy_client = Returned (r, tc', l) /\
    ssl tc' = ssl toy_client /\
    Forall is_buffer_call l /\
    ((exists data, encIn [x16; x68] = encIn data) ->
     bio_write tc' = bio_write toy_client) /\
    (encIn [x16; x68] = encOut -> bio_read tc' = bio_read toy_client).
Proof.
  eexists _, _, _. split; [vm_compute; reflexivity |].
  eapply (X8_buffer_methods_leave_the_handle_alone (lib := toy_openssl) false
            (encIn [x16; x68]) toy_client).
  - left. exact I.
  - vm_compute. reflexivity.
Defined.

Lemma X9_witness :
  exists r tc' l,
    tls_conn_lib false start (toy_client_fed [xff]) = Returned (r, tc', l) /\
    (l = [] \/
     (exists dump,
        (dump = [] \/ dump = error_dump) /\
        SSL_is_init_finished (ssl (toy_client_fed [xff])) = false /\
        l = handshake_step_call (toy_client_fed [xff]) :: dump) \/
     (exists c dump,
        is_record_call c = true /\ (dump = [] \/ dump = error_dump) /\
        ((SSL_is_init_finished (ssl (toy_client_fed [xff])) = true /\
          l = c :: dump) \/
         (SSL_is_init_finished (ssl (toy_client_fed [xff])) = false /\
          l = handshake_step_call (toy_client_fed [xff]) :: c :: dump))) \/
     l = [Call_SSL_shutdown] \/
     (exists c, is_buffer_call c /\ l = [c])).
Proof.
  eexists _, _, _. split; [vm_compute; reflexivity |].
  eapply (X9_engine_calls_of_one_method_call (lib := toy_openssl) false
            start (toy_client_fed [xff])).
  vm_compute. reflexivity.
Defined.

Lemma X11_witness :
  exists rs tc' l,
    run false (repeat encOut 1) (toy_established [x16; x68; x69] None 0)
    = Returned (rs, tc', l) /\
    List.concat (map drained rs) = [x16; x68; x69] /\
    mem_data (bio_write tc') = [].
Proof.
  destruct (X11_drain_returns_the_pending_bytes_in_order
              (lib := toy_openssl) false mem_data 1
              (toy_established [x16; x68; x69] None 0)
              mem_fifo_read mem_fifo_pending)
    as (rs & tc' & l & Hrun & Hcat & _ & _ & Hempty & _).
  - cbn. lia.
  - exists rs, tc', l. repeat split; assumption.
Defined.

Lemma X12_witness :
  exists tc' l,
    run false (map encIn [[x16]; [x68; x69]]) toy_client
    = Returned ([[LNumber 1]; [LNumber 2]], tc', l) /\
    mem_data (bio_read tc') = [x16; x68; x69].
Proof.
  destruct (X12_feed_appends_in_call_order (lib := toy_openssl) false mem_data
              [[x16]; [x68; x69]] toy_client mem_fifo_write mem_fifo_pending)
    as (tc' & l & Hrun & Hdata & _).
  - repeat constructor.
  - exists tc', l. split; [exact Hrun | exact Hdata].
Defined.

Lemma X13_witness :
  fingerprint_decode (fingerprint [x00; xab; x1f] (repeat x00 9))
  = Some [x00; xab; x1f].
Proof.
  apply (proj1 (X13_fingerprint_determines_the_digest [x00; xab; x1f]
                  (repeat x00 9) ltac:(cbn; lia))).
Defined.

Lemma X14_witness :
  exists t,
    tls_conn_get_peer_certificate (api := toy_cert_api) false (repeat x00 192)
      (Open (toy_established [] (Some toy_cert) 0))
    = Cert_double_free t
        [Call_BIO_new_scratch; Call_BIO_reset; Call_BIO_reset;
         Call_BIO_reset; Call_BIO_reset; Call_BIO_reset;
         Call_BIO_reset; Call_BIO_free_scratch; Call_sk_pop_free] /\
    lua_gettable t (LStr "subject")
    = Some (OValue (LString (list_byte_of_string "CN=peer"))) /\
    lua_gettable t (LStr "fingerprint")
    = Some (OValue (LString (list_byte_of_string "00:AB:1F"))) /\
    Forall (fun kv => In (fst kv) cert_keys) t.
Proof.
  destruct (X14_certificate_table_fields (api := toy_cert_api) false
              (repeat x00 192) (toy_established [] (Some toy_cert) 0)
              toy_cert _ _ eq_refl ltac:(vm_compute; reflexivity))
    as (Hsubject & _ & _ & _ & _ & _ & _ & Hfp & _ & Hkeys).
  eexists. split; [vm_compute; reflexivity |].
  split; [exact Hsubject |]. split; [exact Hfp | exact Hkeys].
Defined.

Lemma X15_witness :
  exists t log inner,
    tls_conn_get_peer_certificate (api := toy_cert_api) false (repeat x00 192)
      (Open (toy_established [] (Some toy_cert) 0))
    = Cert_double_free t log /\
    lua_gettable t (LStr "ext_key_usage") = Some (OTable inner) /\
    lua_gettable inner (LNumber 2)
    = Some (OValue (LString (list_byte_of_string "1.3.6.1.5.5.7.3.2"))) /\
    Forall (fun kv => exists k, fst kv = LNumber k /\ 1 <= k <= 2) inner.
Proof.
  destruct (X15_extended_key_usage_list (api := toy_cert_api) false
              (repeat x00 192) (toy_established [] (Some toy_cert) 0)
              toy_cert
              [list_byte_of_string "1.3.6.1.5.5.7.3.1";
               list_byte_of_string "1.3.6.1.5.5.7.3.2"] _ _
              eq_refl eq_refl
              (fun obj => Nat.le_trans _ _ _ (firstn_le_length 254 obj)
                            (Nat.le_succ_diag_r 254))
              ltac:(vm_compute; reflexivity))
    as (inner & Heku & Hentry & Hkeys).
  eexists _, _, inner. split; [vm_compute; reflexivity |].
  split; [exact Heku |]. split; [| exact Hkeys].
  exact (proj1 (Hentry 1%nat (list_byte_of_string "1.3.6.1.5.5.7.3.2")
                  eq_refl)).
Defined.

Lemma X16_witness :
  tls_conn_get_peer_certificate (api := toy_cert_api) false []
    (Open (toy_established [] None 0))
  = Cert_returned [OValue LNil] [] /\
  (forall res log,
     tls_conn_get_peer_certificate (api := toy_cert_api) false (repeat x00 192)
       (Open (toy_established [] (Some toy_cert) 0))
     <> Cert_returned res log) /\
  exists t,
    tls_conn_get_peer_certificate (api := toy_cert_api) false (repeat x00 192)
      (Open (toy_established [] (Some toy_cert) 0))
    = Cert_double_free t
        [Call_BIO_new_scratch; Call_BIO_reset; Call_BIO_reset;
         Call_BIO_reset; Call_BIO_reset; Call_BIO_reset;
         Call_BIO_reset; Call_BIO_free_scratch; Call_sk_pop_free].
Proof.
  split; [| split].
  - apply (proj1 (X16_scratch_bio_is_freed_twice (api := toy_cert_api) false []
                    (Open (toy_established [] None 0))) eq_refl).
  - apply (proj1 (proj2 (X16_scratch_bio_is_freed_twice (api := toy_cert_api)
                           false (repeat x00 192)
                           (Open (toy_established [] (Some toy_cert) 0)))
                    (toy_established [] (Some toy_cert) 0) toy_cert
                    eq_refl eq_refl)).
  - eexists. vm_compute. reflexivity.
Defined.

Lemma X17_witness :
  tls_conn_get_current_cipher (api := toy_cert_api) (Open toy_client)
  = [OValue LNil] /\
  exists t,
    tls_conn_get_current_cipher (api := toy_cert_api)
      (Open (toy_established [] None 0)) = [OTable t] /\
    lua_gettable t (LStr "name")
    = Some (OValue (LString (list_byte_of_string "AES256-SHA"))) /\
    lua_gettable t (LStr "version")
    = Some (OValue (LString (list_byte_of_string "TLSv1/SSLv3"))) /\
    length t = 2%nat.
Proof.
  split.
  - apply (proj2 (proj1 (X17_current_cipher_is_nil_or_name_and_version
                           (api := toy_cert_api) (Open toy_client))) eq_refl).
  - apply (proj2 (X17_current_cipher_is_nil_or_name_and_version
                    (api := toy_cert_api) (Open (toy_established [] None 0)))
             (toy_established [] None 0) tt eq_refl eq_refl).
Defined.
